(** * ContextDiff: the diff orchestration and span reconciliation engine

    A shallow embedding of [app/services/diff_engine.py],
    [app/services/cache.py], [backend/app/models.py], the settings of
    [backend/app/config.py] and the error handling of [backend/main.py],
    and the properties the design document states about them.

    Conventions of the embedding.
    - A Python [str] is a [string], with the code points below 256 for
      characters; offsets and lengths are in [Z], because the oracle's
      JSON may carry any integer and Python slicing gives a meaning to
      negative ones.
    - A JSON object read with [dict.get] / [in] is a record of [option]
      fields: [None] is an absent key.
    - An exception is a value of an inductive type; a function that may
      raise returns a [result].
    - The oracle, the clock, [uuid4] and [difflib]'s ratio are inputs. *)

From Stdlib Require Import ZArith List String Ascii Bool Lia QArith DecimalString.
Import ListNotations.
Local Open Scope string_scope.
Local Open Scope Z_scope.

Set Implicit Arguments.

(* ================================================================== *)
(** * Python's [str] operations used by the engine *)
(* ================================================================== *)

Module Py.

(** [len(s)] *)
Definition len (s : string) : Z := Z.of_nat (String.length s).

(** How [s[lo:hi]] reads one bound on a sequence of length [n]: a negative
    bound counts from the end, and both are clamped to [0..n]. *)
Definition clamp (n i : Z) : Z :=
  if i <? 0 then Z.max 0 (i + n) else Z.min i n.

(** [s[lo:hi]] *)
Definition slice (s : string) (lo hi : Z) : string :=
  let lo' := clamp (len s) lo in
  let hi' := clamp (len s) hi in
  if lo' <? hi' then substring (Z.to_nat lo') (Z.to_nat (hi' - lo')) s
  else "".

(** [s.find(sub)], searching from the character at index [i] of the whole
    string when [s] is what is left of it: the lowest index, or [-1]. *)
Fixpoint find_from (s sub : string) (i : Z) : Z :=
  if prefix sub s then i
  else match s with
       | EmptyString => -1
       | String _ s' => find_from s' sub (i + 1)
       end.

Definition find (s sub : string) : Z := find_from s sub 0.

Definition nl : ascii := "010"%char.

(** The paragraph separator ['\n\n']. *)
Definition nlnl : string := String nl (String nl "").

(** [sep.join(l)] *)
Definition join (sep : string) (l : list string) : string := concat sep l.

(** Puts a character in front of the first piece of a split. *)
Definition cons_first (c : ascii) (l : list string) : list string :=
  match l with
  | [] => [String c ""]
  | p :: ps => String c p :: ps
  end.

(** [s.split('\n\n')]: the pieces between the occurrences of the separator,
    found from the left and not overlapping; always at least one piece. *)
Fixpoint split_nlnl (s : string) : list string :=
  match s with
  | EmptyString => [""]
  | String c s1 =>
      match s1 with
      | EmptyString => [String c ""]
      | String c' s2 =>
          if (Ascii.eqb c nl && Ascii.eqb c' nl)%bool
          then "" :: split_nlnl s2
          else cons_first c (split_nlnl s1)
      end
  end.

(** Comparison of two [str] with [>]: by code point, lexicographic. *)
Definition gt (a b : string) : bool := String.ltb b a.

(** The capital letters among the first 256 code points: A..Z and
    U+00C0..U+00DE but the multiplication sign U+00D7. *)
Definition is_upper (c : ascii) : bool :=
  let n := nat_of_ascii c in
  (((65 <=? n) && (n <=? 90))
   || ((192 <=? n) && (n <=? 222) && negb (n =? 215)))%nat%bool.

(** The small letters that have their capital 32 code points below:
    a..z and U+00E0..U+00FE but the division sign U+00F7. *)
Definition is_lower (c : ascii) : bool :=
  let n := nat_of_ascii c in
  (((97 <=? n) && (n <=? 122))
   || ((224 <=? n) && (n <=? 254) && negb (n =? 247)))%nat%bool.

Definition lower_char (c : ascii) : ascii :=
  if is_upper c then ascii_of_nat (nat_of_ascii c + 32) else c.

(** The upper case of one character. The sharp s U+00DF gives two
    characters, ["SS"]; the micro sign U+00B5 and U+00FF have their
    capitals, U+039C and U+0178, past the first 256 code points:
    [None]. *)
Definition upper_char (c : ascii) : option string :=
  let n := nat_of_ascii c in
  if is_lower c then Some (String (ascii_of_nat (n - 32)) "")
  else if (n =? 223)%nat then Some "SS"
  else if ((n =? 181) || (n =? 255))%nat%bool then None
  else Some (String c "").

Fixpoint map_chars (f : ascii -> ascii) (s : string) : string :=
  match s with
  | EmptyString => ""
  | String c s' => String (f c) (map_chars f s')
  end.

(** [s.lower()] *)
Definition lower : string -> string := map_chars lower_char.

(** [s.upper()], [None] when the result has a character past the first
    256 code points. *)
Fixpoint upper (s : string) : option string :=
  match s with
  | EmptyString => Some ""
  | String c s' =>
      match upper_char c, upper s' with
      | Some u, Some r => Some (u ++ r)
      | _, _ => None
      end
  end.

(** The characters [str.strip()] removes, among the first 256 code points:
    space, tab to carriage return, the separators 28..31, NEL and the
    no-break space. *)
Definition is_space (c : ascii) : bool :=
  let n := nat_of_ascii c in
  ((n =? 32) || ((9 <=? n) && (n <=? 13)) || ((28 <=? n) && (n <=? 31))
   || (n =? 133) || (n =? 160))%nat%bool.

Fixpoint lstrip (s : string) : string :=
  match s with
  | EmptyString => ""
  | String c s' => if is_space c then lstrip s' else s
  end.

Fixpoint rstrip (s : string) : string :=
  match s with
  | EmptyString => ""
  | String c s' =>
      match rstrip s' with
      | EmptyString => if is_space c then "" else String c ""
      | r => String c r
      end
  end.

(** [s.strip()] *)
Definition strip (s : string) : string := rstrip (lstrip s).

(** Truth value of a [str]: not empty. *)
Definition truthy (s : string) : bool := negb (s =? "")%string.

End Py.

(* ================================================================== *)
(** * The data model ([backend/app/models.py]) *)
(* ================================================================== *)

(** The oracle's JSON document as the engine reads it before validation:
    dictionaries with keys that may be missing. *)
Module Raw.

(** The ["id"] of a change, with the verdict of [UUID] on its text. *)
Inductive IdText :=
| WellFormed (u : string)
| Malformed (s : string).

Record Span := mkSpan {
  text : option string;
  start : option Z;
  end_ : option Z;
  context_before : option string;
  context_after : option string
}.

Record Change := mkChange {
  id : option IdText;
  type : option string;
  severity : option string;
  description : option string;
  original_span : option Span;
  generated_span : option Span;
  reasoning : option string
}.

Record Summary := mkSummary {
  is_safe : option bool;
  risk_score : option Z;
  semantic_change_level : option string
}.

Record Response := mkResponse {
  summary : option Summary;
  changes : option (list Change)
}.

(** Truth value of a span dictionary: it has a key. *)
Definition span_truthy (sp : Span) : bool :=
  match text sp, start sp, end_ sp, context_before sp, context_after sp with
  | None, None, None, None, None => false
  | _, _, _, _, _ => true
  end.

Definition id_truthy (i : IdText) : bool :=
  match i with
  | WellFormed u => Py.truthy u
  | Malformed s => Py.truthy s
  end.

Definition set_offsets (sp : Span) (new_start new_end : Z) : Span :=
  mkSpan (text sp) (Some new_start) (Some new_end)
         (context_before sp) (context_after sp).

Definition set_id (c : Change) (i : IdText) : Change :=
  mkChange (Some i) (type c) (severity c) (description c)
           (original_span c) (generated_span c) (reasoning c).

Definition set_type (c : Change) (t : string) : Change :=
  mkChange (id c) (Some t) (severity c) (description c)
           (original_span c) (generated_span c) (reasoning c).

Definition set_severity (c : Change) (v : string) : Change :=
  mkChange (id c) (type c) (Some v) (description c)
           (original_span c) (generated_span c) (reasoning c).

Definition set_original_span (c : Change) (sp : Span) : Change :=
  mkChange (id c) (type c) (severity c) (description c)
           (Some sp) (generated_span c) (reasoning c).

Definition set_generated_span (c : Change) (sp : Span) : Change :=
  mkChange (id c) (type c) (severity c) (description c)
           (original_span c) (Some sp) (reasoning c).

Definition set_changes (r : Response) (l : list Change) : Response :=
  mkResponse (summary r) (Some l).

End Raw.

Module SensitivityLevel.
Inductive t := LOW | MEDIUM | HIGH.
Definition value (s : t) : string :=
  match s with LOW => "low" | MEDIUM => "medium" | HIGH => "high" end.
End SensitivityLevel.

Module ChangeType.
Inductive t := FACTUAL | TONE | OMISSION | ADDITION | FORMATTING.
Definition value (c : t) : string :=
  match c with
  | FACTUAL => "FACTUAL" | TONE => "TONE" | OMISSION => "OMISSION"
  | ADDITION => "ADDITION" | FORMATTING => "FORMATTING"
  end.
Definition members : list t := [FACTUAL; TONE; OMISSION; ADDITION; FORMATTING].
End ChangeType.

Module ChangeSeverity.
Inductive t := INFO | WARNING | CRITICAL.
Definition value (c : t) : string :=
  match c with INFO => "info" | WARNING => "warning" | CRITICAL => "critical" end.
Definition members : list t := [INFO; WARNING; CRITICAL].
End ChangeSeverity.

Module SemanticChangeLevel.
Inductive t := NONE | MINOR | MODERATE | CRITICAL | FATAL.
Definition value (l : t) : string :=
  match l with
  | NONE => "NONE" | MINOR => "MINOR" | MODERATE => "MODERATE"
  | CRITICAL => "CRITICAL" | FATAL => "FATAL"
  end.
Definition members : list t := [NONE; MINOR; MODERATE; CRITICAL; FATAL].
(** The position on the five-level scale, in the order of declaration. *)
Definition rank (l : t) : nat :=
  match l with
  | NONE => 0 | MINOR => 1 | MODERATE => 2 | CRITICAL => 3 | FATAL => 4
  end%nat.
End SemanticChangeLevel.

Module Models.

Record TextSpan := mkTextSpan {
  text : string;
  start : Z;
  end_ : Z;
  context_before : string;
  context_after : string
}.

Record ChangeItem := mkChangeItem {
  id : string;
  type : ChangeType.t;
  severity : ChangeSeverity.t;
  description : string;
  original_span : TextSpan;
  generated_span : TextSpan;
  reasoning : string
}.

Record DiffSummary := mkDiffSummary {
  is_safe : bool;
  risk_score : Z;
  semantic_change_level : SemanticChangeLevel.t
}.

Record DiffResponse := mkDiffResponse {
  summary : DiffSummary;
  changes : list ChangeItem
}.

Record CompareRequest := mkCompareRequest {
  original_text : string;
  generated_text : string;
  sensitivity : SensitivityLevel.t;
  premium_mode : bool
}.

(** The member of an [Enum] with a given value. *)
Definition of_value {E : Type} (members : list E) (value : E -> string)
  (s : string) : option E :=
  List.find (fun m => (value m =? s)%string) members.

(** [d.get(k, default)] on a dictionary of strings. *)
Fixpoint dict_get (d : list (string * string)) (k default : string) : string :=
  match d with
  | [] => default
  | (k', v) :: d' => if (k' =? k)%string then v else dict_get d' k default
  end.

Definition severity_map : list (string * string) :=
  [ ("minor", "info"); ("low", "info"); ("none", "info");
    ("moderate", "warning"); ("medium", "warning");
    ("high", "critical"); ("fatal", "critical"); ("severe", "critical");
    ("info", "info"); ("warning", "warning"); ("critical", "critical") ].

(** The second half of [normalize_fields]: the severity. *)
Definition normalize_severity (values : Raw.Change) : Raw.Change :=
  match Raw.severity values with
  | Some sv =>
      if Py.truthy sv then
        let severity_lower := Py.strip (Py.lower sv) in
        Raw.set_severity values (dict_get severity_map severity_lower "warning")
      else values
  | None => values
  end.

(** [ChangeItem.normalize_fields], the validator that runs before the
    fields are checked. [None]: the type in upper case has a character
    past the first 256 code points; no member of [ChangeType] has one, so
    the check of the type then fails. *)
Definition normalize_fields (values : Raw.Change) : option Raw.Change :=
  match Raw.type values with
  | Some t =>
      if Py.truthy t then
        match Py.upper t with
        | Some upper_t =>
            Some (normalize_severity (Raw.set_type values upper_t))
        | None => None
        end
      else Some (normalize_severity values)
  | None => Some (normalize_severity values)
  end.

Definition from_option {A : Type} (d : A) (o : option A) : A :=
  match o with Some a => a | None => d end.

(** The constructor [TextSpan] on a dictionary: [None] is a
    [ValidationError]. *)
Definition validate_TextSpan (sp : Raw.Span) : option TextSpan :=
  match Raw.text sp, Raw.start sp, Raw.end_ sp with
  | Some t, Some s, Some e =>
      if ((0 <=? s) && (0 <=? e) && negb (e <? s))%bool
      then Some (mkTextSpan t s e (from_option "" (Raw.context_before sp))
                            (from_option "" (Raw.context_after sp)))
      else None
  | _, _, _ => None
  end.

Definition min_length_1 (o : option string) : option string :=
  match o with
  | Some s => if (1 <=? Py.len s) then Some s else None
  | None => None
  end.

Definition bind {A B : Type} (o : option A) (f : A -> option B) : option B :=
  match o with Some a => f a | None => None end.

(** The constructor [ChangeItem] on a dictionary; [fresh] is what [uuid4] gives when the id is left
    to the default factory. *)
Definition validate_ChangeItem (fresh : string) (c : Raw.Change)
  : option ChangeItem :=
  bind (normalize_fields c) (fun c =>
  bind (match Raw.id c with
        | None => Some fresh
        | Some (Raw.WellFormed u) => Some u
        | Some (Raw.Malformed _) => None
        end) (fun i =>
  bind (bind (Raw.type c) (of_value ChangeType.members ChangeType.value)) (fun t =>
  bind (bind (Raw.severity c)
             (of_value ChangeSeverity.members ChangeSeverity.value)) (fun sv =>
  bind (min_length_1 (Raw.description c)) (fun d =>
  bind (bind (Raw.original_span c) validate_TextSpan) (fun o =>
  bind (bind (Raw.generated_span c) validate_TextSpan) (fun g =>
  bind (min_length_1 (Raw.reasoning c)) (fun r =>
  Some (mkChangeItem i t sv d o g r))))))))).

Definition validate_DiffSummary (s : Raw.Summary) : option DiffSummary :=
  bind (Raw.is_safe s) (fun b =>
  bind (Raw.risk_score s) (fun r =>
  bind (bind (Raw.semantic_change_level s)
             (of_value SemanticChangeLevel.members SemanticChangeLevel.value))
       (fun l =>
  if ((0 <=? r) && (r <=? 100))%bool then Some (mkDiffSummary b r l) else None))).

Fixpoint validate_changes (uuid4 : nat -> string) (k : nat)
  (l : list Raw.Change) : option (list ChangeItem) :=
  match l with
  | [] => Some []
  | c :: l' =>
      bind (validate_ChangeItem (uuid4 k) c) (fun c' =>
      bind (validate_changes uuid4 (S k) l') (fun l'' => Some (c' :: l'')))
  end.

(** The constructor [DiffResponse] on the dictionary [response_data]. *)
Definition validate_DiffResponse (uuid4 : nat -> string) (k : nat)
  (d : Raw.Response) : option DiffResponse :=
  bind (bind (Raw.summary d) validate_DiffSummary) (fun s =>
  bind (validate_changes uuid4 k (from_option [] (Raw.changes d))) (fun cs =>
  Some (mkDiffResponse s cs))).

End Models.

(* ================================================================== *)
(** * SHA-256 ([hashlib.sha256]) and UTF-8 *)
(* ================================================================== *)

Module Sha256.

Definition w32 (x : Z) : Z := Z.land x 4294967295.

Definition add32 (x y : Z) : Z := w32 (x + y).

Definition rotr (n x : Z) : Z :=
  Z.lor (Z.shiftr x n) (w32 (Z.shiftl x (32 - n))).

Definition not32 (x : Z) : Z := Z.lxor x 4294967295.

Definition Ch (x y z : Z) : Z := Z.lxor (Z.land x y) (Z.land (not32 x) z).

Definition Maj (x y z : Z) : Z :=
  Z.lxor (Z.lxor (Z.land x y) (Z.land x z)) (Z.land y z).

Definition Sigma0 (x : Z) : Z := Z.lxor (Z.lxor (rotr 2 x) (rotr 13 x)) (rotr 22 x).
Definition Sigma1 (x : Z) : Z := Z.lxor (Z.lxor (rotr 6 x) (rotr 11 x)) (rotr 25 x).
Definition sigma0 (x : Z) : Z := Z.lxor (Z.lxor (rotr 7 x) (rotr 18 x)) (Z.shiftr x 3).
Definition sigma1 (x : Z) : Z := Z.lxor (Z.lxor (rotr 17 x) (rotr 19 x)) (Z.shiftr x 10).

(** The round constants: the first 32 bits of the fractional parts of the
    cube roots of the first 64 primes. *)
Definition K : list Z :=
  [
    1116352408; 1899447441; 3049323471; 3921009573; 961987163; 1508970993;
    2453635748; 2870763221; 3624381080; 310598401; 607225278; 1426881987;
    1925078388; 2162078206; 2614888103; 3248222580; 3835390401; 4022224774;
    264347078; 604807628; 770255983; 1249150122; 1555081692; 1996064986;
    2554220882; 2821834349; 2952996808; 3210313671; 3336571891; 3584528711;
    113926993; 338241895; 666307205; 773529912; 1294757372; 1396182291;
    1695183700; 1986661051; 2177026350; 2456956037; 2730485921; 2820302411;
    3259730800; 3345764771; 3516065817; 3600352804; 4094571909; 275423344;
    430227734; 506948616; 659060556; 883997877; 958139571; 1322822218;
    1537002063; 1747873779; 1955562222; 2024104815; 2227730452; 2361852424;
    2428436474; 2756734187; 3204031479; 3329325298
  ].

(** The initial hash value: from the square roots of the first 8 primes. *)
Definition H0 : list Z :=
  [
    1779033703; 3144134277; 1013904242; 2773480762; 1359893119; 2600822924;
    528734635; 1541459225
  ].

(** The message, then a 1 bit, zeros up to 56 modulo 64 bytes, and the
    length in bits on 8 bytes, most significant first. *)
Definition be_bytes (n : nat) (x : Z) : list Z :=
  map (fun i => Z.land (Z.shiftr x (8 * Z.of_nat i)) 255) (rev (seq 0 n)).

Definition pad (msg : list Z) : list Z :=
  let l := Z.of_nat (List.length msg) in
  let zeros := Z.to_nat ((55 - l) mod 64) in
  (msg ++ [128] ++ repeat 0 zeros ++ be_bytes 8 (8 * l))%list.

Definition be_word (b0 b1 b2 b3 : Z) : Z :=
  Z.lor (Z.shiftl b0 24) (Z.lor (Z.shiftl b1 16) (Z.lor (Z.shiftl b2 8) b3)).

(** The padded message as 32-bit words. *)
Fixpoint words (bytes : list Z) : list Z :=
  match bytes with
  | b0 :: b1 :: b2 :: b3 :: rest => be_word b0 b1 b2 b3 :: words rest
  | _ => []
  end.

(** The message schedule: [w] holds the last 16 words, oldest first. *)
Fixpoint schedule (n : nat) (w : list Z) : list Z :=
  match n with
  | O => []
  | S n' =>
      let x := add32 (add32 (sigma1 (nth 14 w 0)) (nth 9 w 0))
                     (add32 (sigma0 (nth 1 w 0)) (nth 0 w 0)) in
      x :: schedule n' (tl w ++ [x])%list
  end.

Record regs := mkRegs { ra : Z; rb : Z; rc : Z; rd : Z; re : Z; rf : Z; rg : Z; rh : Z }.

Definition round (s : regs) (kw : Z * Z) : regs :=
  let t1 := add32 (add32 (add32 (rh s) (Sigma1 (re s)))
                         (add32 (Ch (re s) (rf s) (rg s)) (fst kw))) (snd kw) in
  let t2 := add32 (Sigma0 (ra s)) (Maj (ra s) (rb s) (rc s)) in
  mkRegs (add32 t1 t2) (ra s) (rb s) (rc s) (add32 (rd s) t1) (re s) (rf s) (rg s).

Definition regs_of (h : list Z) : regs :=
  mkRegs (nth 0 h 0) (nth 1 h 0) (nth 2 h 0) (nth 3 h 0)
         (nth 4 h 0) (nth 5 h 0) (nth 6 h 0) (nth 7 h 0).

Definition list_of (s : regs) : list Z :=
  [ra s; rb s; rc s; rd s; re s; rf s; rg s; rh s].

(** One 16-word block folded into the hash value. *)
Definition compress (h : list Z) (block : list Z) : list Z :=
  let w := (block ++ schedule 48 block)%list in
  let s := fold_left round (combine K w) (regs_of h) in
  map (fun p => add32 (fst p) (snd p)) (combine h (list_of s)).

Fixpoint blocks (n : nat) (ws : list Z) : list (list Z) :=
  match n with
  | O => []
  | S n' =>
      match ws with
      | [] => []
      | _ => firstn 16 ws :: blocks n' (skipn 16 ws)
      end
  end.

Definition digest (msg : list Z) : list Z :=
  let ws := words (pad msg) in
  fold_left compress (blocks (List.length ws) ws) H0.

Definition hex_digit (d : Z) : ascii :=
  if d <? 10 then ascii_of_nat (Z.to_nat (48 + d))
  else ascii_of_nat (Z.to_nat (87 + d)).

Definition hex_word (x : Z) : string :=
  fold_right (fun i acc => String (hex_digit (Z.land (Z.shiftr x (4 * Z.of_nat i)) 15)) acc)
             "" (rev (seq 0 8)).

(** [str.encode('utf-8')] on the first 256 code points. *)
Fixpoint utf8 (s : string) : list Z :=
  match s with
  | EmptyString => []
  | String c s' =>
      let n := Z.of_nat (nat_of_ascii c) in
      if n <? 128 then n :: utf8 s'
      else (192 + Z.shiftr n 6) :: (128 + Z.land n 63) :: utf8 s'
  end.

(** [hashlib.sha256(s.encode('utf-8')).hexdigest()] *)
Definition hexdigest (s : string) : string :=
  fold_right (fun w acc => hex_word w ++ acc) "" (digest (utf8 s)).

End Sha256.

(* ================================================================== *)
(** * The response cache ([app/services/cache.py]) *)
(* ================================================================== *)

Module Cache.

(** A cache entry; times are in microseconds, the resolution of
    [datetime]. *)
Record Entry := mkEntry {
  data : Models.DiffResponse;
  expires_at : Z;
  created_at : Z
}.

(** A [dict] with [str] keys: the items in insertion order, a key at most
    once. *)
Definition dict := list (string * Entry).

Fixpoint dict_find (d : dict) (k : string) : option Entry :=
  match d with
  | [] => None
  | (k', e) :: d' => if (k' =? k)%string then Some e else dict_find d' k
  end.

(** [d[k] = e]: an existing key keeps its place. *)
Fixpoint dict_set (d : dict) (k : string) (e : Entry) : dict :=
  match d with
  | [] => [(k, e)]
  | (k', e') :: d' =>
      if (k' =? k)%string then (k, e) :: d' else (k', e') :: dict_set d' k e
  end.

(** [del d[k]] *)
Definition dict_del (d : dict) (k : string) : dict :=
  filter (fun p => negb (fst p =? k)%string) d.

Record ResponseCache := mkCache {
  _cache : dict;
  ttl_seconds : Z;
  max_size : Z;
  hits : Z;
  misses : Z
}.

Definition with_cache (c : ResponseCache) (d : dict) : ResponseCache :=
  mkCache d (ttl_seconds c) (max_size c) (hits c) (misses c).

Definition count_miss (c : ResponseCache) : ResponseCache :=
  mkCache (_cache c) (ttl_seconds c) (max_size c) (hits c) (misses c + 1).

Definition count_hit (c : ResponseCache) : ResponseCache :=
  mkCache (_cache c) (ttl_seconds c) (max_size c) (hits c + 1) (misses c).

(** [ResponseCache(ttl_seconds, max_size)] *)
Definition new (ttl max : Z) : ResponseCache := mkCache [] ttl max 0 0.

(** [get_cache()] on first use. *)
Definition global : ResponseCache := new 3600 1000.

(** The string that is hashed: the three inputs with a bar between them. *)
Definition cache_input (original_text generated_text sensitivity : string)
  : string :=
  original_text ++ "|" ++ generated_text ++ "|" ++ sensitivity.

Definition _generate_key (original_text generated_text sensitivity : string)
  : string :=
  Sha256.hexdigest (cache_input original_text generated_text sensitivity).

(** [get] at time [now]: the cached data, if any, and the cache after. *)
Definition get (c : ResponseCache) (now : Z)
  (original_text generated_text sensitivity : string)
  : option Models.DiffResponse * ResponseCache :=
  let cache_key := _generate_key original_text generated_text sensitivity in
  match dict_find (_cache c) cache_key with
  | None => (None, count_miss c)
  | Some entry =>
      if now >? expires_at entry
      then (None, count_miss (with_cache c (dict_del (_cache c) cache_key)))
      else (Some (data entry), count_hit c)
  end.

(** [sorted(items, key=created_at)]: stable, by insertion. *)
Fixpoint insert_sorted (x : string * Entry) (l : dict) : dict :=
  match l with
  | [] => [x]
  | y :: l' =>
      if created_at (snd x) <? created_at (snd y) then x :: l
      else y :: insert_sorted x l'
  end.

Definition sorted_by_created (d : dict) : dict :=
  fold_left (fun acc x => insert_sorted x acc) d [].

Definition _cleanup (c : ResponseCache) (now : Z) : ResponseCache :=
  let expired_keys :=
    map fst (filter (fun p => now >? expires_at (snd p)) (_cache c)) in
  let d := fold_left dict_del expired_keys (_cache c) in
  if Z.of_nat (List.length d) >=? max_size c then
    let sorted_entries := sorted_by_created d in
    let remove_count := Z.max 1 (Z.of_nat (List.length sorted_entries) / 5) in
    with_cache c
      (fold_left dict_del
         (map fst (firstn (Z.to_nat remove_count) sorted_entries)) d)
  else with_cache c d.

(** [set] at time [now]. *)
Definition set (c : ResponseCache) (now : Z)
  (original_text generated_text sensitivity : string)
  (response_data : Models.DiffResponse) : ResponseCache :=
  let c :=
    if Z.of_nat (List.length (_cache c)) >=? max_size c
    then _cleanup c now else c in
  let cache_key := _generate_key original_text generated_text sensitivity in
  let expires_at := now + ttl_seconds c * 1000000 in
  with_cache c (dict_set (_cache c) cache_key
                         (mkEntry response_data expires_at now)).

End Cache.

(* ================================================================== *)
(** * The engine ([app/services/diff_engine.py]) *)
(* ================================================================== *)

Module Engine.

(** ** Exceptions *)

(** An exception, by its most specific class. [APIError] stands for an
    [APIError] that is neither a time-out nor a rate limit, [OpenAIError]
    for one that is not an [APIError], [OtherException] for an [Exception]
    of no class named here. The text of a library's exception is not
    tracked. *)
Inductive exn :=
| RateLimitError
| APITimeoutError
| APIError
| OpenAIError
| JSONDecodeError
| ValidationError
| OtherException
| LLMResponseError (msg : string)
| LLMAPIError (msg : string).

(** The classes named in [except] clauses and in the retry policy. *)
Inductive exn_class :=
| cRateLimitError
| cAPITimeoutError
| cAPIError
| cOpenAIError
| cValidationError
| cLLMResponseError
| cLLMAPIError
| cException.

(** [isinstance(e, c)], along the class hierarchies of [openai], [pydantic]
    and this module ([DiffEngineError] derives from [Exception] only). *)
Definition isinstance (e : exn) (c : exn_class) : bool :=
  match c, e with
  | cException, _ => true
  | cRateLimitError, RateLimitError => true
  | cAPITimeoutError, APITimeoutError => true
  | cAPIError, (RateLimitError | APITimeoutError | APIError) => true
  | cOpenAIError, (RateLimitError | APITimeoutError | APIError | OpenAIError) => true
  | cValidationError, ValidationError => true
  | cLLMResponseError, LLMResponseError _ => true
  | cLLMAPIError, LLMAPIError _ => true
  | _, _ => false
  end.

(** [str(e)]; for an exception of a library the name of its class stands
    for its text. *)
Definition str (e : exn) : string :=
  match e with
  | LLMResponseError msg => msg
  | LLMAPIError msg => msg
  | RateLimitError => "RateLimitError"
  | APITimeoutError => "APITimeoutError"
  | APIError => "APIError"
  | OpenAIError => "OpenAIError"
  | JSONDecodeError => "JSONDecodeError"
  | ValidationError => "ValidationError"
  | OtherException => "Exception"
  end.

Inductive result (A : Type) :=
| Ok (a : A)
| Raise (e : exn).
Arguments Ok {A} a.
Arguments Raise {A} e.

(** ** Span reconciliation *)

(** [_validate_single_span]: the span after the call (it is corrected in
    place) and the pair [(is_valid, was_corrected)]. *)
Definition _validate_single_span (span : Raw.Span) (source_text : string)
  : Raw.Span * (bool * bool) :=
  let text := Models.from_option "" (Raw.text span) in
  let context_before := Models.from_option "" (Raw.context_before span) in
  let context_after := Models.from_option "" (Raw.context_after span) in
  match Raw.start span, Raw.end_ span with
  | Some start, Some end_ =>
      if negb (Py.truthy text) then (span, (true, false))
      else
      (* Phase 1: exact match check *)
      let actual_text := Py.slice source_text start end_ in
      if (actual_text =? text)%string then (span, (true, false))
      else
      (* Phase 2: context fingerprint matching *)
      let fingerprint := context_before ++ text ++ context_after in
      let found_index := Py.find source_text fingerprint in
      if ((Py.truthy context_before || Py.truthy context_after)
          && negb (found_index =? -1))%bool
      then
        let new_start := found_index + Py.len context_before in
        let new_end := new_start + Py.len text in
        (Raw.set_offsets span new_start new_end, (true, true))
      else
      (* Phase 3: proximity search *)
      let search_start := Z.max 0 (start - 50) in
      let search_end := Z.min (Py.len source_text) (end_ + 50) in
      let search_region := Py.slice source_text search_start search_end in
      let local_index := Py.find search_region text in
      if negb (local_index =? -1) then
        let new_start := search_start + local_index in
        let new_end := new_start + Py.len text in
        (Raw.set_offsets span new_start new_end, (true, true))
      else
      (* Phase 4: global fallback *)
      let global_index := Py.find source_text text in
      if negb (global_index =? -1) then
        (Raw.set_offsets span global_index (global_index + Py.len text),
         (true, true))
      else (span, (false, false))
  | _, _ => (span, (true, false))
  end.

(** The state of the loop of [_validate_and_fix_spans]. *)
Record fix_state := mkFix {
  valid_changes : list Raw.Change;
  removed_count : Z;
  corrected_count : Z
}.

Definition count (b : bool) : Z := if b then 1 else 0.

(** One side of a change: the span is validated when the key is there and
    its dictionary is not empty. Gives the span after the call and
    [(is_valid, corrected)]. *)
Definition check_side (side : option Raw.Span) (source_text : string)
  : option Raw.Span * (bool * bool) :=
  match side with
  | Some sp =>
      if Raw.span_truthy sp then
        let '(sp', flags) := _validate_single_span sp source_text in
        (Some sp', flags)
      else (side, (true, false))
  | None => (None, (true, false))
  end.

Definition with_spans (c : Raw.Change) (o g : option Raw.Span) : Raw.Change :=
  Raw.mkChange (Raw.id c) (Raw.type c) (Raw.severity c) (Raw.description c)
               o g (Raw.reasoning c).

(** The body of the loop over [response_data["changes"]]. *)
Definition fix_step (original_text generated_text : string)
  (st : fix_state) (change : Raw.Change) : fix_state :=
  let '(o, (is_valid, corrected)) :=
    check_side (Raw.original_span change) original_text in
  let st := mkFix (valid_changes st)
                  (removed_count st + count (negb is_valid))
                  (corrected_count st + count corrected) in
  if is_valid then
    let '(g, (is_valid, corrected)) :=
      check_side (Raw.generated_span change) generated_text in
    let st := mkFix (valid_changes st)
                    (removed_count st + count (negb is_valid))
                    (corrected_count st + count corrected) in
    if is_valid
    then mkFix (valid_changes st ++ [with_spans change o g])%list
               (removed_count st) (corrected_count st)
    else st
  else st.

Definition fix_loop (original_text generated_text : string)
  (l : list Raw.Change) : fix_state :=
  fold_left (fix_step original_text generated_text) l (mkFix [] 0 0).

Definition _validate_and_fix_spans (response_data : Raw.Response)
  (original_text generated_text : string) : Raw.Response :=
  match Raw.changes response_data with
  | None => response_data
  | Some l =>
      Raw.set_changes response_data
        (valid_changes (fix_loop original_text generated_text l))
  end.

(** ** Validation and the consistency check *)

(** The loop that gives an id to the changes that have none; [k] counts
    the calls to [uuid4]. *)
Fixpoint assign_ids (uuid4 : nat -> string) (k : nat) (l : list Raw.Change)
  : list Raw.Change * nat :=
  match l with
  | [] => ([], k)
  | change :: l' =>
      let missing :=
        match Raw.id change with
        | None => true
        | Some i => negb (Raw.id_truthy i)
        end in
      if missing then
        let '(r, k') := assign_ids uuid4 (S k) l' in
        (Raw.set_id change (Raw.WellFormed (uuid4 k)) :: r, k')
      else
        let '(r, k') := assign_ids uuid4 k l' in
        (change :: r, k')
  end.

Definition is_critical (change : Models.ChangeItem) : bool :=
  (ChangeSeverity.value (Models.severity change) =? "critical")%string.

Definition set_is_safe (r : Models.DiffResponse) (b : bool)
  : Models.DiffResponse :=
  Models.mkDiffResponse
    (Models.mkDiffSummary b (Models.risk_score (Models.summary r))
       (Models.semantic_change_level (Models.summary r)))
    (Models.changes r).

Definition _validate_and_build_response (uuid4 : nat -> string)
  (response_data : Raw.Response) : result Models.DiffResponse :=
  let '(response_data, k) :=
    match Raw.changes response_data with
    | Some l =>
        let '(l', k) := assign_ids uuid4 0 l in
        (Raw.set_changes response_data l', k)
    | None => (response_data, 0%nat)
    end in
  match Models.validate_DiffResponse uuid4 k response_data with
  | None => Raise (LLMResponseError "Invalid response structure")
  | Some diff_response =>
      let has_critical_changes :=
        existsb is_critical (Models.changes diff_response) in
      let high_risk :=
        Models.risk_score (Models.summary diff_response) >? 40 in
      if (has_critical_changes || high_risk)%bool then
        if Models.is_safe (Models.summary diff_response)
        then Ok (set_is_safe diff_response false)
        else Ok diff_response
      else Ok diff_response
  end.

(** ** Chunking *)

(** The state of the loop of [_split_into_chunks]. *)
Record split_state := mkSplit {
  chunks : list string;
  current_chunk : list string;
  current_length : Z
}.

Definition nonempty {A : Type} (l : list A) : bool :=
  match l with [] => false | _ => true end.

Definition split_step (max_chunk_size : Z) (st : split_state) (para : string)
  : split_state :=
  let para_length := Py.len para in
  if ((current_length st + para_length >? max_chunk_size)
      && nonempty (current_chunk st))%bool
  then mkSplit (chunks st ++ [Py.join Py.nlnl (current_chunk st)])%list
               [para] para_length
  else mkSplit (chunks st) (current_chunk st ++ [para])%list
               (current_length st + para_length + 2).

Definition _split_into_chunks (text : string) (max_chunk_size : Z)
  : list string :=
  if Py.len text <=? max_chunk_size then [text]
  else
    let paragraphs := Py.split_nlnl text in
    let st := fold_left (split_step max_chunk_size) paragraphs
                        (mkSplit [] [] 0) in
    if nonempty (current_chunk st)
    then (chunks st ++ [Py.join Py.nlnl (current_chunk st)])%list
    else chunks st.

(** ** Merging *)

(** The list [offsets] of [_merge_chunk_results]. *)
Definition chunk_offsets (original_chunks : list string) : list Z :=
  fold_left (fun offsets chunk =>
               (offsets ++ [last offsets 0 + Py.len chunk + 2])%list)
            (removelast original_chunks) [0].

Definition shift_span (offset : Z) (sp : Models.TextSpan) : Models.TextSpan :=
  Models.mkTextSpan (Models.text sp)
                    (Models.start sp + offset) (Models.end_ sp + offset)
                    (Models.context_before sp) (Models.context_after sp).

Definition shift_change (offset : Z) (change : Models.ChangeItem)
  : Models.ChangeItem :=
  Models.mkChangeItem (Models.id change) (Models.type change)
    (Models.severity change) (Models.description change)
    (shift_span offset (Models.original_span change))
    (shift_span offset (Models.generated_span change))
    (Models.reasoning change).

Record merge_state := mkMerge {
  all_changes : list Models.ChangeItem;
  total_risk_score : Z;
  max_change_level : SemanticChangeLevel.t
}.

(** The body of the loop over [enumerate(chunk_results)]. *)
Definition merge_step (offsets : list Z) (st : merge_state)
  (item : nat * result Models.DiffResponse) : merge_state :=
  let '(chunk_idx, result) := item in
  match result with
  | Raise _ => st
  | Ok result =>
      let offset :=
        if (chunk_idx <? List.length offsets)%nat
        then nth chunk_idx offsets 0 else 0 in
      let level := Models.semantic_change_level (Models.summary result) in
      mkMerge
        (all_changes st ++ map (shift_change offset) (Models.changes result))%list
        (total_risk_score st + Models.risk_score (Models.summary result))
        (if Py.gt (SemanticChangeLevel.value level)
                  (SemanticChangeLevel.value (max_change_level st))
         then level else max_change_level st)
  end.

Definition is_ok {A : Type} (r : result A) : bool :=
  match r with Ok _ => true | Raise _ => false end.

Definition enumerate {A : Type} (l : list A) : list (nat * A) :=
  combine (seq 0 (List.length l)) l.

(** [chunk_results] holds what [gather] returned for each task, a
    response or an exception. The responses are validated ones (risk
    scores in 0..100), so the constructor of the merged summary accepts
    the average. *)
Definition _merge_chunk_results
  (chunk_results : list (result Models.DiffResponse))
  (original_chunks : list string) : Models.DiffResponse :=
  let offsets := chunk_offsets original_chunks in
  let st := fold_left (merge_step offsets) (enumerate chunk_results)
                      (mkMerge [] 0 SemanticChangeLevel.NONE) in
  let valid_chunks := Z.of_nat (List.length (filter is_ok chunk_results)) in
  let avg_risk_score :=
    if valid_chunks >? 0 then total_risk_score st / valid_chunks else 0 in
  let has_critical := existsb is_critical (all_changes st) in
  let is_safe := ((avg_risk_score <=? 40) && negb has_critical)%bool in
  Models.mkDiffResponse
    (Models.mkDiffSummary is_safe (Z.min 100 avg_risk_score)
                          (max_change_level st))
    (all_changes st).

(** ** The oracle *)

(** What [json.loads] makes of the content of a reply. *)
Inductive content :=
| NoContent
| NotJson
| Json (response_data : Raw.Response).

(** One attempt of a call to the oracle. *)
Inductive attempt :=
| Fails (e : exn)
| Replies (raw_content : content).

(** What a call sends: the prompts are made of the first three fields. *)
Record Call := mkCall {
  call_original : string;
  call_generated : string;
  call_sensitivity : SensitivityLevel.t;
  call_model : string
}.

(** The world around one comparison: what the oracle answers to the
    attempts of each task, what [uuid4] returns in each task, the ratio
    [SequenceMatcher] finds between the two texts of the request, the
    time at the lookup and at the stores, and, for the tasks that run
    together, the rank at which the call of each task ends. *)
Record Env := mkEnv {
  oracle : Call -> nat -> nat -> attempt;
  uuid4 : nat -> nat -> string;
  similarity_ratio : Q;
  t_lookup : Z;
  t_store : Z;
  arrival : nat -> nat
}.

Definition retryable (e : exn) : bool :=
  (isinstance e cAPITimeoutError || isinstance e cRateLimitError
   || isinstance e cAPIError)%bool.

(** The attempts of one call under the retry policy: attempt [k] now,
    [more] further ones allowed. Gives the outcome and the number of
    invocations of the oracle. *)
Fixpoint retry_loop (o : nat -> attempt) (more k : nat) : attempt * nat :=
  match o k with
  | Replies raw_content => (Replies raw_content, S k)
  | Fails e =>
      match more with
      | O => (Fails e, S k)
      | S more' =>
          if retryable e then retry_loop o more' (S k) else (Fails e, S k)
      end
  end.

(** [stop_after_attempt(3)], [reraise=True]. *)
Definition _call_llm_with_retry (o : nat -> attempt) : attempt * nat :=
  retry_loop o 2 0.

(** ** Orchestration *)

Record Settings := mkSettings {
  DEFAULT_LLM_MODEL : string;
  PREMIUM_LLM_MODEL : string;
  SHORT_CIRCUIT_THRESHOLD : Q
}.

(** The defaults of [backend/app/config.py]. The threshold and the ratio are
    floats in the code, 0.96 and [2.0 * M / T] with [T] the sum of the two
    lengths, at most 100000: two such fractions that differ are more than
    a rounding error apart, so the floats compare as the fractions do. *)
Definition settings : Settings := mkSettings "gpt-4o-mini" "gpt-4o" (96 # 100).

(** The result of the short-circuit, and of a chunk that failed. *)
Definition neutral : Models.DiffResponse :=
  Models.mkDiffResponse
    (Models.mkDiffSummary true 0 SemanticChangeLevel.NONE) [].

(** The constructor [CompareRequest] with its bounds on the two texts. *)
Definition new_CompareRequest (original_text generated_text : string)
  (sensitivity : SensitivityLevel.t) : result Models.CompareRequest :=
  if ((1 <=? Py.len original_text) && (Py.len original_text <=? 50000)
      && (1 <=? Py.len generated_text) && (Py.len generated_text <=? 50000))%bool
  then Ok (Models.mkCompareRequest original_text generated_text sensitivity false)
  else Raise ValidationError.

Definition call_of (request : Models.CompareRequest) (model : string) : Call :=
  mkCall (Models.original_text request) (Models.generated_text request)
         (Models.sensitivity request) model.

Definition cache_get (c : Cache.ResponseCache) (now : Z)
  (request : Models.CompareRequest) :=
  Cache.get c now (Models.original_text request)
            (Models.generated_text request)
            (SensitivityLevel.value (Models.sensitivity request)).

Definition cache_set (c : Cache.ResponseCache) (now : Z)
  (request : Models.CompareRequest) (response : Models.DiffResponse) :=
  Cache.set c now (Models.original_text request)
            (Models.generated_text request)
            (SensitivityLevel.value (Models.sensitivity request)) response.

(** What follows the call to the oracle, in [analyze_diff] and in
    [_analyze_single_chunk] alike but for the exceptions raised for a
    reply without content ([on_empty]) and for a content that is not JSON
    ([on_not_json]). *)
Definition process_reply (env : Env) (task : nat) (on_empty on_not_json : exn)
  (c : Cache.ResponseCache) (request : Models.CompareRequest)
  (outcome : attempt) : result Models.DiffResponse * Cache.ResponseCache :=
  match outcome with
  | Fails e => (Raise e, c)
  | Replies NoContent => (Raise on_empty, c)
  | Replies NotJson => (Raise on_not_json, c)
  | Replies (Json response_data) =>
      let response_data :=
        _validate_and_fix_spans response_data
          (Models.original_text request) (Models.generated_text request) in
      match _validate_and_build_response (uuid4 env task) response_data with
      | Raise e => (Raise e, c)
      | Ok diff_response =>
          (Ok diff_response, cache_set c (t_store env) request diff_response)
      end
  end.

(** [_analyze_single_chunk] is a coroutine: it runs up to the call of
    the oracle, where it waits, and goes on when the call has returned or
    raised. This is what it does from there, on the cache as it is then:
    the chunk's response and the cache after. Every exception of the
    body, that of the call included, ends in the neutral response. *)
Definition chunk_finish (env : Env) (c : Cache.ResponseCache)
  (chunk_request : Models.CompareRequest) (chunk_index : nat)
  (outcome : attempt) : Models.DiffResponse * Cache.ResponseCache :=
  match process_reply env chunk_index
          (LLMResponseError
             ("Empty response for chunk "
              ++ NilEmpty.string_of_uint (Nat.to_uint chunk_index)))
          JSONDecodeError c chunk_request outcome with
  | (Ok diff_response, c) => (diff_response, c)
  | (Raise _, c) => (neutral, c)
  end.

(** [_analyze_single_chunk] when nothing else touches the cache while it
    waits: the chunk's response, the cache after, and the number of
    invocations of the oracle. *)
Definition _analyze_single_chunk (env : Env) (c : Cache.ResponseCache)
  (chunk_request : Models.CompareRequest) (chunk_index : nat) (model : string)
  : Models.DiffResponse * Cache.ResponseCache * nat :=
  let '(cached, c) := cache_get c (t_lookup env) chunk_request in
  match cached with
  | Some cached => (cached, c, 0%nat)
  | None =>
      let '(outcome, n) :=
        _call_llm_with_retry (oracle env (call_of chunk_request model) chunk_index) in
      let '(diff_response, c) :=
        chunk_finish env c chunk_request chunk_index outcome in
      (diff_response, c, n)
  end.

(** The loop that makes the tasks: a pair of empty chunks is passed over,
    and a chunk request is built for every other pair. *)
Fixpoint make_tasks (sensitivity : SensitivityLevel.t)
  (pairs : list (nat * (string * string)))
  : result (list (Models.CompareRequest * nat)) :=
  match pairs with
  | [] => Ok []
  | (i, (orig_chunk, gen_chunk)) :: rest =>
      if (negb (Py.truthy orig_chunk) && negb (Py.truthy gen_chunk))%bool
      then make_tasks sensitivity rest
      else
        match new_CompareRequest orig_chunk gen_chunk sensitivity with
        | Raise e => Raise e
        | Ok chunk_request =>
            match make_tasks sensitivity rest with
            | Raise e => Raise e
            | Ok tasks => Ok ((chunk_request, i) :: tasks)
            end
        end
  end.

(** A task of [asyncio.gather] after its first run: it has returned the
    response found in the cache, or it waits for its call, which will
    give [outcome]. *)
Inductive started :=
| Returned (cached : Models.DiffResponse)
| Waits (chunk_request : Models.CompareRequest) (chunk_index : nat)
        (outcome : attempt).

(** The event loop starts the tasks in the order of the list and runs
    each until it returns or waits: every lookup in the cache is made
    before any call ends, so before any store. With the tasks after
    their first run, the cache after the lookups and the number of
    invocations of the oracle that the calls will have made. *)
Fixpoint start_tasks (env : Env) (model : string)
  (tasks : list (Models.CompareRequest * nat)) (c : Cache.ResponseCache)
  : list started * Cache.ResponseCache * nat :=
  match tasks with
  | [] => ([], c, 0%nat)
  | (chunk_request, chunk_index) :: rest =>
      let '(cached, c) := cache_get c (t_lookup env) chunk_request in
      let '(task, n) :=
        match cached with
        | Some cached => (Returned cached, 0%nat)
        | None =>
            let '(outcome, n) :=
              _call_llm_with_retry
                (oracle env (call_of chunk_request model) chunk_index) in
            (Waits chunk_request chunk_index outcome, n)
        end in
      let '(others, c, m) := start_tasks env model rest c in
      (task :: others, c, (n + m)%nat)
  end.

(** A task that waits, with its position in the list of tasks. *)
Definition waiting : Type :=
  (nat * (Models.CompareRequest * nat * attempt))%type.

Fixpoint waiting_from (position : nat) (tasks : list started) : list waiting :=
  match tasks with
  | [] => []
  | Returned _ :: rest => waiting_from (S position) rest
  | Waits chunk_request chunk_index outcome :: rest =>
      (position, (chunk_request, chunk_index, outcome))
      :: waiting_from (S position) rest
  end.

(** The tasks that wait go on in the order in which their calls end: by
    the rank of their chunk index, and in the order of the list among
    tasks of one rank. *)
Fixpoint insert_by_arrival (env : Env) (x : waiting) (l : list waiting)
  : list waiting :=
  match l with
  | [] => [x]
  | y :: l' =>
      if (arrival env (snd (fst (snd x))) <? arrival env (snd (fst (snd y))))%nat
      then x :: l
      else y :: insert_by_arrival env x l'
  end.

Definition by_arrival (env : Env) (l : list waiting) : list waiting :=
  fold_left (fun acc x => insert_by_arrival env x acc) l [].

(** Each of them runs from the end of its call to its return without
    waiting again: the stores are made one task after the other. *)
Fixpoint finish_tasks (env : Env) (order : list waiting)
  (c : Cache.ResponseCache)
  : list (nat * Models.DiffResponse) * Cache.ResponseCache :=
  match order with
  | [] => ([], c)
  | (position, (chunk_request, chunk_index, outcome)) :: rest =>
      let '(diff_response, c) :=
        chunk_finish env c chunk_request chunk_index outcome in
      let '(finished, c) := finish_tasks env rest c in
      ((position, diff_response) :: finished, c)
  end.

(** The response of the task at a position, among those that waited. *)
Fixpoint result_at (position : nat)
  (finished : list (nat * Models.DiffResponse)) : Models.DiffResponse :=
  match finished with
  | [] => neutral
  | (p, diff_response) :: rest =>
      if (p =? position)%nat then diff_response else result_at position rest
  end.

Fixpoint results_from (position : nat) (tasks : list started)
  (finished : list (nat * Models.DiffResponse)) : list Models.DiffResponse :=
  match tasks with
  | [] => []
  | Returned cached :: rest =>
      cached :: results_from (S position) rest finished
  | Waits _ _ _ :: rest =>
      result_at position finished :: results_from (S position) rest finished
  end.

(** [asyncio.gather] over the tasks of [_analyze_with_chunking]: the
    responses in the order of the tasks, the cache after, and the number
    of invocations of the oracle. *)
Definition gather (env : Env) (model : string)
  (tasks : list (Models.CompareRequest * nat)) (c : Cache.ResponseCache)
  : list Models.DiffResponse * Cache.ResponseCache * nat :=
  let '(started_tasks, c, n) := start_tasks env model tasks c in
  let '(finished, c) :=
    finish_tasks env (by_arrival env (waiting_from 0 started_tasks)) c in
  (results_from 0 started_tasks finished, c, n).

Definition pad_chunks (n : nat) (l : list string) : list string :=
  (l ++ repeat "" (n - List.length l))%list.

Definition _analyze_with_chunking (env : Env) (c : Cache.ResponseCache)
  (request : Models.CompareRequest) (model : string)
  : result Models.DiffResponse * Cache.ResponseCache * nat :=
  let original_chunks := _split_into_chunks (Models.original_text request) 3000 in
  let generated_chunks := _split_into_chunks (Models.generated_text request) 3000 in
  let max_chunks := Nat.max (List.length original_chunks)
                            (List.length generated_chunks) in
  let original_chunks := pad_chunks max_chunks original_chunks in
  let generated_chunks := pad_chunks max_chunks generated_chunks in
  match make_tasks (Models.sensitivity request)
                   (enumerate (combine original_chunks generated_chunks)) with
  | Raise e => (Raise e, c, 0%nat)
  | Ok tasks =>
      let '(chunk_results, c, n) := gather env model tasks c in
      let merged_response :=
        _merge_chunk_results (map Ok chunk_results) original_chunks in
      (Ok merged_response, cache_set c (t_store env) request merged_response, n)
  end.

(** The [except] clauses of [analyze_diff], in their order. *)
Definition except_clauses (e : exn) : exn :=
  if isinstance e cRateLimitError
  then LLMAPIError "Rate limit exceeded. Please try again later."
  else if isinstance e cAPITimeoutError
  then LLMAPIError "Request timed out. Please try again."
  else if isinstance e cAPIError then LLMAPIError ("API error: " ++ str e)
  else if isinstance e cOpenAIError
  then LLMAPIError ("OpenAI client error: " ++ str e)
  else (* except Exception *) LLMAPIError ("Unexpected error: " ++ str e).

Definition CHUNK_THRESHOLD : Z := 4000.

(** [analyze_diff]: the response or the exception that reaches the
    caller, the cache after, and the number of invocations of the
    oracle. *)
Definition analyze_diff (cfg : Settings) (env : Env) (c : Cache.ResponseCache)
  (request : Models.CompareRequest)
  : result Models.DiffResponse * Cache.ResponseCache * nat :=
  let selected_model :=
    if Models.premium_mode request
    then PREMIUM_LLM_MODEL cfg else DEFAULT_LLM_MODEL cfg in
  let '(cached_response, c) := cache_get c (t_lookup env) request in
  match cached_response with
  | Some cached => (Ok cached, c, 0%nat)
  | None =>
      if negb (Qle_bool (similarity_ratio env) (SHORT_CIRCUIT_THRESHOLD cfg))
      then (Ok neutral, cache_set c (t_store env) request neutral, 0%nat)
      else
      let original_length := Py.len (Models.original_text request) in
      let generated_length := Py.len (Models.generated_text request) in
      if ((original_length >? CHUNK_THRESHOLD)
          || (generated_length >? CHUNK_THRESHOLD))%bool
      then _analyze_with_chunking env c request selected_model
      else
        (* try: *)
        let '(outcome, n) :=
          _call_llm_with_retry (oracle env (call_of request selected_model) 0%nat) in
        match process_reply env 0%nat
                (LLMResponseError "LLM returned empty response")
                (LLMResponseError "Invalid JSON from LLM")
                c request outcome with
        | (Ok diff_response, c) => (Ok diff_response, c, n)
        (* except ...: *)
        | (Raise e, c) => (Raise (except_clauses e), c, n)
        end
  end.

(** ** The caller ([backend/main.py], the [except] clauses of the endpoint) *)

(** The ["type"] of the error document sent for an exception of
    [analyze_diff]. *)
Definition error_type (e : exn) : string :=
  if isinstance e cLLMAPIError then "llm_api_error"
  else if isinstance e cLLMResponseError then "llm_response_error"
  else "internal_error".

End Engine.

(* ================================================================== *)
(** * The endpoint ([backend/main.py]) *)
(* ================================================================== *)

Module Endpoint.

(** [sub in s] on strings. *)
Definition contains (sub s : string) : bool := negb (Py.find s sub =? -1).

(** The status code [compare_texts] answers with when [analyze_diff]
    raises: the [except] clauses of the endpoint, in their order. *)
Definition status_code (e : Engine.exn) : Z :=
  if Engine.isinstance e Engine.cLLMAPIError then
    let error_message := Py.lower (Engine.str e) in
    if contains "rate limit" error_message then 503
    else if contains "timeout" error_message then 504
    else 502
  else if Engine.isinstance e Engine.cLLMResponseError then 500
  else (* except Exception *) 500.

End Endpoint.

(* ================================================================== *)
(** * Text utilities ([app/utils/text_processing.py]) *)
(* ================================================================== *)

Module TextSanitizer.

(** [get_context]: what stands before and after [text[start:end]], at
    most [context_chars] characters on each side. *)
Definition get_context (text : string) (start end_ context_chars : Z)
  : string * string :=
  let context_before := Py.slice text (Z.max 0 (start - context_chars)) start in
  let context_after :=
    Py.slice text end_ (Z.min (Py.len text) (end_ + context_chars)) in
  (context_before, context_after).

End TextSanitizer.

(* ================================================================== *)
(** * Properties *)
(* ================================================================== *)

(** ** Strings *)

Lemma append_nil_r (s : string) : s ++ "" = s.
Proof. induction s as [|c s IH]; simpl; [reflexivity | now rewrite IH]. Qed.

Lemma append_assoc (a b c : string) : (a ++ b) ++ c = a ++ (b ++ c).
Proof. induction a as [|x a IH]; simpl; [reflexivity | now rewrite IH]. Qed.

Lemma length_append (a b : string) :
  String.length (a ++ b) = (String.length a + String.length b)%nat.
Proof. induction a as [|x a IH]; simpl; [reflexivity | now rewrite IH]. Qed.

(** Induction that steps over two characters at a time, as [split_nlnl]
    does. *)
Lemma string_ind2 (P : string -> Prop) :
  P "" ->
  (forall c, P (String c "")) ->
  (forall c c' s, P s -> P (String c' s) -> P (String c (String c' s))) ->
  forall s, P s.
Proof.
  intros H0 H1 H2 s.
  assert (H : P s /\ forall c, P (String c s)).
  { induction s as [|c' s [IHa IHb]].
    - split; [exact H0 | exact H1].
    - split; [apply IHb | intro c; apply H2; [exact IHa | apply IHb]]. }
  exact (proj1 H).
Qed.

(** ** Splitting and joining *)

Arguments Py.join : simpl never.

Lemma join_cons (sep x : string) (l : list string) :
  l <> [] -> Py.join sep (x :: l) = x ++ sep ++ Py.join sep l.
Proof. destruct l; [congruence | reflexivity]. Qed.

Lemma join_snoc (sep x : string) (l : list string) :
  l <> [] -> Py.join sep (l ++ [x]) = Py.join sep l ++ sep ++ x.
Proof.
  induction l as [|y l IH]; [congruence|]; intros _.
  destruct l as [|z l].
  - reflexivity.
  - change ((y :: z :: l) ++ [x])%list with (y :: ((z :: l) ++ [x]))%list.
    rewrite join_cons by (simpl; congruence).
    rewrite IH by congruence.
    rewrite (join_cons sep y (l:=z :: l)) by congruence.
    now rewrite !append_assoc.
Qed.

(** Growing the last piece of a list grows its join. *)
Lemma join_last_grows (sep x y : string) (l : list string) :
  Py.join sep (l ++ [x ++ y]) = Py.join sep (l ++ [x]) ++ y.
Proof.
  destruct l as [|z l]; [reflexivity|].
  rewrite !join_snoc by congruence.
  now rewrite !append_assoc.
Qed.

Lemma split_nlnl_nonempty (s : string) : Py.split_nlnl s <> [].
Proof.
  destruct s as [|c [|c' s]]; simpl; try congruence.
  destruct (Ascii.eqb c Py.nl && Ascii.eqb c' Py.nl)%bool; [congruence|].
  unfold Py.cons_first.
  destruct (match s with EmptyString => _ | String _ _ => _ end); congruence.
Qed.

Lemma join_cons_first (sep : string) (c : ascii) (l : list string) :
  l <> [] -> Py.join sep (Py.cons_first c l) = String c (Py.join sep l).
Proof.
  destruct l as [|p [|q l]]; [congruence | reflexivity | reflexivity].
Qed.

(** [sep.join(s.split(sep)) == s] for the paragraph separator. *)
Lemma join_split_nlnl (s : string) : Py.join Py.nlnl (Py.split_nlnl s) = s.
Proof.
  induction s as [|c|c c' s IH0 IH1] using string_ind2; try reflexivity.
  change (Py.split_nlnl (String c (String c' s)))
    with (if (Ascii.eqb c Py.nl && Ascii.eqb c' Py.nl)%bool
          then "" :: Py.split_nlnl s
          else Py.cons_first c (Py.split_nlnl (String c' s))).
  destruct (Ascii.eqb c Py.nl) eqn:Ec; destruct (Ascii.eqb c' Py.nl) eqn:Ec';
    simpl andb; cbv iota;
    try (rewrite join_cons_first by apply split_nlnl_nonempty; now rewrite IH1).
  apply Ascii.eqb_eq in Ec, Ec'; subst c c'.
  rewrite join_cons by apply split_nlnl_nonempty.
  now rewrite IH0.
Qed.

(** What the loop of [_split_into_chunks] would return if it stopped in
    state [st]. *)
Definition flushed (st : Engine.split_state) : list string :=
  if Engine.nonempty (Engine.current_chunk st)
  then (Engine.chunks st ++ [Py.join Py.nlnl (Engine.current_chunk st)])%list
  else Engine.chunks st.

(** The invariant of the loop after the paragraphs [seen]: the chunks so
    far join to what the paragraphs join to, and there is a current chunk
    as soon as a paragraph was seen. *)
Definition split_inv (st : Engine.split_state) (seen : list string) : Prop :=
  Py.join Py.nlnl (flushed st) = Py.join Py.nlnl seen
  /\ (Engine.current_chunk st = [] -> Engine.chunks st = [] /\ seen = [])
  /\ (Engine.current_chunk st <> [] -> seen <> []).

Lemma nonempty_true {A : Type} (l : list A) : Engine.nonempty l = true <-> l <> [].
Proof. destruct l; simpl; split; congruence. Qed.

Lemma split_step_inv (max_chunk_size : Z) (st : Engine.split_state)
  (seen : list string) (para : string) :
  split_inv st seen ->
  split_inv (Engine.split_step max_chunk_size st para) (seen ++ [para]).
Proof.
  intros (J & E & N). unfold Engine.split_step, split_inv, flushed in *.
  destruct (Engine.current_chunk st) as [|p cur] eqn:Hcur.
  - (* the first paragraph *)
    destruct (E eq_refl) as [Hch ->]. rewrite Hch.
    rewrite andb_false_r. simpl. repeat split; congruence.
  - assert (Hseen : seen <> []) by (apply N; congruence).
    simpl in J. simpl Engine.nonempty. rewrite andb_true_r.
    destruct (Engine.current_length st + Py.len para >? max_chunk_size); simpl.
    + (* the current chunk is closed *)
      repeat split; try congruence.
      * rewrite join_snoc by (destruct (Engine.chunks st); simpl; congruence).
        rewrite J. now rewrite join_snoc by assumption.
      * intros _. destruct seen; simpl; congruence.
    + (* the paragraph joins the current chunk *)
      repeat split; try congruence.
      * change (p :: (cur ++ [para]))%list with ((p :: cur) ++ [para])%list.
        rewrite (join_snoc Py.nlnl para (l:=p :: cur)) by congruence.
        rewrite join_last_grows, J.
        now rewrite join_snoc by assumption.
      * intros _. destruct seen; simpl; congruence.
Qed.

Lemma split_loop_inv (max_chunk_size : Z) (paragraphs seen : list string)
  (st : Engine.split_state) :
  split_inv st seen ->
  split_inv (fold_left (Engine.split_step max_chunk_size) paragraphs st)
            (seen ++ paragraphs).
Proof.
  revert seen st.
  induction paragraphs as [|para ps IH]; intros seen st H; simpl.
  - now rewrite app_nil_r.
  - replace (seen ++ para :: ps)%list with ((seen ++ [para]) ++ ps)%list
      by now rewrite <- app_assoc.
    apply IH. now apply split_step_inv.
Qed.

(** C10. For every text and every chunk size, joining the chunks that
    [_split_into_chunks] returns with the paragraph separator gives the
    text back: the split loses nothing, and takes exactly one separator
    at each boundary between two chunks. *)
Theorem split_into_chunks_join (text : string) (max_chunk_size : Z) :
  Py.join Py.nlnl (Engine._split_into_chunks text max_chunk_size) = text.
Proof.
  unfold Engine._split_into_chunks.
  destruct (Py.len text <=? max_chunk_size); [reflexivity|].
  pose proof (@split_loop_inv max_chunk_size (Py.split_nlnl text) []
                (Engine.mkSplit [] [] 0)) as H.
  destruct H as (J & _ & _).
  { unfold split_inv, flushed; simpl. repeat split; congruence. }
  unfold flushed in J. simpl app in J.
  rewrite J. apply join_split_nlnl.
Qed.

(** ** Searching *)

(** [sub] occurs in [s] at index [i]. *)
Definition occurs_at (s sub : string) (i : Z) : Prop :=
  exists pre post, s = pre ++ sub ++ post /\ Py.len pre = i.

(** [i] is the lowest index at which [sub] occurs in [s]. *)
Definition first_occurrence (s sub : string) (i : Z) : Prop :=
  occurs_at s sub i /\ forall j, occurs_at s sub j -> i <= j.

Lemma prefix_iff (sub s : string) :
  prefix sub s = true <-> exists post, s = sub ++ post.
Proof.
  revert s. induction sub as [|a sub IH]; intros s.
  - destruct s; simpl; split; eauto.
  - destruct s as [|b s]; simpl.
    + split; [discriminate | intros [post H]; discriminate].
    + destruct (ascii_dec a b) as [->|Hab].
      * rewrite IH. split; intros [post H]; exists post; congruence.
      * split; [discriminate | intros [post H]; congruence].
Qed.

Lemma occurs_at_0 (s sub : string) : occurs_at s sub 0 <-> prefix sub s = true.
Proof.
  rewrite prefix_iff. unfold occurs_at, Py.len. split.
  - intros (pre & post & -> & Hl). destruct pre; [|simpl in Hl; lia].
    now exists post.
  - intros [post ->]. now exists "", post.
Qed.

Lemma occurs_at_nonneg (s sub : string) (i : Z) : occurs_at s sub i -> 0 <= i.
Proof. intros (pre & post & _ & <-). unfold Py.len. lia. Qed.

Lemma occurs_at_cons (c : ascii) (s sub : string) (i : Z) :
  occurs_at s sub i -> occurs_at (String c s) sub (i + 1).
Proof.
  unfold occurs_at, Py.len.
  intros (pre & post & -> & Hl). exists (String c pre), post.
  split; [reflexivity | simpl; lia].
Qed.

Lemma occurs_at_tail (c : ascii) (s sub : string) (j : Z) :
  occurs_at (String c s) sub j -> j <> 0 -> occurs_at s sub (j - 1).
Proof.
  unfold occurs_at, Py.len.
  intros (pre & post & H & Hl) Hj. destruct pre as [|x pre].
  - simpl in Hl. lia.
  - simpl in H. injection H as _ ->. exists pre, post. split; [reflexivity|].
    simpl in Hl. lia.
Qed.

Lemma find_from_eq (s sub : string) (i : Z) :
  Py.find_from s sub i =
  if prefix sub s then i
  else match s with
       | EmptyString => -1
       | String _ s' => Py.find_from s' sub (i + 1)
       end.
Proof. destruct s; reflexivity. Qed.

(** What [find_from] returns: [-1] when there is no occurrence, and the
    lowest index of one, counted from [i], when there is. *)
Lemma find_from_spec (sub s : string) (i : Z) :
  (Py.find_from s sub i = -1 /\ forall j, ~ occurs_at s sub j) \/
  (exists k, Py.find_from s sub i = i + k /\ first_occurrence s sub k) \/
  i < 0.
Proof.
  destruct (Z.ltb_spec i 0) as [Hneg|Hi]; [now right; right|].
  revert i Hi. induction s as [|c s IH]; intros i Hi; rewrite find_from_eq.
  - destruct (prefix sub "") eqn:Hp.
    + right; left. exists 0. split; [lia|]. split.
      * now apply occurs_at_0.
      * intros j Hj. now apply occurs_at_nonneg in Hj.
    + left. split; [reflexivity|]. intros j (pre & post & H & _).
      destruct pre; [|discriminate]. destruct sub; [discriminate|discriminate].
  - destruct (prefix sub (String c s)) eqn:Hp.
    + right; left. exists 0. split; [lia|]. split.
      * now apply occurs_at_0.
      * intros j Hj. now apply occurs_at_nonneg in Hj.
    + assert (Hstep : forall j, occurs_at (String c s) sub j -> occurs_at s sub (j - 1)).
      { intros j Hj. destruct (Z.eq_dec j 0) as [->|Hne].
        - apply occurs_at_0 in Hj. congruence.
        - now apply occurs_at_tail with (c := c). }
      destruct (IH (i + 1)) as [[Hf Hno]|[(k & Hf & Hocc & Hmin)|Hlt]]; try lia.
      * left. split; [exact Hf|]. intros j Hj. exact (Hno _ (Hstep _ Hj)).
      * right; left. exists (k + 1). split; [lia|]. split.
        -- now apply occurs_at_cons.
        -- intros j Hj. specialize (Hmin _ (Hstep _ Hj)). lia.
Qed.

Lemma find_spec (s sub : string) :
  (Py.find s sub = -1 /\ forall j, ~ occurs_at s sub j) \/
  (Py.find s sub <> -1 /\ first_occurrence s sub (Py.find s sub)).
Proof.
  unfold Py.find.
  destruct (find_from_spec sub s 0) as [H|[(k & Hf & Hk)|H]]; [now left| |lia].
  right. rewrite Hf. simpl. split; [|exact Hk].
  destruct Hk as [Hocc _]. apply occurs_at_nonneg in Hocc. lia.
Qed.

Lemma first_occurrence_unique (s sub : string) (i j : Z) :
  first_occurrence s sub i -> first_occurrence s sub j -> i = j.
Proof. intros [Hi Hmi] [Hj Hmj]. specialize (Hmi _ Hj). specialize (Hmj _ Hi). lia. Qed.

(** ** Span reconciliation *)

(** The reconciliation algorithm as the design document states it
    (section 4.2): four phases in a strict order, the first that succeeds
    decides; a span that no phase finds is discarded. *)
Module Design.
Section Reconciliation.

Variable source : string.
Variables (text : string) (start end_ : Z).
Variables (context_before context_after : string).

(** 1. Exact match: [source[start:end] == text]. *)
Definition exact_match : Prop := Py.slice source start end_ = text.

(** 2. Context fingerprint: one of the contexts is not empty, and the
    span starts after the context, in the first occurrence of
    [context_before + text + context_after]. *)
Definition fingerprint_match (new_start : Z) : Prop :=
  (context_before <> "" \/ context_after <> "") /\
  exists i, first_occurrence source (context_before ++ text ++ context_after) i
            /\ new_start = i + Py.len context_before.

(** 3. Proximity search: the first occurrence of the text in the window
    of 50 characters around the claimed position. *)
Definition proximity_match (new_start : Z) : Prop :=
  let lo := Z.max 0 (start - 50) in
  let hi := Z.min (Py.len source) (end_ + 50) in
  exists j, first_occurrence (Py.slice source lo hi) text j
            /\ new_start = lo + j.

(** 4. Global fallback: the first occurrence of the text in the source. *)
Definition global_match (new_start : Z) : Prop :=
  first_occurrence source text new_start.

Inductive verdict :=
| Accepted
| Corrected (new_start new_end : Z)
| Discarded.

Inductive reconciled : verdict -> Prop :=
| by_exact_match :
    exact_match -> reconciled Accepted
| by_fingerprint (n : Z) :
    ~ exact_match -> fingerprint_match n ->
    reconciled (Corrected n (n + Py.len text))
| by_proximity (n : Z) :
    ~ exact_match -> (forall m, ~ fingerprint_match m) ->
    proximity_match n ->
    reconciled (Corrected n (n + Py.len text))
| by_global_fallback (n : Z) :
    ~ exact_match -> (forall m, ~ fingerprint_match m) ->
    (forall m, ~ proximity_match m) -> global_match n ->
    reconciled (Corrected n (n + Py.len text))
| hallucination :
    ~ exact_match -> (forall m, ~ fingerprint_match m) ->
    (forall m, ~ proximity_match m) -> (forall m, ~ global_match m) ->
    reconciled Discarded.

End Reconciliation.
End Design.

(** What a verdict means for the span and for the pair
    [(is_valid, was_corrected)]. *)
Definition apply_verdict (span : Raw.Span) (v : Design.verdict)
  : Raw.Span * (bool * bool) :=
  match v with
  | Design.Accepted => (span, (true, false))
  | Design.Corrected a b => (Raw.set_offsets span a b, (true, true))
  | Design.Discarded => (span, (false, false))
  end.

(** The design's verdict on a claimed span: one with a text that is not
    empty and with both offsets. *)
Definition verdict_on (span : Raw.Span) (source : string) (v : Design.verdict)
  : Prop :=
  exists text start end_,
    Raw.text span = Some text /\ text <> "" /\
    Raw.start span = Some start /\ Raw.end_ span = Some end_ /\
    Design.reconciled source text start end_
      (Models.from_option "" (Raw.context_before span))
      (Models.from_option "" (Raw.context_after span)) v.

Lemma truthy_iff (s : string) : Py.truthy s = true <-> s <> "".
Proof.
  unfold Py.truthy. destruct (String.eqb_spec s ""); simpl; split; congruence.
Qed.

Lemma truthy_or (a b : string) :
  (Py.truthy a || Py.truthy b)%bool = true <-> a <> "" \/ b <> "".
Proof. now rewrite orb_true_iff, !truthy_iff. Qed.

Lemma found_iff (i : Z) : negb (i =? -1) = true <-> i <> -1.
Proof. destruct (Z.eqb_spec i (-1)); simpl; split; congruence. Qed.

(** The code takes the phases in the design's order. *)
Lemma validate_single_span_verdict (span : Raw.Span) (source text : string)
  (start end_ : Z) :
  Raw.text span = Some text -> text <> "" ->
  Raw.start span = Some start -> Raw.end_ span = Some end_ ->
  exists v,
    Design.reconciled source text start end_
      (Models.from_option "" (Raw.context_before span))
      (Models.from_option "" (Raw.context_after span)) v
    /\ Engine._validate_single_span span source = apply_verdict span v.
Proof.
  intros Ht Hne Hs He.
  unfold Engine._validate_single_span. rewrite Ht, Hs, He.
  simpl (Models.from_option "" (Some text)).
  set (cb := Models.from_option "" (Raw.context_before span)).
  set (ca := Models.from_option "" (Raw.context_after span)).
  cbv zeta.
  assert (Htr : Py.truthy text = true) by now apply truthy_iff.
  rewrite Htr. simpl negb. cbv iota.
  destruct (String.eqb_spec (Py.slice source start end_) text) as [Hex|Hex].
  { exists Design.Accepted. split; [now constructor | reflexivity]. }
  (* phase 2 *)
  destruct ((Py.truthy cb || Py.truthy ca) && negb (Py.find source (cb ++ text ++ ca) =? -1))%bool eqn:H2.
  { apply andb_true_iff in H2 as [Hctx Hfound].
    apply truthy_or in Hctx. apply found_iff in Hfound.
    destruct (find_spec source (cb ++ text ++ ca)) as [[Hf _]|[_ Hfirst]]; [congruence|].
    eexists (Design.Corrected _ _). split; [|reflexivity].
    apply Design.by_fingerprint; [exact Hex|].
    split; [exact Hctx|]. eexists; split; [exact Hfirst | reflexivity]. }
  assert (Hno2 : forall m, ~ Design.fingerprint_match source text cb ca m).
  { intros m (Hctx & i & Hfirst & _).
    apply truthy_or in Hctx. rewrite Hctx in H2. simpl in H2.
    apply negb_false_iff in H2. apply Z.eqb_eq in H2.
    destruct (find_spec source (cb ++ text ++ ca)) as [[_ Hno]|[Hf _]]; [|congruence].
    destruct Hfirst as [Hocc _]. exact (Hno _ Hocc). }
  clear H2.
  set (lo := Z.max 0 (start - 50)).
  set (region := Py.slice source lo (Z.min (Py.len source) (end_ + 50))).
  destruct (find_spec region text) as [[Hf3 Hno3]|[Hf3 Hfirst3]].
  2:{ apply found_iff in Hf3. rewrite Hf3.
      eexists (Design.Corrected _ _). split; [|reflexivity].
      apply Design.by_proximity; [exact Hex | exact Hno2 |].
      exists (Py.find region text). split; [exact Hfirst3 | reflexivity]. }
  rewrite Hf3. simpl (negb (-1 =? -1)). cbv iota.
  assert (Hno3' : forall m, ~ Design.proximity_match source text start end_ m).
  { intros m (j & [Hocc _] & _). exact (Hno3 _ Hocc). }
  destruct (find_spec source text) as [[Hf4 Hno4]|[Hf4 Hfirst4]].
  - rewrite Hf4. simpl (negb (-1 =? -1)). cbv iota.
    exists Design.Discarded. split; [|reflexivity].
    apply Design.hallucination; try assumption.
    intros m [Hocc _]. exact (Hno4 _ Hocc).
  - apply found_iff in Hf4. rewrite Hf4.
    eexists (Design.Corrected _ _). split; [|reflexivity].
    now apply Design.by_global_fallback.
Qed.

(** A span that the design discards gets no other verdict. *)
Lemma discarded_only (source text : string) (start end_ : Z)
  (cb ca : string) (v : Design.verdict) :
  Design.reconciled source text start end_ cb ca v ->
  Design.reconciled source text start end_ cb ca Design.Discarded ->
  v = Design.Discarded.
Proof.
  intros Hv Hd. inversion Hd as [| | | |Hex H2 H3 H4]; subst.
  inversion Hv as [He|n _ Hm|n _ _ Hm|n _ _ _ Hm|]; subst;
    [contradiction | | | | reflexivity].
  - now apply H2 in Hm.
  - now apply H3 in Hm.
  - now apply H4 in Hm.
Qed.

Lemma validate_single_span_discarded (span : Raw.Span) (source : string) :
  verdict_on span source Design.Discarded ->
  Engine._validate_single_span span source = (span, (false, false)).
Proof.
  intros (text & start & end_ & Ht & Hne & Hs & He & Hd).
  destruct (validate_single_span_verdict span source Ht Hne Hs He)
    as (v & Hv & Heq).
  rewrite Heq, (discarded_only Hv Hd). reflexivity.
Qed.

(** The side of a change is a claimed span that the design discards. *)
Definition side_discarded (side : option Raw.Span) (source : string) : Prop :=
  exists span, side = Some span /\ verdict_on span source Design.Discarded.

Lemma check_side_discarded (side : option Raw.Span) (source : string) :
  side_discarded side source ->
  snd (Engine.check_side side source) = (false, false).
Proof.
  intros (span & -> & Hv). unfold Engine.check_side.
  assert (Htruthy : Raw.span_truthy span = true).
  { destruct Hv as (text & _ & _ & Ht & _). unfold Raw.span_truthy.
    now rewrite Ht. }
  rewrite Htruthy, (validate_single_span_discarded Hv). reflexivity.
Qed.

(** What one change adds to the list of valid changes. *)
Definition kept_of (original_text generated_text : string)
  (change : Raw.Change) : list Raw.Change :=
  Engine.valid_changes
    (Engine.fix_step original_text generated_text (Engine.mkFix [] 0 0) change).

Lemma fix_step_valid_changes (original_text generated_text : string)
  (st : Engine.fix_state) (change : Raw.Change) :
  Engine.valid_changes (Engine.fix_step original_text generated_text st change)
  = (Engine.valid_changes st ++ kept_of original_text generated_text change)%list.
Proof.
  unfold kept_of, Engine.fix_step.
  destruct (Engine.check_side (Raw.original_span change) original_text)
    as [o [[|] corrected]]; simpl; [|now rewrite app_nil_r].
  destruct (Engine.check_side (Raw.generated_span change) generated_text)
    as [g [[|] corrected']]; simpl; [reflexivity | now rewrite app_nil_r].
Qed.

Lemma fix_loop_valid_changes (original_text generated_text : string)
  (l : list Raw.Change) (st : Engine.fix_state) :
  Engine.valid_changes
    (fold_left (Engine.fix_step original_text generated_text) l st)
  = (Engine.valid_changes st
     ++ flat_map (kept_of original_text generated_text) l)%list.
Proof.
  revert st. induction l as [|c l IH]; intros st; simpl.
  - now rewrite app_nil_r.
  - now rewrite IH, fix_step_valid_changes, app_assoc.
Qed.

Lemma kept_of_discarded (original_text generated_text : string)
  (change : Raw.Change) :
  side_discarded (Raw.original_span change) original_text \/
  side_discarded (Raw.generated_span change) generated_text ->
  kept_of original_text generated_text change = [].
Proof.
  intros H. unfold kept_of, Engine.fix_step.
  destruct (Engine.check_side (Raw.original_span change) original_text)
    as [o [valid corrected]] eqn:Ho.
  destruct (Engine.check_side (Raw.generated_span change) generated_text)
    as [g [valid' corrected']] eqn:Hg.
  destruct H as [H|H]; apply check_side_discarded in H.
  - rewrite Ho in H. simpl in H. injection H as -> ->. reflexivity.
  - rewrite Hg in H. simpl in H. injection H as -> ->.
    destruct valid; reflexivity.
Qed.

(** The changes that [_validate_and_fix_spans] keeps of a list. *)
Definition kept (original_text generated_text : string)
  (l : list Raw.Change) : list Raw.Change :=
  Engine.valid_changes (Engine.fix_loop original_text generated_text l).

(** C7. For a claimed span (a text that is not empty, both offsets
    there) [_validate_single_span] returns the verdict of the design: the
    phases exact match, context fingerprint, proximity search and global
    first occurrence are taken in that order and the first that succeeds
    decides, an exact match leaving the span as it is. And a change of
    which the original-side or the generated-side span fails every phase
    is left out of the changes that [_validate_and_fix_spans] returns. *)
Theorem reconciliation_phases_in_order :
  (forall span source text start end_,
     Raw.text span = Some text -> text <> "" ->
     Raw.start span = Some start -> Raw.end_ span = Some end_ ->
     exists v,
       Design.reconciled source text start end_
         (Models.from_option "" (Raw.context_before span))
         (Models.from_option "" (Raw.context_after span)) v
       /\ Engine._validate_single_span span source = apply_verdict span v)
  /\
  (forall response_data original_text generated_text before change after,
     Raw.changes response_data = Some (before ++ change :: after)%list ->
     side_discarded (Raw.original_span change) original_text \/
     side_discarded (Raw.generated_span change) generated_text ->
     Raw.changes
       (Engine._validate_and_fix_spans response_data original_text generated_text)
     = Some (kept original_text generated_text before
             ++ kept original_text generated_text after)%list).
Proof.
  split.
  - intros. now apply validate_single_span_verdict.
  - intros response_data o g before change after Hch Hd.
    unfold Engine._validate_and_fix_spans. rewrite Hch. simpl. f_equal.
    unfold kept, Engine.fix_loop. rewrite !fix_loop_valid_changes. simpl.
    rewrite flat_map_app. simpl. now rewrite (@kept_of_discarded o g change Hd).
Qed.

Lemma find_absent (s sub : string) :
  Py.find s sub = -1 -> forall j, ~ occurs_at s sub j.
Proof.
  intros H. destruct (find_spec s sub) as [[_ Hno]|[Hf _]]; [exact Hno | congruence].
Qed.

(** The example of the design, and a change about a word that is not in
    the text. *)
Definition cat_source : string := "the cat sat on the cat mat".

Definition second_cat : Raw.Span :=
  Raw.mkSpan (Some "cat") (Some 0) (Some 3) None (Some " mat").

Definition about (original generated : Raw.Span) : Raw.Change :=
  Raw.mkChange None (Some "FACTUAL") (Some "info") (Some "animal")
               (Some original) (Some generated) (Some "the animal differs").

Definition dog : Raw.Span := Raw.mkSpan (Some "dog") (Some 4) (Some 7) None None.

Lemma dog_discarded : side_discarded (Some dog) cat_source.
Proof.
  exists dog. split; [reflexivity|].
  exists "dog", 4, 7. repeat (split; [reflexivity || discriminate|]).
  apply Design.hallucination.
  - unfold Design.exact_match. vm_compute. discriminate.
  - intros m [[H|H] _]; now apply H.
  - intros m (j & [Hocc _] & _). revert Hocc. now apply find_absent.
  - intros m [Hocc _]. revert Hocc. now apply find_absent.
Defined.

Lemma reconciliation_witness :
  (exists v,
     Design.reconciled cat_source "cat" 0 3 "" " mat" v
     /\ Engine._validate_single_span second_cat cat_source
        = apply_verdict second_cat v)
  /\ Raw.changes
       (Engine._validate_and_fix_spans
          (Raw.mkResponse None
             (Some [about second_cat second_cat; about dog second_cat;
                    about second_cat second_cat]))
          cat_source cat_source)
     = Some (kept cat_source cat_source [about second_cat second_cat]
             ++ kept cat_source cat_source [about second_cat second_cat])%list.
Proof.
  split.
  - apply (proj1 reconciliation_phases_in_order second_cat cat_source "cat" 0 3);
      [reflexivity | discriminate | reflexivity | reflexivity].
  - apply (proj2 reconciliation_phases_in_order
             (Raw.mkResponse None
                (Some [about second_cat second_cat; about dog second_cat;
                       about second_cat second_cat]))
             cat_source cat_source
             [about second_cat second_cat] (about dog second_cat)
             [about second_cat second_cat]).
    + reflexivity.
    + left. exact dog_discarded.
Defined.

(** ** Merging: the change level *)

(** No level compares greater than [NONE] as a string: ["NONE"] is the
    greatest of the five values in the order of [str]. *)
Lemma no_value_above_NONE (l : SemanticChangeLevel.t) :
  Py.gt (SemanticChangeLevel.value l)
        (SemanticChangeLevel.value SemanticChangeLevel.NONE) = false.
Proof. destruct l; reflexivity. Qed.

Lemma merge_loop_level (offsets : list Z)
  (items : list (nat * Engine.result Models.DiffResponse))
  (st : Engine.merge_state) :
  Engine.max_change_level st = SemanticChangeLevel.NONE ->
  Engine.max_change_level (fold_left (Engine.merge_step offsets) items st)
  = SemanticChangeLevel.NONE.
Proof.
  revert st. induction items as [|[i r] items IH]; intros st H; simpl.
  - exact H.
  - apply IH. destruct r as [r|e]; simpl; [|exact H].
    rewrite H. now rewrite no_value_above_NONE.
Qed.

(** The greatest level of the chunks that did not fail, on the scale
    NONE < MINOR < MODERATE < CRITICAL < FATAL. *)
Definition max_level (chunk_results : list (Engine.result Models.DiffResponse))
  : SemanticChangeLevel.t :=
  fold_left
    (fun m r =>
       match r with
       | Engine.Ok r =>
           let l := Models.semantic_change_level (Models.summary r) in
           if (SemanticChangeLevel.rank m <? SemanticChangeLevel.rank l)%nat
           then l else m
       | Engine.Raise _ => m
       end)
    chunk_results SemanticChangeLevel.NONE.

Definition minor_chunk : Models.DiffResponse :=
  Models.mkDiffResponse
    (Models.mkDiffSummary true 10 SemanticChangeLevel.MINOR) [].

(** C3. The level of a merged result is [NONE] whatever the levels of
    the chunks are: the loop compares the values of the levels as
    strings, and no value is greater than ["NONE"]. So for the single
    chunk result of level [MINOR] the merged level is [NONE], and the
    greatest level of the chunks is [MINOR]. *)
Theorem merged_level_is_NONE :
  (forall chunk_results original_chunks,
     Models.semantic_change_level
       (Models.summary (Engine._merge_chunk_results chunk_results original_chunks))
     = SemanticChangeLevel.NONE)
  /\ Models.semantic_change_level
       (Models.summary (Engine._merge_chunk_results [Engine.Ok minor_chunk] ["text"]))
     = SemanticChangeLevel.NONE
  /\ max_level [Engine.Ok minor_chunk] = SemanticChangeLevel.MINOR.
Proof.
  split; [|split; reflexivity].
  intros chunk_results original_chunks.
  unfold Engine._merge_chunk_results. simpl.
  now apply merge_loop_level.
Qed.

(** ** Merging: the offsets *)

(** The base of chunk [i]: the lengths of the original chunks before it,
    and 2 for the separator after each of them. *)
Fixpoint base_of (original_chunks : list string) (i : nat) : Z :=
  match i, original_chunks with
  | S i', chunk :: rest => Py.len chunk + 2 + base_of rest i'
  | _, _ => 0
  end.

Lemma last_snoc {A : Type} (l : list A) (x d : A) : last (l ++ [x]) d = x.
Proof.
  induction l as [|y l IH]; [reflexivity|].
  simpl. destruct (l ++ [x])%list eqn:E; [now destruct l | exact IH].
Qed.

Lemma offsets_loop (l : list string) (offsets : list Z) :
  fold_left (fun offsets chunk =>
               (offsets ++ [last offsets 0 + Py.len chunk + 2])%list) l offsets
  = (offsets
     ++ map (fun k => last offsets 0 + base_of l (S k)) (seq 0 (List.length l)))%list.
Proof.
  revert offsets. induction l as [|c l IH]; intros offsets.
  - simpl. now rewrite app_nil_r.
  - cbn [fold_left List.length]. rewrite IH, last_snoc, <- app_assoc.
    f_equal. rewrite <- cons_seq, <- seq_shift.
    cbn [app map]. rewrite map_map. f_equal.
    + cbn [base_of]. destruct l; simpl; lia.
    + apply map_ext. intros k. cbn [base_of]. lia.
Qed.

Lemma base_of_removelast (l : list string) (i : nat) :
  (i < List.length l)%nat -> base_of (removelast l) i = base_of l i.
Proof.
  revert i. induction l as [|c l IH]; intros i Hi; [reflexivity|].
  destruct i as [|i]; [now destruct l|].
  simpl in Hi. destruct l as [|c' l]; [simpl in Hi; exfalso; lia|].
  change (removelast (c :: c' :: l)) with (c :: removelast (c' :: l)).
  cbn [base_of]. rewrite IH by (simpl in *; lia). reflexivity.
Qed.

Lemma nth_map_seq (f : nat -> Z) (n i : nat) (d : Z) :
  (i < n)%nat -> nth i (map f (seq 0 n)) d = f i.
Proof.
  intros Hi.
  rewrite (nth_indep _ d (f 0%nat)) by (rewrite length_map, length_seq; lia).
  rewrite map_nth, seq_nth by lia. reflexivity.
Qed.

(** The list of offsets holds the base of every chunk. *)
Lemma chunk_offsets_nth (original_chunks : list string) (i : nat) :
  (i < List.length original_chunks)%nat ->
  (i < List.length (Engine.chunk_offsets original_chunks))%nat
  /\ nth i (Engine.chunk_offsets original_chunks) 0 = base_of original_chunks i.
Proof.
  intros Hi. unfold Engine.chunk_offsets. rewrite offsets_loop.
  assert (Hlen : List.length (removelast original_chunks)
                 = (List.length original_chunks - 1)%nat).
  { rewrite removelast_firstn_len, length_firstn. lia. }
  split.
  - rewrite length_app, length_map, length_seq, Hlen. simpl. lia.
  - destruct i as [|i]; [now destruct original_chunks|].
    cbn [app nth last].
    rewrite nth_map_seq by (rewrite Hlen; lia).
    rewrite base_of_removelast by exact Hi. lia.
Qed.

(** What one chunk result adds to the merged changes. *)
Definition contribution (offsets : list Z)
  (item : nat * Engine.result Models.DiffResponse) : list Models.ChangeItem :=
  match snd item with
  | Engine.Ok r =>
      map (Engine.shift_change
             (if (fst item <? List.length offsets)%nat
              then nth (fst item) offsets 0 else 0))
          (Models.changes r)
  | Engine.Raise _ => []
  end.

Lemma merge_loop_changes (offsets : list Z)
  (items : list (nat * Engine.result Models.DiffResponse))
  (st : Engine.merge_state) :
  Engine.all_changes (fold_left (Engine.merge_step offsets) items st)
  = (Engine.all_changes st ++ flat_map (contribution offsets) items)%list.
Proof.
  revert st. induction items as [|[i r] items IH]; intros st; simpl.
  - now rewrite app_nil_r.
  - rewrite IH. destruct r as [r|e]; simpl; [now rewrite app_assoc | reflexivity].
Qed.

Lemma combine_seq_app {A : Type} (pre post : list A) (x : A) (s : nat) :
  combine (seq s (List.length (pre ++ x :: post))) (pre ++ x :: post)
  = (combine (seq s (List.length pre)) pre
     ++ (s + List.length pre, x)%nat
        :: combine (seq (S (s + List.length pre)) (List.length post)) post)%list.
Proof.
  revert s. induction pre as [|y pre IH]; intros s; simpl.
  - now rewrite Nat.add_0_r.
  - f_equal. rewrite IH. now rewrite Nat.add_succ_r.
Qed.

(** All four offsets of [c'] are those of [c] moved by [base], and the
    texts are the same. *)
Definition shifted_by (base : Z) (c c' : Models.ChangeItem) : Prop :=
  Models.start (Models.original_span c')
    = Models.start (Models.original_span c) + base
  /\ Models.end_ (Models.original_span c')
     = Models.end_ (Models.original_span c) + base
  /\ Models.start (Models.generated_span c')
     = Models.start (Models.generated_span c) + base
  /\ Models.end_ (Models.generated_span c')
     = Models.end_ (Models.generated_span c) + base
  /\ Models.text (Models.original_span c') = Models.text (Models.original_span c)
  /\ Models.text (Models.generated_span c') = Models.text (Models.generated_span c)
  /\ Models.id c' = Models.id c.

Lemma shift_change_shifted (base : Z) (l : list Models.ChangeItem) :
  Forall2 (shifted_by base) l (map (Engine.shift_change base) l).
Proof.
  induction l as [|c l IH]; constructor; [|exact IH].
  unfold shifted_by. simpl. repeat split; reflexivity.
Qed.

(** The merge moves a result by its position. In the merged result, the
    changes of the result at position [i] of [chunk_results] stand with
    all their offsets, of the original and of the generated span, moved
    by the base of the chunk at index [i]: the sum of the lengths of the
    original chunks before it plus 2 for each of them. *)
Lemma merge_shifts_by_position
  (chunk_results : list (Engine.result Models.DiffResponse))
  (original_chunks : list string) (i : nat) (r : Models.DiffResponse) :
  nth_error chunk_results i = Some (Engine.Ok r) ->
  (i < List.length original_chunks)%nat ->
  exists before shifted after,
    Models.changes (Engine._merge_chunk_results chunk_results original_chunks)
    = (before ++ shifted ++ after)%list
    /\ Forall2 (shifted_by (base_of original_chunks i)) (Models.changes r) shifted.
Proof.
  intros Hnth Hi.
  destruct (nth_error_split _ _ Hnth) as (pre & post & -> & Hlen).
  destruct (chunk_offsets_nth original_chunks Hi) as [Hin Hbase].
  set (offsets := Engine.chunk_offsets original_chunks) in *.
  exists (flat_map (contribution offsets) (combine (seq 0 (List.length pre)) pre)),
         (map (Engine.shift_change (base_of original_chunks i)) (Models.changes r)),
         (flat_map (contribution offsets)
                   (combine (seq (S i) (List.length post)) post)).
  split; [|apply shift_change_shifted].
  unfold Engine._merge_chunk_results. cbn [Models.changes].
  fold offsets. rewrite merge_loop_changes. cbn [Engine.all_changes app].
  unfold Engine.enumerate. rewrite combine_seq_app, flat_map_app.
  cbn [flat_map Nat.add]. rewrite Hlen. f_equal. f_equal.
  unfold contribution. cbn [fst snd].
  apply Nat.ltb_lt in Hin. now rewrite Hin, Hbase.
Qed.

(** The example of the design: the chunks ["AAAA"] and ["BBBB"], and a
    change at offset 1 of the second. *)
Definition at_offset_1 : Models.ChangeItem :=
  Models.mkChangeItem "id" ChangeType.FACTUAL ChangeSeverity.INFO "case"
    (Models.mkTextSpan "BB" 1 3 "" "") (Models.mkTextSpan "bb" 1 3 "" "")
    "the case differs".

Definition second_result : Models.DiffResponse :=
  Models.mkDiffResponse
    (Models.mkDiffSummary true 10 SemanticChangeLevel.MINOR) [at_offset_1].

Definition two_results : list (Engine.result Models.DiffResponse) :=
  [Engine.Ok Engine.neutral; Engine.Ok second_result].

Example merge_of_two_results :
  (exists before shifted after,
     Models.changes (Engine._merge_chunk_results two_results ["AAAA"; "BBBB"])
     = (before ++ shifted ++ after)%list
     /\ Forall2 (shifted_by (4 + 2)) [at_offset_1] shifted)
  /\ map (fun c => Models.start (Models.original_span c))
         (Models.changes (Engine._merge_chunk_results two_results ["AAAA"; "BBBB"]))
     = [7].
Proof.
  split.
  - apply (@merge_shifts_by_position two_results ["AAAA"; "BBBB"] 1%nat
                                     second_result);
      [reflexivity | simpl; lia].
  - reflexivity.
Qed.

(** ** The safety flag *)

(** Some change of the response has severity critical. *)
Definition has_critical_change (r : Models.DiffResponse) : bool :=
  existsb (fun change =>
             match Models.severity change with
             | ChangeSeverity.CRITICAL => true
             | _ => false
             end)
          (Models.changes r).

(** The right-hand side of the invariant of the data model: the risk
    score is at most 40 and no change is critical. *)
Definition safe_by_numbers (r : Models.DiffResponse) : bool :=
  ((Models.risk_score (Models.summary r) <=? 40)
   && negb (has_critical_change r))%bool.

Lemma is_critical_spec (l : list Models.ChangeItem) :
  existsb Engine.is_critical l
  = existsb (fun change =>
               match Models.severity change with
               | ChangeSeverity.CRITICAL => true
               | _ => false
               end) l.
Proof.
  induction l as [|c l IH]; [reflexivity|]. simpl. rewrite IH. f_equal.
  unfold Engine.is_critical. now destruct (Models.severity c).
Qed.

Lemma gtb_leb (x y : Z) : (x >? y) = negb (x <=? y).
Proof. rewrite Z.gtb_ltb, Z.leb_antisym. now rewrite negb_involutive. Qed.

(** What a validated response keeps of the oracle's summary. *)
Lemma validate_DiffResponse_summary (uuid4 : nat -> string) (k : nat)
  (d : Raw.Response) (r : Models.DiffResponse) :
  Models.validate_DiffResponse uuid4 k d = Some r ->
  exists s,
    Raw.summary d = Some s
    /\ Raw.is_safe s = Some (Models.is_safe (Models.summary r))
    /\ Raw.risk_score s = Some (Models.risk_score (Models.summary r)).
Proof.
  unfold Models.validate_DiffResponse, Models.validate_DiffSummary, Models.bind.
  destruct (Raw.summary d) as [s|]; [|discriminate].
  destruct (Raw.is_safe s) as [b|] eqn:Hb; [|discriminate].
  destruct (Raw.risk_score s) as [n|] eqn:Hn; [|discriminate].
  destruct (match Raw.semantic_change_level s with Some a => _ | None => None end)
    as [l|]; [|discriminate].
  destruct ((0 <=? n) && (n <=? 100))%bool; [|discriminate].
  destruct (Models.validate_changes uuid4 k _); [|discriminate].
  intros [= <-]. exists s. simpl. auto.
Qed.

(** The flag that [_validate_and_build_response] returns: the oracle's,
    unless the numbers forbid it. *)
Lemma build_response_is_safe (uuid4 : nat -> string)
  (response_data : Raw.Response) (r : Models.DiffResponse) :
  Engine._validate_and_build_response uuid4 response_data = Engine.Ok r ->
  exists s b,
    Raw.summary response_data = Some s /\ Raw.is_safe s = Some b
    /\ Raw.risk_score s = Some (Models.risk_score (Models.summary r))
    /\ Models.is_safe (Models.summary r) = (b && safe_by_numbers r)%bool.
Proof.
  unfold Engine._validate_and_build_response.
  set (d' := match Raw.changes response_data with Some l => _ | None => _ end).
  assert (Hsum : Raw.summary (fst d') = Raw.summary response_data).
  { subst d'. destruct (Raw.changes response_data) as [l|]; [|reflexivity].
    now destruct (Engine.assign_ids uuid4 0 l). }
  destruct d' as [d k]. simpl in Hsum.
  destruct (Models.validate_DiffResponse uuid4 k d) as [r0|] eqn:Hv; [|discriminate].
  destruct (validate_DiffResponse_summary _ _ _ Hv) as (s & Hs & Hb & Hn).
  rewrite Hsum in Hs.
  unfold safe_by_numbers, has_critical_change.
  rewrite is_critical_spec, gtb_leb.
  destruct (existsb _ (Models.changes r0)) eqn:Hc;
    destruct (Models.risk_score (Models.summary r0) <=? 40) eqn:Hr;
    destruct (Models.is_safe (Models.summary r0)) eqn:Hsafe;
    simpl; intros [= <-]; exists s; eexists; simpl;
    rewrite ?Hc, ?Hr, ?Hsafe; repeat split; eauto.
Qed.

(** The flag of a merged result is computed from its numbers. *)
Lemma merged_is_safe (chunk_results : list (Engine.result Models.DiffResponse))
  (original_chunks : list string) :
  let r := Engine._merge_chunk_results chunk_results original_chunks in
  Models.is_safe (Models.summary r) = safe_by_numbers r.
Proof.
  unfold Engine._merge_chunk_results, safe_by_numbers, has_critical_change.
  cbv zeta. cbn [Models.is_safe Models.summary Models.risk_score Models.changes].
  rewrite is_critical_spec. f_equal.
  match goal with |- (?a <=? 40) = _ => generalize a end. intros a.
  destruct (Z.leb_spec a 40), (Z.leb_spec (Z.min 100 a) 40); lia || reflexivity.
Qed.

(** ** The flag of every response the engine returns *)

(** The flag is [true] only when the numbers allow it. *)
Definition consistent (r : Models.DiffResponse) : Prop :=
  Models.is_safe (Models.summary r) = true -> safe_by_numbers r = true.

(** Every response held by the cache is consistent. *)
Definition cache_consistent (c : Cache.ResponseCache) : Prop :=
  Forall (fun p => consistent (Cache.data (snd p))) (Cache._cache c).

Lemma consistent_neutral : consistent Engine.neutral.
Proof. intros _. reflexivity. Qed.

Lemma consistent_built (uuid4 : nat -> string) (d : Raw.Response)
  (r : Models.DiffResponse) :
  Engine._validate_and_build_response uuid4 d = Engine.Ok r -> consistent r.
Proof.
  intros H Hsafe.
  destruct (build_response_is_safe _ _ H) as (s & b & _ & _ & _ & Heq).
  rewrite Hsafe in Heq. symmetry in Heq. now apply andb_true_iff in Heq.
Qed.

Lemma consistent_merged (chunk_results : list (Engine.result Models.DiffResponse))
  (original_chunks : list string) :
  consistent (Engine._merge_chunk_results chunk_results original_chunks).
Proof. intros H. now rewrite <- merged_is_safe. Qed.

Section Dict.

Variable P : Cache.Entry -> Prop.

Let all (d : Cache.dict) : Prop := Forall (fun p => P (snd p)) d.

Lemma dict_find_all (d : Cache.dict) (k : string) (e : Cache.Entry) :
  all d -> Cache.dict_find d k = Some e -> P e.
Proof.
  induction 1 as [|[k' e'] d Hp _ IH]; simpl; [discriminate|].
  destruct (k' =? k)%string; [intros [= <-]; exact Hp | exact IH].
Qed.

Lemma dict_del_all (d : Cache.dict) (k : string) : all d -> all (Cache.dict_del d k).
Proof.
  unfold all, Cache.dict_del. rewrite !Forall_forall.
  intros H p Hp. apply filter_In in Hp. now apply H.
Qed.

Lemma dict_del_keys_all (keys : list string) (d : Cache.dict) :
  all d -> all (fold_left Cache.dict_del keys d).
Proof.
  revert d. induction keys as [|k keys IH]; intros d H; simpl; [exact H|].
  apply IH. now apply dict_del_all.
Qed.

Lemma dict_set_all (d : Cache.dict) (k : string) (e : Cache.Entry) :
  all d -> P e -> all (Cache.dict_set d k e).
Proof.
  intros H He. induction H as [|[k' e'] d Hp Hd IH]; simpl.
  - now constructor.
  - destruct (k' =? k)%string; constructor; assumption.
Qed.

End Dict.

Lemma cleanup_consistent (c : Cache.ResponseCache) (now : Z) :
  cache_consistent c -> cache_consistent (Cache._cleanup c now).
Proof.
  intros H. unfold cache_consistent, Cache._cleanup.
  destruct (_ >=? _); simpl;
    repeat apply (dict_del_keys_all (fun e => consistent (Cache.data e)));
    exact H.
Qed.

Lemma set_consistent (c : Cache.ResponseCache) (now : Z) (a b s : string)
  (r : Models.DiffResponse) :
  cache_consistent c -> consistent r -> cache_consistent (Cache.set c now a b s r).
Proof.
  intros H Hr. unfold cache_consistent, Cache.set. simpl.
  apply (dict_set_all (fun e => consistent (Cache.data e))); [|exact Hr].
  destruct (_ >=? _); [now apply cleanup_consistent | exact H].
Qed.

Lemma get_consistent (c : Cache.ResponseCache) (now : Z) (a b s : string) :
  cache_consistent c ->
  cache_consistent (snd (Cache.get c now a b s))
  /\ forall r, fst (Cache.get c now a b s) = Some r -> consistent r.
Proof.
  intros H. unfold Cache.get.
  destruct (Cache.dict_find _ _) as [entry|] eqn:Hfind; simpl.
  - destruct (now >? Cache.expires_at entry); simpl.
    + split; [|discriminate]. unfold cache_consistent. simpl.
      now apply (dict_del_all (fun e => consistent (Cache.data e))).
    + split; [exact H|]. intros r [= <-].
      exact (@dict_find_all (fun e => consistent (Cache.data e)) _ _ _ H Hfind).
  - split; [exact H | discriminate].
Qed.

Lemma process_reply_consistent (env : Engine.Env) (task : nat)
  (on_empty on_not_json : Engine.exn) (c : Cache.ResponseCache)
  (request : Models.CompareRequest) (outcome : Engine.attempt) :
  cache_consistent c ->
  cache_consistent
    (snd (Engine.process_reply env task on_empty on_not_json c request outcome))
  /\ forall r,
       fst (Engine.process_reply env task on_empty on_not_json c request outcome)
       = Engine.Ok r -> consistent r.
Proof.
  intros H. unfold Engine.process_reply.
  destruct outcome as [e|[| |d]]; simpl; try (split; [exact H | discriminate]).
  destruct (Engine._validate_and_build_response _ _) as [r|e] eqn:Hb; simpl.
  - pose proof (consistent_built _ _ Hb) as Hr. split.
    + now apply set_consistent.
    + now intros r' [= <-].
  - split; [exact H | discriminate].
Qed.

Lemma chunk_finish_consistent (env : Engine.Env) (c : Cache.ResponseCache)
  (chunk_request : Models.CompareRequest) (chunk_index : nat)
  (outcome : Engine.attempt) :
  cache_consistent c ->
  cache_consistent
    (snd (Engine.chunk_finish env c chunk_request chunk_index outcome)).
Proof.
  intros H. unfold Engine.chunk_finish.
  destruct (process_reply_consistent env chunk_index
              (Engine.LLMResponseError
                 ("Empty response for chunk "
                  ++ NilEmpty.string_of_uint (Nat.to_uint chunk_index)))
              Engine.JSONDecodeError chunk_request outcome H) as [Hc _].
  destruct (Engine.process_reply _ _ _ _ _ _ _) as [[r|e] c2]; exact Hc.
Qed.

Lemma single_chunk_consistent (env : Engine.Env) (c : Cache.ResponseCache)
  (chunk_request : Models.CompareRequest) (chunk_index : nat) (model : string) :
  cache_consistent c ->
  cache_consistent
    (snd (fst (Engine._analyze_single_chunk env c chunk_request chunk_index model))).
Proof.
  intros H. unfold Engine._analyze_single_chunk, Engine.cache_get.
  destruct (get_consistent (Engine.t_lookup env)
              (Models.original_text chunk_request)
              (Models.generated_text chunk_request)
              (SensitivityLevel.value (Models.sensitivity chunk_request)) H)
    as [Hc _].
  destruct (Cache.get _ _ _ _ _) as [[cached|] c1]; simpl in Hc |- *; [exact Hc|].
  destruct (Engine._call_llm_with_retry _) as [outcome n].
  pose proof (chunk_finish_consistent env chunk_request chunk_index outcome Hc)
    as Hc'.
  destruct (Engine.chunk_finish _ _ _ _ _) as [r c2]. exact Hc'.
Qed.

(** What the lookups and the stores of the tasks keep, [gather] keeps. *)
Section Gather.

Variable env : Engine.Env.
Variable model : string.
Variable P : Cache.ResponseCache -> Prop.

Hypothesis P_lookup :
  forall c chunk_request,
    P c -> P (snd (Engine.cache_get c (Engine.t_lookup env) chunk_request)).

Hypothesis P_finish :
  forall c chunk_request chunk_index outcome,
    P c -> P (snd (Engine.chunk_finish env c chunk_request chunk_index outcome)).

Lemma start_tasks_keeps (tasks : list (Models.CompareRequest * nat))
  (c : Cache.ResponseCache) :
  P c -> P (snd (fst (Engine.start_tasks env model tasks c))).
Proof.
  revert c. induction tasks as [|[chunk_request chunk_index] tasks IH];
    intros c H; simpl; [exact H|].
  pose proof (P_lookup chunk_request H) as H1.
  destruct (Engine.cache_get c (Engine.t_lookup env) chunk_request)
    as [cached c1]. simpl in H1. specialize (IH c1 H1).
  destruct (match cached with Some _ => _ | None => _ end) as [task n].
  destruct (Engine.start_tasks env model tasks c1) as [[others c2] m].
  exact IH.
Qed.

Lemma finish_tasks_keeps (order : list Engine.waiting)
  (c : Cache.ResponseCache) :
  P c -> P (snd (Engine.finish_tasks env order c)).
Proof.
  revert c.
  induction order as [|[position [[chunk_request chunk_index] outcome]] order IH];
    intros c H; simpl; [exact H|].
  pose proof (P_finish chunk_request chunk_index outcome H) as H1.
  destruct (Engine.chunk_finish env c chunk_request chunk_index outcome)
    as [r c1]. simpl in H1. specialize (IH c1 H1).
  destruct (Engine.finish_tasks env order c1) as [finished c2]. exact IH.
Qed.

Lemma gather_keeps (tasks : list (Models.CompareRequest * nat))
  (c : Cache.ResponseCache) :
  P c -> P (snd (fst (Engine.gather env model tasks c))).
Proof.
  intros H. unfold Engine.gather.
  pose proof (start_tasks_keeps tasks H) as H1.
  destruct (Engine.start_tasks env model tasks c) as [[started_tasks c1] n].
  simpl in H1.
  pose proof (finish_tasks_keeps
                (Engine.by_arrival env (Engine.waiting_from 0 started_tasks)) H1)
    as H2.
  destruct (Engine.finish_tasks env _ c1) as [finished c2]. exact H2.
Qed.

End Gather.

Lemma gather_consistent (env : Engine.Env) (model : string)
  (tasks : list (Models.CompareRequest * nat)) (c : Cache.ResponseCache) :
  cache_consistent c ->
  cache_consistent (snd (fst (Engine.gather env model tasks c))).
Proof.
  apply gather_keeps.
  - intros c0 chunk_request H. unfold Engine.cache_get.
    now apply get_consistent.
  - intros c0 chunk_request chunk_index outcome H.
    now apply chunk_finish_consistent.
Qed.

(** From a cache of consistent responses, [analyze_diff] returns a
    consistent response, if it returns one, and leaves such a cache. *)
Lemma analyze_diff_consistent (cfg : Engine.Settings) (env : Engine.Env)
  (c : Cache.ResponseCache) (request : Models.CompareRequest) :
  cache_consistent c ->
  cache_consistent (snd (fst (Engine.analyze_diff cfg env c request)))
  /\ forall r,
       fst (fst (Engine.analyze_diff cfg env c request)) = Engine.Ok r ->
       consistent r.
Proof.
  intros H. unfold Engine.analyze_diff, Engine.cache_get.
  destruct (get_consistent (Engine.t_lookup env)
              (Models.original_text request) (Models.generated_text request)
              (SensitivityLevel.value (Models.sensitivity request)) H)
    as [Hc Hhit].
  destruct (Cache.get _ _ _ _ _) as [[cached|] c1]; simpl in Hc, Hhit |- *.
  { split; [exact Hc|]. intros r [= <-]. now apply Hhit. }
  destruct (negb _).
  { simpl. split.
    - apply set_consistent; [exact Hc | exact consistent_neutral].
    - intros r [= <-]. exact consistent_neutral. }
  destruct (_ || _)%bool.
  - unfold Engine._analyze_with_chunking.
    destruct (Engine.make_tasks _ _) as [tasks|e]; simpl;
      [|split; [exact Hc | discriminate]].
    pose proof (gather_consistent env
                  (if Models.premium_mode request
                   then Engine.PREMIUM_LLM_MODEL cfg
                   else Engine.DEFAULT_LLM_MODEL cfg) tasks Hc) as Hg.
    destruct (Engine.gather _ _ _ _) as [[rs c2] n]. simpl in Hg |- *. split.
    + apply set_consistent; [exact Hg | apply consistent_merged].
    + intros r [= <-]. apply consistent_merged.
  - destruct (Engine._call_llm_with_retry _) as [outcome n].
    destruct (process_reply_consistent env 0%nat
                (Engine.LLMResponseError "LLM returned empty response")
                (Engine.LLMResponseError "Invalid JSON from LLM")
                request outcome Hc) as [Hc' Hr].
    destruct (Engine.process_reply _ _ _ _ _ _ _) as [[r|e] c2];
      simpl in Hc', Hr |- *; split; auto; discriminate.
Qed.

(** ** Worlds and requests for the examples *)

(** A world in which the oracle gives the same answer to every attempt,
    and the calls of tasks that run together end in the order of the
    tasks. *)
Definition world (answer : Engine.attempt) (ratio : Q) (now : Z) : Engine.Env :=
  Engine.mkEnv (fun _ _ _ => answer)
               (fun _ _ => "123e4567-e89b-42d3-a456-426614174000")
               ratio now (now + 2000000) (fun task => task).

Definition reply (is_safe : bool) (risk_score : Z) (level : string)
  (changes : list Raw.Change) : Raw.Response :=
  Raw.mkResponse
    (Some (Raw.mkSummary (Some is_safe) (Some risk_score) (Some level)))
    (Some changes).

(** The example request of the data model. *)
Definition q1_request : Models.CompareRequest :=
  Models.mkCompareRequest "The product will be available in Q1 2024."
                          "The product might be available in early 2024."
                          SensitivityLevel.MEDIUM false.

(** C1, as the claim states it, fails on the single-call path: the oracle
    answers [is_safe = false] with a risk score of 10 and no change, and
    the engine returns that summary, where the numbers alone give
    [true]. *)
Lemma is_safe_not_raised_counterexample :
  fst (fst (Engine.analyze_diff Engine.settings
              (world (Engine.Replies (Engine.Json (reply false 10 "MINOR" [])))
                     (36 # 43) 0)
              Cache.global q1_request))
  = Engine.Ok (Models.mkDiffResponse
                 (Models.mkDiffSummary false 10 SemanticChangeLevel.MINOR) [])
  /\ safe_by_numbers
       (Models.mkDiffResponse
          (Models.mkDiffSummary false 10 SemanticChangeLevel.MINOR) [])
     = true.
Proof. split; vm_compute; reflexivity. Qed.

(** C1, amended. The flag of a response built from an oracle's answer is
    the oracle's flag and the numbers together: it is [true] only when the
    risk score is at most 40 and no change is critical, and it stays
    [false] when the oracle said [false]. The flag of a merged result,
    and of the short-circuit result, is exactly what the numbers give.
    And whatever path a request takes, from a cache of consistent
    responses the engine returns a consistent response and leaves such a
    cache: a flag [true] always comes with a risk score of at most 40 and
    no critical change. *)
Theorem is_safe_invariant :
  (forall uuid4 response_data r,
     Engine._validate_and_build_response uuid4 response_data = Engine.Ok r ->
     exists s b,
       Raw.summary response_data = Some s /\ Raw.is_safe s = Some b
       /\ Models.is_safe (Models.summary r) = (b && safe_by_numbers r)%bool)
  /\ (forall chunk_results original_chunks,
        Models.is_safe
          (Models.summary (Engine._merge_chunk_results chunk_results original_chunks))
        = safe_by_numbers (Engine._merge_chunk_results chunk_results original_chunks))
  /\ Models.is_safe (Models.summary Engine.neutral)
     = safe_by_numbers Engine.neutral
  /\ cache_consistent Cache.global
  /\ (forall cfg env c request,
        cache_consistent c ->
        cache_consistent (snd (fst (Engine.analyze_diff cfg env c request)))
        /\ forall r,
             fst (fst (Engine.analyze_diff cfg env c request)) = Engine.Ok r ->
             Models.is_safe (Models.summary r) = true ->
             safe_by_numbers r = true).
Proof.
  split; [|split; [|split; [reflexivity|split; [constructor|]]]].
  - intros uuid4 response_data r H.
    destruct (build_response_is_safe _ _ H) as (s & b & Hs & Hb & _ & Hsafe).
    exists s, b. auto.
  - intros. apply merged_is_safe.
  - intros cfg env c request H. now apply analyze_diff_consistent.
Qed.

Lemma is_safe_invariant_witness :
  exists s b,
    Raw.summary (reply true 90 "CRITICAL" []) = Some s /\ Raw.is_safe s = Some b
    /\ Models.is_safe
         (Models.summary
            (Models.mkDiffResponse
               (Models.mkDiffSummary false 90 SemanticChangeLevel.CRITICAL) []))
       = (b && safe_by_numbers
                 (Models.mkDiffResponse
                    (Models.mkDiffSummary false 90 SemanticChangeLevel.CRITICAL) []))%bool.
Proof.
  apply (proj1 is_safe_invariant (fun _ => "") (reply true 90 "CRITICAL" [])).
  reflexivity.
Defined.

(** C2. When the risk score of the response is above 40, or one of its
    changes is critical, the flag is [false]: for a response built from an
    oracle's answer, whatever flag the oracle gave, for a merged result,
    and so for every response that [analyze_diff] returns from a cache of
    consistent responses. *)
Theorem unsafe_numbers_force_false :
  (forall uuid4 response_data r,
     Engine._validate_and_build_response uuid4 response_data = Engine.Ok r ->
     Models.risk_score (Models.summary r) > 40 \/ has_critical_change r = true ->
     Models.is_safe (Models.summary r) = false)
  /\ (forall chunk_results original_chunks,
        let r := Engine._merge_chunk_results chunk_results original_chunks in
        Models.risk_score (Models.summary r) > 40 \/ has_critical_change r = true ->
        Models.is_safe (Models.summary r) = false)
  /\ (forall cfg env c request r,
        cache_consistent c ->
        fst (fst (Engine.analyze_diff cfg env c request)) = Engine.Ok r ->
        Models.risk_score (Models.summary r) > 40 \/ has_critical_change r = true ->
        Models.is_safe (Models.summary r) = false).
Proof.
  assert (Hnum : forall r,
             Models.risk_score (Models.summary r) > 40 \/ has_critical_change r = true ->
             safe_by_numbers r = false).
  { intros r [H|H]; unfold safe_by_numbers.
    - destruct (Z.leb_spec (Models.risk_score (Models.summary r)) 40); [lia|reflexivity].
    - rewrite H. apply andb_false_r. }
  split; [|split].
  - intros uuid4 response_data r H Hr.
    destruct (build_response_is_safe _ _ H) as (s & b & _ & _ & _ & ->).
    rewrite (Hnum _ Hr). apply andb_false_r.
  - intros chunk_results original_chunks r Hr. subst r.
    rewrite merged_is_safe. now apply Hnum.
  - intros cfg env c request r Hc Hres Hr.
    destruct (analyze_diff_consistent cfg env request Hc) as [_ Hcons].
    specialize (Hcons r Hres). apply Hnum in Hr.
    unfold consistent in Hcons.
    destruct (Models.is_safe (Models.summary r)); [|reflexivity].
    rewrite (Hcons eq_refl) in Hr. discriminate.
Qed.

(** The example of the design: a risk score of 90 under a flag [true]. *)
Lemma unsafe_numbers_force_false_witness :
  Engine._validate_and_build_response (fun _ => "") (reply true 90 "CRITICAL" [])
  = Engine.Ok (Models.mkDiffResponse
                 (Models.mkDiffSummary false 90 SemanticChangeLevel.CRITICAL) [])
  /\ Models.is_safe
       (Models.summary
          (Models.mkDiffResponse
             (Models.mkDiffSummary false 90 SemanticChangeLevel.CRITICAL) []))
     = false.
Proof.
  split; [reflexivity|].
  apply (proj1 unsafe_numbers_force_false (fun _ => "") (reply true 90 "CRITICAL" [])).
  - reflexivity.
  - left. simpl. lia.
Defined.

(** ** A chunk that fails *)

Fixpoint filler (n : nat) (c : ascii) : string :=
  match n with
  | O => ""
  | S n' => String c (filler n' c)
  end.

(** Three paragraphs of 1600 characters: 4804 characters, three chunks. *)
Definition three_paragraphs (a b c : ascii) : string :=
  filler 1600 a ++ Py.nlnl ++ filler 1600 b ++ Py.nlnl ++ filler 1600 c.

Definition long_request : Models.CompareRequest :=
  Models.mkCompareRequest (three_paragraphs "a" "b" "c")
                          (three_paragraphs "x" "y" "z")
                          SensitivityLevel.MEDIUM false.

Definition claimed_span (text : string) (start end_ : Z) : Raw.Span :=
  Raw.mkSpan (Some text) (Some start) (Some end_) None None.

Definition a_change (original generated : string) (start : Z) : Raw.Change :=
  Raw.mkChange None (Some "Factual") (Some "minor") (Some "wording")
    (Some (claimed_span original start (start + 3)))
    (Some (claimed_span generated start (start + 3)))
    (Some "the words differ").

(** The oracle answers the first two chunks with a risk score of 60 and
    one change each, and fails with a time-out at every attempt for the
    third. *)
Definition third_chunk_fails : Engine.Env :=
  Engine.mkEnv
    (fun _ task _ =>
       match task with
       | 0%nat => Engine.Replies (Engine.Json
                    (reply false 60 "MODERATE" [a_change "aaa" "xxx" 0]))
       | 1%nat => Engine.Replies (Engine.Json
                    (reply false 60 "MODERATE" [a_change "bbb" "yyy" 5]))
       | _ => Engine.Fails Engine.APITimeoutError
       end)
    (fun task _ => if (task =? 0)%nat then "id-0" else "id-1")
    (1 # 1201) 0 2000000 (fun task => task).

Definition merged_change (id original generated : string) (start : Z)
  : Models.ChangeItem :=
  Models.mkChangeItem id ChangeType.FACTUAL ChangeSeverity.INFO "wording"
    (Models.mkTextSpan original start (start + 3) "" "")
    (Models.mkTextSpan generated start (start + 3) "" "")
    "the words differ".

(** Every exception of the call ends in the neutral response: a chunk
    whose call fails at every attempt gives [risk_score = 0], after three
    invocations. *)
Lemma failed_chunk_is_neutral (env : Engine.Env) (c : Cache.ResponseCache)
  (chunk_request : Models.CompareRequest) (chunk_index : nat) (model : string) :
  fst (Engine.cache_get c (Engine.t_lookup env) chunk_request) = None ->
  (forall k, Engine.oracle env (Engine.call_of chunk_request model) chunk_index k
             = Engine.Fails Engine.APITimeoutError) ->
  Engine._analyze_single_chunk env c chunk_request chunk_index model
  = (Engine.neutral, snd (Engine.cache_get c (Engine.t_lookup env) chunk_request),
     3%nat).
Proof.
  intros Hmiss Hfail. unfold Engine._analyze_single_chunk.
  destruct (Engine.cache_get c (Engine.t_lookup env) chunk_request) as [cached c'].
  simpl in Hmiss. subst cached.
  unfold Engine._call_llm_with_retry, Engine.chunk_finish. simpl.
  rewrite !Hfail. reflexivity.
Qed.

(** The merge counts every response it is given: three responses, a
    divisor of 3. *)
Lemma three_chunks_average (r0 r1 r2 : Models.DiffResponse)
  (original_chunks : list string) :
  Models.risk_score
    (Models.summary
       (Engine._merge_chunk_results
          [Engine.Ok r0; Engine.Ok r1; Engine.Ok r2] original_chunks))
  = Z.min 100 ((Models.risk_score (Models.summary r0)
                + Models.risk_score (Models.summary r1)
                + Models.risk_score (Models.summary r2)) / 3).
Proof.
  unfold Engine._merge_chunk_results. cbn [Models.risk_score Models.summary].
  f_equal.
Qed.

(** C4, on the code. A chunk whose call fails at every attempt is
    answered with the neutral response after three invocations, and that
    response is a chunk result like the others for the merge: with three
    chunks the sum of the risk scores is divided by 3, the failed chunk
    counting for 0. So when the third of three chunks fails and the other
    two have a risk score of 60, the merged result holds the changes of
    these two, the second moved by 1602, and its risk score is
    (60 + 60 + 0) / 3 = 40 with [is_safe = true]; the average of the two
    chunks that succeeded is 60. *)
Theorem failed_chunk_lowers_average :
  (forall env c chunk_request chunk_index model,
     fst (Engine.cache_get c (Engine.t_lookup env) chunk_request) = None ->
     (forall k, Engine.oracle env (Engine.call_of chunk_request model) chunk_index k
                = Engine.Fails Engine.APITimeoutError) ->
     Engine._analyze_single_chunk env c chunk_request chunk_index model
     = (Engine.neutral,
        snd (Engine.cache_get c (Engine.t_lookup env) chunk_request), 3%nat))
  /\ (forall r0 r1 original_chunks,
        Models.risk_score
          (Models.summary
             (Engine._merge_chunk_results
                [Engine.Ok r0; Engine.Ok r1; Engine.Ok Engine.neutral]
                original_chunks))
        = Z.min 100 ((Models.risk_score (Models.summary r0)
                      + Models.risk_score (Models.summary r1) + 0) / 3))
  /\ (let '(result, _, invocations) :=
        Engine.analyze_diff Engine.settings third_chunk_fails Cache.global
                            long_request in
      (result, invocations))
     = (Engine.Ok
          (Models.mkDiffResponse
             (Models.mkDiffSummary true 40 SemanticChangeLevel.NONE)
             [merged_change "id-0" "aaa" "xxx" 0;
              merged_change "id-1" "bbb" "yyy" 1607]),
        5%nat)
  /\ (60 + 60) / 2 = 60.
Proof.
  split; [|split; [|split]].
  - intros. now apply failed_chunk_is_neutral.
  - intros. apply three_chunks_average.
  - vm_compute. reflexivity.
  - reflexivity.
Qed.

(** The third chunk of the long request, on an empty cache. *)
Lemma failed_chunk_witness :
  Engine._analyze_single_chunk third_chunk_fails Cache.global
    (Models.mkCompareRequest (filler 1600 "c") (filler 1600 "z")
                             SensitivityLevel.MEDIUM false)
    2%nat "gpt-4o-mini"
  = (Engine.neutral,
     snd (Engine.cache_get Cache.global (Engine.t_lookup third_chunk_fails)
            (Models.mkCompareRequest (filler 1600 "c") (filler 1600 "z")
                                     SensitivityLevel.MEDIUM false)),
     3%nat).
Proof.
  apply (proj1 failed_chunk_lowers_average).
  - reflexivity.
  - intros k. reflexivity.
Defined.

(** ** Tasks that run together *)

(** Two paragraphs of 2500 characters on each side: two pairs of chunks,
    and the same pair twice. *)
Definition twice_request : Models.CompareRequest :=
  Models.mkCompareRequest
    (filler 2500 "a" ++ Py.nlnl ++ filler 2500 "a")
    (filler 2500 "b" ++ Py.nlnl ++ filler 2500 "b")
    SensitivityLevel.MEDIUM false.

(** Both tasks look their chunk up before either has stored its
    response: the oracle is asked twice for the same pair. *)
Example same_pair_is_asked_twice :
  snd (Engine.analyze_diff Engine.settings
         (world (Engine.Replies (Engine.Json (reply true 10 "MINOR" [])))
                (1 # 2501) 0)
         Cache.global twice_request)
  = 2%nat.
Proof. vm_compute. reflexivity. Qed.

(** ** A pair of chunks that is passed over *)

(** Two texts that begin with an empty paragraph: each has the chunks
    [""] and the paragraph of 4001 characters, so the first pair of
    chunks is a pair of empty chunks. *)
Definition skipped_request : Models.CompareRequest :=
  Models.mkCompareRequest (Py.nlnl ++ "X" ++ filler 4000 "a")
                          (Py.nlnl ++ "X" ++ filler 4000 "b")
                          SensitivityLevel.MEDIUM false.

(** The oracle reports the first three characters of the chunk it is
    given. *)
Definition first_characters : Engine.Env :=
  world (Engine.Replies
           (Engine.Json (reply false 45 "MODERATE" [a_change "Xaa" "Xbb" 0])))
        (3 # 4003) 0.

(** C9, on the code. The merge moves the changes of a result by the
    offset found at the position of the result in [chunk_results], and
    [_analyze_with_chunking] makes no task, so no result, for a pair of
    empty chunks: after such a pair the position of a result is no
    longer the index of its chunk. For the request above the chunk of
    index 1 has the base 2, its only result stands at position 0, and
    the change reported at offset 0 of the chunk comes out at offset 0 of
    the merged result, where the original text does not read the text of
    the span; it reads it at offset 2. *)
Theorem merged_offsets_ignore_skipped_pair :
  (forall chunk_results original_chunks i r,
     nth_error chunk_results i = Some (Engine.Ok r) ->
     (i < List.length original_chunks)%nat ->
     exists before shifted after,
       Models.changes (Engine._merge_chunk_results chunk_results original_chunks)
       = (before ++ shifted ++ after)%list
       /\ Forall2 (shifted_by (base_of original_chunks i))
                  (Models.changes r) shifted)
  /\ Engine._split_into_chunks (Models.original_text skipped_request) 3000
     = [""; "X" ++ filler 4000 "a"]
  /\ Engine._split_into_chunks (Models.generated_text skipped_request) 3000
     = [""; "X" ++ filler 4000 "b"]
  /\ Engine.make_tasks SensitivityLevel.MEDIUM
       (Engine.enumerate [("", ""); ("X" ++ filler 4000 "a", "X" ++ filler 4000 "b")])
     = Engine.Ok
         [(Models.mkCompareRequest ("X" ++ filler 4000 "a") ("X" ++ filler 4000 "b")
             SensitivityLevel.MEDIUM false, 1%nat)]
  /\ base_of [""; "X" ++ filler 4000 "a"] 1 = 2
  /\ (let '(result, _, invocations) :=
        Engine.analyze_diff Engine.settings first_characters Cache.global
                            skipped_request in
      (result, invocations))
     = (Engine.Ok
          (Models.mkDiffResponse
             (Models.mkDiffSummary false 45 SemanticChangeLevel.NONE)
             [merged_change "123e4567-e89b-42d3-a456-426614174000"
                            "Xaa" "Xbb" 0]),
        1%nat)
  /\ Py.slice (Models.original_text skipped_request) 0 3 <> "Xaa"
  /\ Py.slice (Models.original_text skipped_request) 2 5 = "Xaa".
Proof.
  split; [|repeat split; try (vm_compute; reflexivity)].
  - intros chunk_results original_chunks i r Hnth Hi.
    exact (merge_shifts_by_position chunk_results original_chunks Hnth Hi).
  - vm_compute. discriminate.
Qed.

(** ** Failures on the single-call path *)

Definition selected_model (cfg : Engine.Settings)
  (request : Models.CompareRequest) : string :=
  if Models.premium_mode request
  then Engine.PREMIUM_LLM_MODEL cfg else Engine.DEFAULT_LLM_MODEL cfg.

(** The request takes the single-call path: it is not in the cache, the
    texts are not close enough for the short-circuit, and none is longer
    than the chunking threshold. *)
Definition single_call_path (cfg : Engine.Settings) (env : Engine.Env)
  (c : Cache.ResponseCache) (request : Models.CompareRequest) : Prop :=
  fst (Engine.cache_get c (Engine.t_lookup env) request) = None
  /\ Qle_bool (Engine.similarity_ratio env) (Engine.SHORT_CIRCUIT_THRESHOLD cfg) = true
  /\ Py.len (Models.original_text request) <= Engine.CHUNK_THRESHOLD
  /\ Py.len (Models.generated_text request) <= Engine.CHUNK_THRESHOLD.

(** The first answer of the oracle is a text that is not JSON, or a JSON
    document that the models refuse. *)
Definition invalid_reply (env : Engine.Env) (request : Models.CompareRequest)
  (model : string) : Prop :=
  Engine.oracle env (Engine.call_of request model) 0%nat 0%nat
    = Engine.Replies Engine.NotJson
  \/ exists response_data e,
       Engine.oracle env (Engine.call_of request model) 0%nat 0%nat
         = Engine.Replies (Engine.Json response_data)
       /\ Engine._validate_and_build_response (Engine.uuid4 env 0%nat)
            (Engine._validate_and_fix_spans response_data
               (Models.original_text request) (Models.generated_text request))
          = Engine.Raise e.

Lemma build_response_raises (uuid4 : nat -> string) (d : Raw.Response)
  (e : Engine.exn) :
  Engine._validate_and_build_response uuid4 d = Engine.Raise e ->
  e = Engine.LLMResponseError "Invalid response structure".
Proof.
  unfold Engine._validate_and_build_response.
  destruct (match Raw.changes d with Some l => _ | None => _ end) as [d' k].
  destruct (Models.validate_DiffResponse uuid4 k d') as [r|]; [|congruence].
  destruct (_ || _)%bool; [destruct (Models.is_safe _)|]; discriminate.
Qed.

(** C6, on the code. On the single-call path an answer that is not JSON
    or that fails validation is not tried again (one invocation), but the
    [LLMResponseError] raised for it inside the [try] block is caught by
    its last clause, [except Exception]: what reaches the caller is an
    [LLMAPIError], the class of the transport failures, and the caller
    answers with the error type of those. *)
Theorem invalid_reply_reaches_caller_as_LLMAPIError (cfg : Engine.Settings)
  (env : Engine.Env) (c : Cache.ResponseCache) (request : Models.CompareRequest) :
  single_call_path cfg env c request ->
  invalid_reply env request (selected_model cfg request) ->
  exists msg c',
    Engine.analyze_diff cfg env c request
    = (Engine.Raise (Engine.LLMAPIError msg), c', 1%nat)
    /\ Engine.isinstance (Engine.LLMAPIError msg) Engine.cLLMResponseError = false
    /\ Engine.error_type (Engine.LLMAPIError msg) = "llm_api_error".
Proof.
  intros (Hmiss & Hratio & Ho & Hg) Hreply.
  unfold Engine.analyze_diff.
  destruct (Engine.cache_get c (Engine.t_lookup env) request) as [cached c'].
  simpl in Hmiss. subst cached. rewrite Hratio. simpl negb. cbv iota.
  rewrite !gtb_leb.
  apply Z.leb_le in Ho, Hg. rewrite Ho, Hg. simpl orb. cbv iota.
  fold (selected_model cfg request).
  unfold Engine._call_llm_with_retry, Engine.retry_loop.
  destruct Hreply as [Hr|(d & e & Hr & Hraise)]; rewrite Hr; simpl.
  - eexists. exists c'. repeat split.
  - rewrite Hraise. rewrite (build_response_raises _ _ Hraise).
    eexists. exists c'. repeat split.
Qed.

Definition hello_request : Models.CompareRequest :=
  Models.mkCompareRequest "hello" "world" SensitivityLevel.MEDIUM false.

Lemma invalid_reply_witness :
  exists msg c',
    Engine.analyze_diff Engine.settings
      (world (Engine.Replies Engine.NotJson) (1 # 5) 0) Cache.global hello_request
    = (Engine.Raise (Engine.LLMAPIError msg), c', 1%nat)
    /\ Engine.isinstance (Engine.LLMAPIError msg) Engine.cLLMResponseError = false
    /\ Engine.error_type (Engine.LLMAPIError msg) = "llm_api_error".
Proof.
  apply invalid_reply_reaches_caller_as_LLMAPIError.
  - split; [|split; [|split]]; vm_compute; congruence.
  - left. reflexivity.
Defined.

(** ** The short-circuit *)

Lemma above_threshold (ratio threshold : Q) :
  (threshold < ratio)%Q -> negb (Qle_bool ratio threshold) = true.
Proof.
  intros H. apply negb_true_iff. destruct (Qle_bool ratio threshold) eqn:E.
  - apply Qle_bool_iff in E. exfalso. exact (Qlt_not_le _ _ H E).
  - reflexivity.
Qed.

(** A sentence, then a paragraph of 4100 characters: two chunks, the
    first of which is the sentence. *)
Definition report (body : ascii) : string :=
  "The product will be available in Q1 2024." ++ Py.nlnl ++ filler 4100 body.

Definition report_request : Models.CompareRequest :=
  Models.mkCompareRequest (report "o") (report "g") SensitivityLevel.MEDIUM false.

(** The sentence against itself: the ratio is 1. *)
Definition same_request : Models.CompareRequest :=
  Models.mkCompareRequest "The product will be available in Q1 2024."
                          "The product will be available in Q1 2024."
                          SensitivityLevel.MEDIUM false.

Definition lenient : Engine.attempt :=
  Engine.Replies (Engine.Json (reply true 5 "MINOR" [])).

(** C8, as the claim states it, fails when the request is in the cache.
    The two reports are compared first, in chunks: the first pair of
    chunks is the sentence against itself, it is sent to the oracle (a
    chunk is not tried for the short-circuit) and the answer, a risk score
    of 5, is stored under the key of that pair. A minute later the
    sentence is compared with itself, ratio 1: the engine returns the
    stored response, not the neutral one; the oracle is not invoked. *)
Lemma short_circuit_counterexample :
  (let '(result, _, invocations) :=
     Engine.analyze_diff Engine.settings (world lenient 1 60000000)
       (snd (fst (Engine.analyze_diff Engine.settings
                    (world lenient (43 # 4143) 0) Cache.global report_request)))
       same_request in
   (result, invocations))
  = (Engine.Ok (Models.mkDiffResponse
                  (Models.mkDiffSummary true 5 SemanticChangeLevel.MINOR) []),
     0%nat)
  /\ Qle_bool 1 (Engine.SHORT_CIRCUIT_THRESHOLD Engine.settings) = false
  /\ Models.risk_score (Models.summary Engine.neutral) = 0.
Proof. split; [|split]; vm_compute; reflexivity. Qed.

(** C8, amended. When the ratio is above the threshold the oracle is not
    invoked, and the engine returns the neutral response, unless the
    request is in the cache: then it returns the cached response. *)
Theorem short_circuit_skips_oracle (cfg : Engine.Settings) (env : Engine.Env)
  (c : Cache.ResponseCache) (request : Models.CompareRequest) :
  (Engine.SHORT_CIRCUIT_THRESHOLD cfg < Engine.similarity_ratio env)%Q ->
  (let '(result, _, invocations) := Engine.analyze_diff cfg env c request in
   (result, invocations))
  = (Engine.Ok
       (match fst (Engine.cache_get c (Engine.t_lookup env) request) with
        | Some cached => cached
        | None => Engine.neutral
        end),
     0%nat).
Proof.
  intros H. unfold Engine.analyze_diff.
  destruct (Engine.cache_get c (Engine.t_lookup env) request) as [[cached|] c'];
    simpl fst; cbv iota; [reflexivity|].
  now rewrite (@above_threshold _ _ H).
Qed.

Lemma short_circuit_witness :
  (let '(result, _, invocations) :=
     Engine.analyze_diff Engine.settings (world lenient 1 0) Cache.global
                         same_request in
   (result, invocations))
  = (Engine.Ok Engine.neutral, 0%nat).
Proof.
  apply (short_circuit_skips_oracle Engine.settings (world lenient 1 0)
                                    Cache.global same_request).
  reflexivity.
Defined.

(** ** The cache key *)

(** The digests of [hashlib] for two standard messages. *)
Example hexdigest_abc :
  Sha256.hexdigest "abc"
  = "ba7816bf8f01cfea414140de5dae2223b00361a396177a9cb410ff61f20015ad".
Proof. vm_compute. reflexivity. Qed.

Example hexdigest_empty :
  Sha256.hexdigest ""
  = "e3b0c44298fc1c149afbf4c8996fb92427ae41e4649b934ca495991b7852b855".
Proof. vm_compute. reflexivity. Qed.

Lemma append_inj_l (t x y : string) : t ++ x = t ++ y -> x = y.
Proof. induction t as [|c t IH]; simpl; [auto | intros [= H]; auto]. Qed.

Lemma append_inj_r (t x y : string) : x ++ t = y ++ t -> x = y.
Proof.
  revert y. induction x as [|c x IH]; intros [|d y] H; simpl in H.
  - reflexivity.
  - apply (f_equal String.length) in H. simpl in H. rewrite length_append in H. lia.
  - apply (f_equal String.length) in H. simpl in H. rewrite length_append in H. lia.
  - injection H as -> H. f_equal. now apply IH.
Qed.

(** The hashed string tells two triples apart when they differ in one
    component only. *)
Lemma cache_input_one_component (a b s x : string) :
  (Cache.cache_input a b s = Cache.cache_input x b s -> a = x)
  /\ (Cache.cache_input a b s = Cache.cache_input a x s -> b = x)
  /\ (Cache.cache_input a b s = Cache.cache_input a b x -> s = x).
Proof.
  unfold Cache.cache_input. repeat split; intros H.
  - now apply append_inj_r in H.
  - apply append_inj_l in H. apply (append_inj_l "|") in H.
    now apply append_inj_r in H.
  - apply append_inj_l in H. apply (append_inj_l "|") in H.
    apply append_inj_l in H. now apply (append_inj_l "|") in H.
Qed.

(** C5, on the code. The key is the hash of the two texts and the
    sensitivity with a bar between them, and a bar in a text is not told
    from the separator: two triples that differ in both texts are hashed
    from the same string, and have the same key. So a response stored
    for the texts ["a|b"] and ["c"] is returned for ["a"] and ["b|c"]. *)
Theorem distinct_triples_share_key :
  (forall a b c s,
     Cache._generate_key (a ++ "|" ++ b) c s
     = Cache._generate_key a (b ++ "|" ++ c) s)
  /\ Cache._generate_key "a|b" "c" "medium"
     = "afad8c8481a540e462bcbc49fc8ff105ac25d11c027c20a9d28adf38bcd337fe"
  /\ Cache._generate_key "a" "b|c" "medium"
     = "afad8c8481a540e462bcbc49fc8ff105ac25d11c027c20a9d28adf38bcd337fe"
  /\ (forall r,
        fst (Cache.get (Cache.set Cache.global 0 "a|b" "c" "medium" r)
                       1 "a" "b|c" "medium")
        = Some r).
Proof.
  split; [|split; [|split; [|intros r]]; vm_compute; reflexivity].
  intros a b c s. unfold Cache._generate_key, Cache.cache_input. f_equal.
  now rewrite !append_assoc.
Qed.

(* ================================================================== *)
(** * Further properties of the code *)
(* ================================================================== *)

(** ** Slices and occurrences *)

Lemma substring_0_append (sub post : string) :
  substring 0 (String.length sub) (sub ++ post) = sub.
Proof. induction sub as [|c sub IH]; simpl; [now destruct post | now rewrite IH]. Qed.

Lemma substring_at (pre sub post : string) :
  substring (String.length pre) (String.length sub) (pre ++ sub ++ post) = sub.
Proof. induction pre as [|c pre IH]; simpl; [apply substring_0_append | exact IH]. Qed.

(** A substring inside the string is a piece of it. *)
Lemma substring_split (s : string) (n m : nat) :
  (n + m <= String.length s)%nat ->
  exists pre post,
    s = pre ++ substring n m s ++ post /\ String.length pre = n.
Proof.
  revert n m. induction s as [|c s IH]; intros n m H.
  - simpl in H. assert (n = 0%nat) by lia. assert (m = 0%nat) by lia. subst.
    now exists "", "".
  - destruct n as [|n].
    + destruct m as [|m].
      * exists "", (String c s). auto.
      * simpl in H. destruct (IH 0%nat m) as (pre & post & Hs & Hl); [lia|].
        destruct pre; [|discriminate]. simpl in Hs.
        exists "", post. split; [|reflexivity]. simpl. now f_equal.
    + simpl in H. destruct (IH n m) as (pre & post & Hs & Hl); [lia|].
      exists (String c pre), post. simpl. split; [now f_equal | now f_equal].
Qed.

Lemma clamp_inside (n i : Z) : 0 <= i <= n -> Py.clamp n i = i.
Proof. intros H. unfold Py.clamp. destruct (Z.ltb_spec i 0); lia. Qed.

Lemma clamp_range (n i : Z) : 0 <= n -> 0 <= Py.clamp n i <= n.
Proof. intros H. unfold Py.clamp. destruct (Z.ltb_spec i 0); lia. Qed.

Lemma len_append (a b : string) : Py.len (a ++ b) = Py.len a + Py.len b.
Proof. unfold Py.len. rewrite length_append. lia. Qed.

Lemma len_nonneg (s : string) : 0 <= Py.len s.
Proof. unfold Py.len. lia. Qed.

Lemma len_0 (s : string) : Py.len s = 0 -> s = "".
Proof. unfold Py.len. destruct s; simpl; [reflexivity | lia]. Qed.

(** The slice at an occurrence is the text that occurs. *)
Lemma occurs_slice (s sub : string) (i : Z) :
  occurs_at s sub i -> Py.slice s i (i + Py.len sub) = sub.
Proof.
  intros (pre & post & -> & Hi). unfold Py.slice.
  pose proof (len_nonneg sub) as Hs. pose proof (len_nonneg post) as Hp.
  pose proof (len_nonneg pre) as Hpre.
  rewrite !len_append, !clamp_inside by lia.
  destruct (Z.ltb_spec i (i + Py.len sub)) as [Hlt|Hge].
  - replace (i + Py.len sub - i) with (Py.len sub) by lia.
    subst i. unfold Py.len. rewrite !Nat2Z.id. apply substring_at.
  - symmetry. apply len_0. lia.
Qed.

(** A slice that is not empty occurs in the string, at its lower bound. *)
Lemma slice_occurs (s : string) (lo hi : Z) :
  Py.slice s lo hi <> "" ->
  occurs_at s (Py.slice s lo hi) (Py.clamp (Py.len s) lo).
Proof.
  unfold Py.slice. pose proof (len_nonneg s) as Hn.
  pose proof (clamp_range lo Hn) as Hlo. pose proof (clamp_range hi Hn) as Hhi.
  destruct (Z.ltb_spec (Py.clamp (Py.len s) lo) (Py.clamp (Py.len s) hi)) as [Hlt|Hge];
    [intros _ | congruence].
  destruct (@substring_split s (Z.to_nat (Py.clamp (Py.len s) lo))
              (Z.to_nat (Py.clamp (Py.len s) hi - Py.clamp (Py.len s) lo)))
    as (pre & post & Hs & Hl).
  { unfold Py.len in *. lia. }
  exists pre, post. split; [exact Hs|]. unfold Py.len in *. lia.
Qed.

(** An occurrence inside an occurrence. *)
Lemma occurs_at_inner (s mid sub : string) (i j : Z) :
  occurs_at s mid i -> occurs_at mid sub j -> occurs_at s sub (i + j).
Proof.
  intros (pre & post & -> & Hi) (p & q & -> & Hj).
  exists (pre ++ p), (q ++ post). split.
  - now rewrite !append_assoc.
  - rewrite len_append. lia.
Qed.

(** An occurrence in the window of the proximity search is an occurrence
    in the source, at the start of the window plus the local index. *)
Lemma occurs_in_window (s sub : string) (lo hi j : Z) :
  0 <= lo -> sub <> "" ->
  occurs_at (Py.slice s lo hi) sub j -> occurs_at s sub (lo + j).
Proof.
  intros Hlo Hne Hocc.
  assert (Hregion : Py.slice s lo hi <> "").
  { intros E. rewrite E in Hocc. destruct Hocc as (pre & post & H & _).
    destruct pre; [|discriminate]. destruct sub; [congruence | discriminate]. }
  pose proof (slice_occurs s lo hi Hregion) as Hs.
  assert (Hc : Py.clamp (Py.len s) lo = lo).
  { revert Hregion. unfold Py.slice. pose proof (len_nonneg s) as Hn.
    pose proof (clamp_range hi Hn).
    destruct (Z.ltb_spec (Py.clamp (Py.len s) lo) (Py.clamp (Py.len s) hi));
      [intros _ | congruence].
    unfold Py.clamp in *. destruct (Z.ltb_spec lo 0); lia. }
  rewrite Hc in Hs. exact (occurs_at_inner Hs Hocc).
Qed.

(** ** The reconciler: what a valid span is worth *)

(** The span is a claimed one: a text that is not empty, and both
    offsets. *)
Definition claimed (span : Raw.Span) (text : string) (start end_ : Z) : Prop :=
  Raw.text span = Some text /\ text <> ""
  /\ Raw.start span = Some start /\ Raw.end_ span = Some end_.

(** The offsets of the span give its text in the source. *)
Definition exact_in (span : Raw.Span) (source : string) : Prop :=
  exists text start end_,
    claimed span text start end_ /\ Py.slice source start end_ = text.

Lemma reconciled_occurs (source text : string) (start end_ : Z)
  (cb ca : string) (n m : Z) :
  text <> "" ->
  Design.reconciled source text start end_ cb ca (Design.Corrected n m) ->
  occurs_at source text n /\ m = n + Py.len text.
Proof.
  intros Hne H. inversion H as [|k _ Hf|k _ _ Hp|k _ _ _ Hg|]; subst;
    (split; [|reflexivity]).
  - destruct Hf as (_ & i & [Hocc _] & ->).
    destruct Hocc as (pre & post & -> & Hi).
    exists (pre ++ cb), (ca ++ post). split.
    + now rewrite !append_assoc.
    + rewrite len_append. lia.
  - destruct Hp as (j & [Hocc _] & ->).
    apply occurs_in_window with (hi := Z.min (Py.len source) (end_ + 50));
      [lia | exact Hne | exact Hocc].
  - exact (proj1 Hg).
Qed.

(** A claimed span that the reconciler accepts has its text where its
    offsets say. *)
Lemma accepted_span (span : Raw.Span) (source text : string)
  (start end_ : Z) :
  claimed span text start end_ ->
  fst (snd (Engine._validate_single_span span source)) = true ->
  exact_in (fst (Engine._validate_single_span span source)) source
  /\ Raw.text (fst (Engine._validate_single_span span source)) = Raw.text span.
Proof.
  intros (Ht & Hne & Hs & He) Hvalid.
  destruct (validate_single_span_verdict span source Ht Hne Hs He)
    as (v & Hv & Heq).
  rewrite Heq in *. destruct v as [|n m|]; simpl in *.
  - split; [|reflexivity]. exists text, start, end_. repeat split; auto.
    inversion Hv; assumption.
  - destruct (reconciled_occurs Hne Hv) as [Hocc ->].
    split; [|reflexivity]. exists text, n, (n + Py.len text).
    repeat split; auto. now apply occurs_slice.
  - discriminate.
Qed.

(** X1. A claimed span that the reconciler accepts gives, with the offsets
    it has after the call, exactly its text in the source; its text and
    its contexts are left as they were. *)
Theorem valid_span_is_exact (span : Raw.Span) (source text : string)
  (start end_ : Z) :
  claimed span text start end_ ->
  fst (snd (Engine._validate_single_span span source)) = true ->
  exact_in (fst (Engine._validate_single_span span source)) source
  /\ Raw.text (fst (Engine._validate_single_span span source)) = Raw.text span
  /\ Raw.context_before (fst (Engine._validate_single_span span source))
     = Raw.context_before span
  /\ Raw.context_after (fst (Engine._validate_single_span span source))
     = Raw.context_after span.
Proof.
  intros Hc Hvalid.
  destruct (accepted_span source Hc Hvalid) as [Hexact Htext].
  split; [exact Hexact|]. split; [exact Htext|].
  destruct Hc as (Ht & Hne & Hs & He).
  destruct (validate_single_span_verdict span source Ht Hne Hs He)
    as (v & _ & Heq).
  rewrite Heq. destruct v; split; reflexivity.
Qed.

Definition off_by_two : Raw.Span :=
  Raw.mkSpan (Some "sat") (Some 6) (Some 9) None None.

Lemma valid_span_is_exact_witness :
  exact_in (fst (Engine._validate_single_span off_by_two cat_source)) cat_source
  /\ Raw.text (fst (Engine._validate_single_span off_by_two cat_source))
     = Raw.text off_by_two
  /\ Raw.context_before (fst (Engine._validate_single_span off_by_two cat_source))
     = Raw.context_before off_by_two
  /\ Raw.context_after (fst (Engine._validate_single_span off_by_two cat_source))
     = Raw.context_after off_by_two.
Proof.
  apply (@valid_span_is_exact off_by_two cat_source "sat" 6 9).
  - repeat split; (reflexivity || discriminate).
  - reflexivity.
Defined.

(** X2. A claimed span is discarded exactly when its text occurs nowhere
    in the source: the offsets and the contexts the oracle gave never
    cost a change whose text is in the source. *)
Theorem discarded_iff_absent (span : Raw.Span) (source text : string)
  (start end_ : Z) :
  claimed span text start end_ ->
  (fst (snd (Engine._validate_single_span span source)) = false
   <-> forall j, ~ occurs_at source text j).
Proof.
  intros Hc. pose proof Hc as (Ht & Hne & Hs & He). split.
  - intros Hinvalid.
    destruct (validate_single_span_verdict span source Ht Hne Hs He)
      as (v & Hv & Heq).
    rewrite Heq in Hinvalid. destruct v; simpl in Hinvalid; try discriminate.
    inversion Hv as [| | | |_ _ _ Hg]; subst.
    destruct (find_spec source text) as [[_ Hno]|[_ Hfirst]]; [exact Hno|].
    exfalso. exact (Hg _ Hfirst).
  - intros Hno.
    destruct (fst (snd (Engine._validate_single_span span source))) eqn:Hvalid;
      [|reflexivity].
    destruct (accepted_span source Hc Hvalid)
      as ((t & s & e & (Ht' & _ & _ & _) & Hslice) & Htext).
    rewrite Htext, Ht in Ht'. injection Ht' as <-.
    exfalso. apply (Hno (Py.clamp (Py.len source) s)).
    rewrite <- Hslice at 1. apply slice_occurs. now rewrite Hslice.
Qed.

Lemma discarded_iff_absent_witness :
  fst (snd (Engine._validate_single_span dog cat_source)) = false
  <-> forall j, ~ occurs_at cat_source "dog" j.
Proof.
  apply (@discarded_iff_absent dog cat_source "dog" 4 7).
  repeat split; (reflexivity || discriminate).
Defined.

Lemma validate_unclaimed (span : Raw.Span) (source : string) :
  Py.truthy (Models.from_option "" (Raw.text span)) = false
  \/ Raw.start span = None \/ Raw.end_ span = None ->
  Engine._validate_single_span span source = (span, (true, false)).
Proof.
  unfold Engine._validate_single_span.
  destruct (Raw.start span), (Raw.end_ span); intros [H|[H|H]];
    try discriminate; try reflexivity.
  now rewrite H.
Qed.

(** What a second call returns: the span as the first call left it, the
    same validity, and no correction. *)
Lemma validate_single_span_again (span : Raw.Span) (source : string) :
  Engine._validate_single_span
    (fst (Engine._validate_single_span span source)) source
  = (fst (Engine._validate_single_span span source),
     (fst (snd (Engine._validate_single_span span source)), false)).
Proof.
  destruct (Py.truthy (Models.from_option "" (Raw.text span))) eqn:Htr.
  2:{ rewrite (@validate_unclaimed span source) by auto. simpl.
      apply validate_unclaimed. auto. }
  destruct (Raw.start span) as [start|] eqn:Hs.
  2:{ rewrite (@validate_unclaimed span source) by auto. simpl.
      apply validate_unclaimed. auto. }
  destruct (Raw.end_ span) as [end_|] eqn:He.
  2:{ rewrite (@validate_unclaimed span source) by auto. simpl.
      apply validate_unclaimed. auto. }
  destruct (Raw.text span) as [text|] eqn:Ht; [|discriminate].
  simpl in Htr. apply truthy_iff in Htr.
  assert (Hc : claimed span text start end_) by (repeat split; assumption).
  destruct (fst (snd (Engine._validate_single_span span source))) eqn:Hvalid.
  - destruct (accepted_span source Hc Hvalid)
      as ((t & s & e & (Ht' & Hne' & Hs' & He') & Hslice) & _).
    destruct (fst (Engine._validate_single_span span source)) as [t0 s0 e0 cb0 ca0].
    simpl in *. subst. unfold Engine._validate_single_span. simpl.
    apply truthy_iff in Hne'. rewrite Hne'. simpl.
    now rewrite String.eqb_refl.
  - destruct (validate_single_span_verdict span source Ht Htr Hs He)
      as (v & Hv & Heq).
    rewrite Heq in Hvalid |- *. destruct v; simpl in Hvalid; try discriminate.
    simpl. rewrite Heq. reflexivity.
Qed.

(** ** The reconciler over a response *)

Lemma validate_span_truthy (span : Raw.Span) (source : string) :
  Raw.span_truthy span = true ->
  Raw.span_truthy (fst (Engine._validate_single_span span source)) = true.
Proof.
  intros H. unfold Engine._validate_single_span.
  destruct (Raw.start span), (Raw.end_ span); try exact H.
  repeat match goal with
         | |- context [if ?b then _ else _] => destruct b
         end; simpl; try exact H;
    unfold Raw.span_truthy; simpl; now destruct (Raw.text span).
Qed.

Lemma check_side_again (side : option Raw.Span) (source : string) :
  Engine.check_side (fst (Engine.check_side side source)) source
  = (fst (Engine.check_side side source),
     (fst (snd (Engine.check_side side source)), false)).
Proof.
  unfold Engine.check_side at 2 3 4.
  destruct side as [sp|]; [|reflexivity].
  destruct (Raw.span_truthy sp) eqn:Htr.
  - pose proof (validate_span_truthy sp source Htr) as Htr'.
    pose proof (validate_single_span_again sp source) as Hagain.
    destruct (Engine._validate_single_span sp source) as [sp' flags].
    simpl in *. unfold Engine.check_side. rewrite Htr', Hagain. reflexivity.
  - simpl. unfold Engine.check_side. now rewrite Htr.
Qed.

(** A change that was kept is kept again, as it is. *)
Lemma kept_of_kept (original_text generated_text : string)
  (change change' : Raw.Change) :
  In change' (kept_of original_text generated_text change) ->
  kept_of original_text generated_text change' = [change'].
Proof.
  unfold kept_of, Engine.fix_step.
  pose proof (check_side_again (Raw.original_span change) original_text) as Ho.
  pose proof (check_side_again (Raw.generated_span change) generated_text) as Hg.
  destruct (Engine.check_side (Raw.original_span change) original_text)
    as [o [[|] co]]; simpl in *; [|contradiction].
  destruct (Engine.check_side (Raw.generated_span change) generated_text)
    as [g [[|] cg]]; simpl in *; [|contradiction].
  intros [<-|[]]. simpl. rewrite Ho, Hg. reflexivity.
Qed.

Lemma kept_flat_map (original_text generated_text : string)
  (l : list Raw.Change) :
  kept original_text generated_text l
  = flat_map (kept_of original_text generated_text) l.
Proof. unfold kept, Engine.fix_loop. now rewrite fix_loop_valid_changes. Qed.

Lemma kept_kept (original_text generated_text : string) (l : list Raw.Change) :
  kept original_text generated_text (kept original_text generated_text l)
  = kept original_text generated_text l.
Proof.
  rewrite !kept_flat_map.
  induction l as [|c l IH]; [reflexivity|].
  simpl. rewrite flat_map_app, IH. f_equal.
  pose proof (@kept_of_kept original_text generated_text c) as H.
  induction (kept_of original_text generated_text c) as [|c' k IHk];
    [reflexivity|].
  simpl. rewrite (H c') by now left. simpl. f_equal.
  apply IHk. intros x Hx. apply H. now right.
Qed.

(** X3. [_validate_and_fix_spans] is idempotent: a second pass over its
    result drops nothing and corrects nothing. *)
Theorem fix_spans_idempotent (response_data : Raw.Response)
  (original_text generated_text : string) :
  Engine._validate_and_fix_spans
    (Engine._validate_and_fix_spans response_data original_text generated_text)
    original_text generated_text
  = Engine._validate_and_fix_spans response_data original_text generated_text.
Proof.
  unfold Engine._validate_and_fix_spans.
  destruct (Raw.changes response_data) as [l|] eqn:Hl; [|now rewrite Hl].
  simpl. unfold Raw.set_changes. simpl. f_equal. f_equal. apply kept_kept.
Qed.

(** The side of a change, when it is a claimed span, gives its text in
    the source. *)
Definition anchored (side : option Raw.Span) (source : string) : Prop :=
  forall span text start end_,
    side = Some span -> claimed span text start end_ ->
    Py.slice source start end_ = text.

Lemma check_side_anchored (side : option Raw.Span) (source : string) :
  fst (snd (Engine.check_side side source)) = true ->
  anchored (fst (Engine.check_side side source)) source.
Proof.
  intros Hvalid span text start end_ Hside Hc.
  pose proof (check_side_again side source) as Hagain.
  rewrite Hside, Hvalid in Hagain. unfold Engine.check_side in Hagain.
  assert (Htr : Raw.span_truthy span = true).
  { destruct Hc as (Ht & _). unfold Raw.span_truthy. now rewrite Ht. }
  rewrite Htr in Hagain.
  destruct (Engine._validate_single_span span source) as [sp' flags] eqn:Hv.
  injection Hagain as -> ->.
  assert (Hvalid' : fst (snd (Engine._validate_single_span span source)) = true)
    by now rewrite Hv.
  destruct (accepted_span source Hc Hvalid')
    as ((t & s & e & (Ht' & _ & Hs' & He') & Hslice) & _).
  rewrite Hv in *. simpl in *.
  destruct Hc as (Ht & _ & Hs & He). congruence.
Qed.

Definition anchored_in (original_text generated_text : string)
  (change : Raw.Change) : Prop :=
  anchored (Raw.original_span change) original_text
  /\ anchored (Raw.generated_span change) generated_text.

Lemma kept_of_anchored (original_text generated_text : string)
  (c : Raw.Change) :
  Forall (anchored_in original_text generated_text)
         (kept_of original_text generated_text c).
Proof.
  unfold kept_of, Engine.fix_step.
  pose proof (check_side_anchored (Raw.original_span c) original_text) as Ho.
  pose proof (check_side_anchored (Raw.generated_span c) generated_text) as Hg.
  destruct (Engine.check_side (Raw.original_span c) original_text)
    as [o [[|] co]]; simpl in *; [|constructor].
  destruct (Engine.check_side (Raw.generated_span c) generated_text)
    as [g [[|] cg]]; simpl in *; constructor; [|constructor].
  split; simpl; auto.
Qed.

(** X4. In every change that [_validate_and_fix_spans] keeps, a claimed
    span points at its text: [original_text[start:end]] is the text of
    the original span, [generated_text[start:end]] that of the generated
    span. *)
Theorem kept_changes_are_anchored (original_text generated_text : string)
  (l : list Raw.Change) :
  Forall (anchored_in original_text generated_text)
         (kept original_text generated_text l).
Proof.
  rewrite kept_flat_map. apply Forall_flat_map. apply Forall_forall.
  intros c _. apply kept_of_anchored.
Qed.

(** The counters of [_validate_and_fix_spans]: every change is either
    kept or counted as removed, and at most two corrections are counted
    for a change. *)
Lemma fix_loop_counts (original_text generated_text : string)
  (l : list Raw.Change) :
  let st := Engine.fix_loop original_text generated_text l in
  Z.of_nat (List.length (Engine.valid_changes st)) + Engine.removed_count st
  = Z.of_nat (List.length l)
  /\ 0 <= Engine.removed_count st
  /\ 0 <= Engine.corrected_count st <= 2 * Z.of_nat (List.length l).
Proof.
  unfold Engine.fix_loop.
  assert (H : forall st,
             let st' := fold_left (Engine.fix_step original_text generated_text) l st in
             Z.of_nat (List.length (Engine.valid_changes st')) + Engine.removed_count st'
             = Z.of_nat (List.length (Engine.valid_changes st)) + Engine.removed_count st
               + Z.of_nat (List.length l)
             /\ Engine.removed_count st <= Engine.removed_count st'
             /\ Engine.corrected_count st <= Engine.corrected_count st'
                <= Engine.corrected_count st + 2 * Z.of_nat (List.length l)).
  { induction l as [|c l IH]; intros st; cbn [fold_left List.length].
    - lia.
    - specialize (IH (Engine.fix_step original_text generated_text st c)).
      cbv zeta in IH |- *.
      assert (Hstep :
        Z.of_nat (List.length (Engine.valid_changes
                    (Engine.fix_step original_text generated_text st c)))
        + Engine.removed_count (Engine.fix_step original_text generated_text st c)
        = Z.of_nat (List.length (Engine.valid_changes st)) + Engine.removed_count st + 1
        /\ Engine.removed_count st
           <= Engine.removed_count (Engine.fix_step original_text generated_text st c)
        /\ Engine.corrected_count st
           <= Engine.corrected_count (Engine.fix_step original_text generated_text st c)
           <= Engine.corrected_count st + 2).
      { unfold Engine.fix_step.
        destruct (Engine.check_side (Raw.original_span c) original_text)
          as [o [[|] [|]]];
          destruct (Engine.check_side (Raw.generated_span c) generated_text)
            as [g [[|] [|]]];
          cbn [Engine.valid_changes Engine.removed_count Engine.corrected_count
               Engine.count negb];
          rewrite ?length_app; cbn [List.length]; lia. }
      rewrite Nat2Z.inj_succ. lia. }
  specialize (H (Engine.mkFix [] 0 0)). cbv zeta in H |- *.
  cbn [Engine.valid_changes Engine.removed_count Engine.corrected_count
       List.length] in H. lia.
Qed.

(** ** The splitter: what a chunk is made of *)

(** The invariant of the loop of [_split_into_chunks] with the groups of
    paragraphs behind the chunks: the closed chunks are the joins of the
    groups [gs], no group is empty, the groups and the current chunk make
    up the paragraphs seen, and the length the loop keeps is at least the
    length of the current chunk once joined. A group of more than one
    paragraph is at most [max_chunk_size + 2] long. *)
Definition small_or_single (max_chunk_size : Z) (g : list string) : Prop :=
  (exists p, g = [p]) \/ Py.len (Py.join Py.nlnl g) <= max_chunk_size + 2.

Definition groups_inv (max_chunk_size : Z) (st : Engine.split_state)
  (gs : list (list string)) (seen : list string) : Prop :=
  Engine.chunks st = map (Py.join Py.nlnl) gs
  /\ Forall (fun g => g <> [] /\ small_or_single max_chunk_size g) gs
  /\ (List.concat gs ++ Engine.current_chunk st)%list = seen
  /\ 0 <= Engine.current_length st
  /\ (Engine.current_chunk st <> [] ->
      Py.len (Py.join Py.nlnl (Engine.current_chunk st)) <= Engine.current_length st
      /\ small_or_single max_chunk_size (Engine.current_chunk st)).

Lemma len_join_snoc (l : list string) (p : string) :
  l <> [] ->
  Py.len (Py.join Py.nlnl (l ++ [p]))
  = Py.len (Py.join Py.nlnl l) + 2 + Py.len p.
Proof.
  intros H. rewrite join_snoc by exact H. rewrite !len_append.
  change (Py.len Py.nlnl) with 2. lia.
Qed.

Lemma groups_step (max_chunk_size : Z) (st : Engine.split_state)
  (gs : list (list string)) (seen : list string) (para : string) :
  groups_inv max_chunk_size st gs seen ->
  exists gs',
    groups_inv max_chunk_size (Engine.split_step max_chunk_size st para) gs'
               (seen ++ [para]).
Proof.
  intros (Hch & Hgs & Hseen & Hpos & Hcur). unfold Engine.split_step.
  pose proof (len_nonneg para) as Hpara.
  destruct (Engine.current_chunk st) as [|p cur] eqn:Hc.
  - (* the first paragraph *)
    simpl Engine.nonempty. rewrite andb_false_r. rewrite app_nil_r in Hseen.
    exists gs. unfold groups_inv. cbn [Engine.chunks Engine.current_chunk
                                       Engine.current_length app].
    repeat split; auto.
    + now rewrite <- Hseen.
    + lia.
    + change (Py.join Py.nlnl [para]) with para. lia.
    + left. now exists para.
  - destruct Hcur as [Hlen Hsmall]; [congruence|].
    simpl Engine.nonempty. rewrite andb_true_r.
    destruct (Z.gtb_spec (Engine.current_length st + Py.len para) max_chunk_size)
      as [Hgt|Hle].
    + (* the current chunk is closed *)
      exists (gs ++ [p :: cur])%list. unfold groups_inv.
      cbn [Engine.chunks Engine.current_chunk Engine.current_length].
      repeat split.
      * rewrite map_app, Hch. reflexivity.
      * apply Forall_app. split; [exact Hgs|].
        constructor; [|constructor]. split; [congruence | exact Hsmall].
      * rewrite concat_app. simpl. rewrite app_nil_r, <- Hseen.
        now rewrite <- app_assoc.
      * lia.
      * change (Py.join Py.nlnl [para]) with para. lia.
      * left. now exists para.
    + (* the paragraph joins the current chunk *)
      exists gs. unfold groups_inv.
      cbn [Engine.chunks Engine.current_chunk Engine.current_length].
      assert (Hj : Py.len (Py.join Py.nlnl ((p :: cur) ++ [para]))
                   = Py.len (Py.join Py.nlnl (p :: cur)) + 2 + Py.len para)
        by (apply len_join_snoc; congruence).
      repeat split; auto.
      * rewrite <- Hseen. now rewrite <- app_assoc.
      * lia.
      * rewrite Hj. lia.
      * right. rewrite Hj. lia.
Qed.

Lemma groups_loop (max_chunk_size : Z) (paragraphs : list string)
  (st : Engine.split_state) (gs : list (list string)) (seen : list string) :
  groups_inv max_chunk_size st gs seen ->
  exists gs',
    groups_inv max_chunk_size
      (fold_left (Engine.split_step max_chunk_size) paragraphs st) gs'
      (seen ++ paragraphs).
Proof.
  revert st gs seen. induction paragraphs as [|para ps IH]; intros st gs seen H.
  - exists gs. simpl. now rewrite app_nil_r.
  - destruct (groups_step para H) as (gs1 & H1).
    destruct (IH _ _ _ H1) as (gs2 & H2).
    exists gs2. simpl. now rewrite <- app_assoc in H2.
Qed.

(** X5. The chunks are the joins of runs of whole paragraphs, taken in
    order and none empty: no chunk ends inside a paragraph, and a chunk
    made of more than one paragraph is at most [max_chunk_size + 2]
    characters long (two more than the size asked for: a chunk that is
    not the first is counted without its first separator). A paragraph
    longer than that is a chunk of its own. *)
Theorem chunks_are_paragraph_groups (text : string) (max_chunk_size : Z) :
  exists groups,
    Engine._split_into_chunks text max_chunk_size
    = map (Py.join Py.nlnl) groups
    /\ List.concat groups = Py.split_nlnl text
    /\ Forall (fun g =>
                 g <> []
                 /\ ((exists p, g = [p])
                     \/ Py.len (Py.join Py.nlnl g) <= max_chunk_size + 2))
              groups.
Proof.
  unfold Engine._split_into_chunks.
  destruct (Z.leb_spec (Py.len text) max_chunk_size) as [Hle|Hgt].
  - exists [Py.split_nlnl text]. repeat split.
    + simpl. now rewrite join_split_nlnl.
    + simpl. apply app_nil_r.
    + constructor; [|constructor]. split; [apply split_nlnl_nonempty|].
      right. rewrite join_split_nlnl. lia.
  - destruct (@groups_loop max_chunk_size (Py.split_nlnl text)
                (Engine.mkSplit [] [] 0) [] [])
      as (gs & Hch & Hgs & Hseen & _ & Hcur).
    { unfold groups_inv. simpl. repeat split; auto; try congruence; lia. }
    simpl app in Hseen.
    destruct (Engine.current_chunk _) as [|p cur] eqn:Hc.
    + exists gs. simpl. rewrite app_nil_r in Hseen. auto.
    + destruct Hcur as [_ Hsmall]; [congruence|].
      exists (gs ++ [p :: cur])%list. simpl. repeat split.
      * now rewrite map_app, Hch.
      * rewrite concat_app. simpl. now rewrite app_nil_r.
      * apply Forall_app. split; [exact Hgs|].
        constructor; [|constructor]. split; [congruence | exact Hsmall].
Qed.

(** The bound is reached: with a size of 5, the second chunk of this
    text has 7 characters. *)
Example chunk_of_size_plus_two :
  Engine._split_into_chunks
    ("aaaa" ++ Py.nlnl ++ "bb" ++ Py.nlnl ++ "ccc" ++ Py.nlnl ++ "d") 5
  = ["aaaa"; "bb" ++ Py.nlnl ++ "ccc"; "d"].
Proof. reflexivity. Qed.


(** ** The retry policy and the cost of a comparison *)

(** X6. What [_call_llm_with_retry] does with the attempts [o 0], [o 1],
    ...: it makes between one and three of them, every attempt before
    the last one failed with an exception of the retry policy, the
    outcome is that of the last attempt, and when it stops before the
    third attempt that outcome is a reply or an exception outside the
    policy. *)
Theorem retry_policy (o : nat -> Engine.attempt) :
  let outcome := fst (Engine._call_llm_with_retry o) in
  let n := snd (Engine._call_llm_with_retry o) in
  (1 <= n <= 3)%nat
  /\ outcome = o (n - 1)%nat
  /\ (forall k, (k < n - 1)%nat ->
        exists e, o k = Engine.Fails e /\ Engine.retryable e = true)
  /\ ((n < 3)%nat ->
      (exists raw_content, outcome = Engine.Replies raw_content)
      \/ exists e, outcome = Engine.Fails e /\ Engine.retryable e = false).
Proof.
  unfold Engine._call_llm_with_retry. cbn [Engine.retry_loop].
  destruct (o 0%nat) as [e0|c0] eqn:H0.
  2:{ simpl. rewrite H0. repeat split; try lia; eauto. }
  destruct (Engine.retryable e0) eqn:R0.
  2:{ simpl. rewrite H0. repeat split; try lia; eauto. }
  destruct (o 1%nat) as [e1|c1] eqn:H1.
  2:{ simpl. rewrite H1. repeat split; try lia; eauto.
      intros k Hk. assert (k = 0%nat) by lia. subst. eauto. }
  destruct (Engine.retryable e1) eqn:R1.
  2:{ simpl. rewrite H1. repeat split; try lia; eauto.
      intros k Hk. assert (k = 0%nat) by lia. subst. eauto. }
  assert (Hprev : forall k, (k < 2)%nat ->
                    exists e, o k = Engine.Fails e /\ Engine.retryable e = true).
  { intros k Hk. destruct k as [|[|k]]; [eauto | eauto | lia]. }
  destruct (o 2%nat) as [e2|c2] eqn:H2; simpl; rewrite H2;
    repeat split; try lia; auto.
Qed.

Lemma retry_at_most_three (o : nat -> Engine.attempt) :
  (snd (Engine._call_llm_with_retry o) <= 3)%nat.
Proof.
  unfold Engine._call_llm_with_retry. cbn [Engine.retry_loop].
  destruct (o 0%nat) as [e0|c0]; [destruct (Engine.retryable e0)|]; simpl;
    try lia.
  destruct (o 1%nat) as [e1|c1]; [destruct (Engine.retryable e1)|]; simpl;
    try lia.
  destruct (o 2%nat); simpl; lia.
Qed.

Lemma single_chunk_cost (env : Engine.Env) (c : Cache.ResponseCache)
  (chunk_request : Models.CompareRequest) (chunk_index : nat) (model : string) :
  (snd (Engine._analyze_single_chunk env c chunk_request chunk_index model) <= 3)%nat.
Proof.
  unfold Engine._analyze_single_chunk.
  destruct (Engine.cache_get c (Engine.t_lookup env) chunk_request)
    as [[cached|] c1]; simpl; [lia|].
  pose proof (retry_at_most_three
                (Engine.oracle env (Engine.call_of chunk_request model) chunk_index)) as H.
  destruct (Engine._call_llm_with_retry _) as [outcome n].
  destruct (Engine.chunk_finish _ _ _ _ _) as [r c2]. exact H.
Qed.








(** ** The response cache *)

Lemma dict_find_set_same (d : Cache.dict) (k : string) (e : Cache.Entry) :
  Cache.dict_find (Cache.dict_set d k e) k = Some e.
Proof.
  induction d as [|[k' e'] d IH]; simpl.
  - now rewrite String.eqb_refl.
  - destruct (k' =? k)%string eqn:E; simpl.
    + now rewrite String.eqb_refl.
    + now rewrite E.
Qed.

Lemma dict_find_del_same (d : Cache.dict) (k : string) :
  Cache.dict_find (Cache.dict_del d k) k = None.
Proof.
  unfold Cache.dict_del.
  induction d as [|[k' e'] d IH]; simpl; [reflexivity|].
  destruct (k' =? k)%string eqn:E; simpl; [exact IH|]. now rewrite E.
Qed.

Lemma length_dict_set (d : Cache.dict) (k : string) (e : Cache.Entry) :
  (List.length (Cache.dict_set d k e) <= S (List.length d))%nat.
Proof.
  induction d as [|[k' e'] d IH]; simpl; [lia|].
  destruct (k' =? k)%string; simpl; lia.
Qed.

Lemma length_dict_del (d : Cache.dict) (k : string) :
  (List.length (Cache.dict_del d k) <= List.length d)%nat.
Proof. apply filter_length_le. Qed.

Lemma length_dict_del_in (d : Cache.dict) (x : string * Cache.Entry) :
  In x d -> (List.length (Cache.dict_del d (fst x)) < List.length d)%nat.
Proof.
  unfold Cache.dict_del.
  induction d as [|y d IH]; simpl; [tauto|].
  intros [->|H].
  - rewrite String.eqb_refl. simpl.
    pose proof (filter_length_le (fun p => negb (fst p =? fst x)%string) d). lia.
  - specialize (IH H). destruct (negb _); simpl; lia.
Qed.

Lemma length_dict_del_keys (keys : list string) (d : Cache.dict) :
  (List.length (fold_left Cache.dict_del keys d) <= List.length d)%nat.
Proof.
  revert d. induction keys as [|k keys IH]; intros d; simpl; [lia|].
  etransitivity; [apply IH | apply length_dict_del].
Qed.

Lemma insert_sorted_in (x y : string * Cache.Entry) (l : Cache.dict) :
  In y (Cache.insert_sorted x l) -> y = x \/ In y l.
Proof.
  induction l as [|z l IH]; simpl.
  - intros [<-|[]]. now left.
  - destruct (_ <? _); simpl.
    + intros [<-|H]; [now left | now right].
    + intros [<-|H]; [right; now left|].
      destruct (IH H) as [->|H']; [now left | right; now right].
Qed.

Lemma sorted_by_created_in (d : Cache.dict) (y : string * Cache.Entry) :
  In y (Cache.sorted_by_created d) -> In y d.
Proof.
  unfold Cache.sorted_by_created.
  assert (G : forall acc, In y (fold_left (fun acc x => Cache.insert_sorted x acc) d acc)
                          -> In y acc \/ In y d).
  { induction d as [|x d IH]; intros acc; simpl; [now left|].
    intros H. destruct (IH _ H) as [H'|H']; [|right; now right].
    destruct (insert_sorted_in _ _ _ H') as [->|H'']; [right; now left | now left]. }
  intros H. destruct (G [] H) as [[]|H']. exact H'.
Qed.

Lemma length_insert_sorted (x : string * Cache.Entry) (l : Cache.dict) :
  List.length (Cache.insert_sorted x l) = S (List.length l).
Proof.
  induction l as [|z l IH]; simpl; [reflexivity|].
  destruct (_ <? _); simpl; congruence.
Qed.

Lemma length_sorted_by_created (d : Cache.dict) :
  List.length (Cache.sorted_by_created d) = List.length d.
Proof.
  unfold Cache.sorted_by_created.
  assert (G : forall acc,
             List.length (fold_left (fun acc x => Cache.insert_sorted x acc) d acc)
             = (List.length acc + List.length d)%nat).
  { induction d as [|x d IH]; intros acc; simpl; [lia|].
    rewrite IH, length_insert_sorted. lia. }
  now rewrite G.
Qed.

(** What [_cleanup] leaves of a cache that is full. *)
Lemma cleanup_makes_room (c : Cache.ResponseCache) (now : Z) :
  1 <= Cache.max_size c ->
  Z.of_nat (List.length (Cache._cache c)) <= Cache.max_size c ->
  Z.of_nat (List.length (Cache._cache (Cache._cleanup c now))) < Cache.max_size c.
Proof.
  intros Hmax Hlen. unfold Cache._cleanup.
  set (d := fold_left Cache.dict_del _ (Cache._cache c)).
  assert (Hd : (List.length d <= List.length (Cache._cache c))%nat)
    by apply length_dict_del_keys.
  destruct (_ >=? _) eqn:E; simpl; [|lia].
  destruct (Cache.sorted_by_created d) as [|x sorted_entries] eqn:Hs.
  { pose proof (length_sorted_by_created d) as L. rewrite Hs in L. simpl in L. lia. }
  assert (Hx : In x d) by (apply sorted_by_created_in; rewrite Hs; now left).
  set (remove_count := Z.max 1 _).
  destruct (Z.to_nat remove_count) as [|n] eqn:Hn; [lia|].
  simpl. pose proof (length_dict_del_keys
                       (map fst (firstn n sorted_entries))
                       (Cache.dict_del d (fst x))).
  pose proof (length_dict_del_in d x Hx). lia.
Qed.

(** X8. The bound on the size of the cache. In a cache made for at least
    one entry and holding at most [max_size] entries, [set] leaves at most
    [max_size] entries, whatever is stored. *)
Theorem set_keeps_size_bound (c : Cache.ResponseCache) (now : Z)
  (original_text generated_text sensitivity : string)
  (response_data : Models.DiffResponse) :
  1 <= Cache.max_size c ->
  Z.of_nat (List.length (Cache._cache c)) <= Cache.max_size c ->
  Z.of_nat (List.length
              (Cache._cache (Cache.set c now original_text generated_text
                                       sensitivity response_data)))
  <= Cache.max_size c.
Proof.
  intros Hmax Hlen. unfold Cache.set.
  pose proof (cleanup_makes_room c now Hmax Hlen) as Hroom.
  destruct (_ >=? _) eqn:E; cbn [Cache._cache Cache.with_cache];
    match goal with
    | |- context [Cache.dict_set ?d ?k ?e] =>
        pose proof (length_dict_set d k e)
    end; lia.
Qed.

Definition two_entries : Cache.ResponseCache :=
  Cache.mkCache
    [ ("k1", Cache.mkEntry Engine.neutral 50 10);
      ("k2", Cache.mkEntry Engine.neutral 60 20) ] 1 2 0 0.

Lemma set_keeps_size_bound_witness :
  1 <= Cache.max_size two_entries
  /\ Z.of_nat (List.length (Cache._cache two_entries)) <= Cache.max_size two_entries
  /\ Z.of_nat (List.length
                 (Cache._cache (Cache.set two_entries 30 "a" "b" "low" Engine.neutral)))
     <= Cache.max_size two_entries.
Proof.
  split; [simpl; lia|]. split; [simpl; lia|].
  apply set_keeps_size_bound; simpl; lia.
Defined.

(** X9. [_cleanup] at time [now] leaves no entry that has expired by
    then. *)
Theorem cleanup_purges_expired (c : Cache.ResponseCache) (now : Z) :
  Forall (fun item => Cache.expires_at (snd item) >= now)
         (Cache._cache (Cache._cleanup c now)).
Proof.
  unfold Cache._cleanup.
  set (fresh := fun item : string * Cache.Entry => Cache.expires_at (snd item) >= now).
  assert (Hdel : forall keys d, Forall fresh d ->
                   Forall fresh (fold_left Cache.dict_del keys d)).
  { induction keys as [|k keys IH]; intros d H; simpl; [exact H|].
    apply IH. unfold Cache.dict_del. rewrite Forall_forall in *.
    intros p Hp. apply filter_In in Hp. now apply H. }
  assert (Hd : Forall fresh
                 (fold_left Cache.dict_del
                    (map fst (filter (fun p => now >? Cache.expires_at (snd p))
                                     (Cache._cache c)))
                    (Cache._cache c))).
  { assert (G : forall keys d',
               (forall p, In p d' -> In (fst p) keys \/ fresh p) ->
               Forall fresh (fold_left Cache.dict_del keys d')).
    { induction keys as [|k keys IH]; intros d' H; simpl.
      - rewrite Forall_forall. intros p Hp. destruct (H p Hp) as [[]|Hf]. exact Hf.
      - apply IH. intros p Hp. unfold Cache.dict_del in Hp.
        apply filter_In in Hp. destruct Hp as [Hp Hk]. cbv beta in Hk.
        destruct (H p Hp) as [[Hkp|Hin]|Hf]; [|now left | now right].
        rewrite Hkp, String.eqb_refl in Hk. discriminate. }
    apply G. intros p Hp.
    destruct (now >? Cache.expires_at (snd p)) eqn:E.
    - left. apply in_map. apply filter_In. now split.
    - right. unfold fresh. lia. }
  destruct (_ >=? _); cbn [Cache._cache Cache.with_cache]; [apply Hdel|]; exact Hd.
Qed.

(** What [_cleanup], [set] and [get] leave as they are. *)
Lemma cleanup_settings (c : Cache.ResponseCache) (now : Z) :
  Cache.ttl_seconds (Cache._cleanup c now) = Cache.ttl_seconds c
  /\ Cache.max_size (Cache._cleanup c now) = Cache.max_size c.
Proof. unfold Cache._cleanup. destruct (_ >=? _); simpl; split; reflexivity. Qed.

Lemma set_settings (c : Cache.ResponseCache) (now : Z) (a b s : string)
  (r : Models.DiffResponse) :
  Cache.ttl_seconds (Cache.set c now a b s r) = Cache.ttl_seconds c
  /\ Cache.max_size (Cache.set c now a b s r) = Cache.max_size c.
Proof.
  unfold Cache.set. cbn [Cache.ttl_seconds Cache.max_size Cache.with_cache].
  destruct (_ >=? _); [apply cleanup_settings | split; reflexivity].
Qed.


(** The entry that [set] leaves under the key of its inputs. *)
Lemma find_after_set (c : Cache.ResponseCache) (now : Z)
  (original_text generated_text sensitivity : string)
  (response_data : Models.DiffResponse) :
  Cache.dict_find
    (Cache._cache (Cache.set c now original_text generated_text sensitivity
                             response_data))
    (Cache._generate_key original_text generated_text sensitivity)
  = Some (Cache.mkEntry response_data
            (now + Cache.ttl_seconds c * 1000000) now).
Proof.
  unfold Cache.set. cbn [Cache._cache Cache.with_cache].
  rewrite dict_find_set_same. do 3 f_equal.
  destruct (_ >=? _); [|reflexivity].
  now rewrite (proj1 (cleanup_settings c now)).
Qed.

(** X10. A response that was stored is served until it expires, and not
    after. A [get] at a time [later] for the inputs of a [set] at time
    [now] gives the stored response and counts a hit when [later] is at
    most [ttl_seconds] after [now]; after that it gives nothing, counts a
    miss and removes the entry. *)
Theorem set_then_get (c : Cache.ResponseCache) (now later : Z)
  (original_text generated_text sensitivity : string)
  (response_data : Models.DiffResponse) :
  let c1 := Cache.set c now original_text generated_text sensitivity
                      response_data in
  let cache_key := Cache._generate_key original_text generated_text sensitivity in
  Cache.get c1 later original_text generated_text sensitivity
  = if later >? now + Cache.ttl_seconds c * 1000000
    then (None,
          Cache.count_miss
            (Cache.with_cache c1 (Cache.dict_del (Cache._cache c1) cache_key)))
    else (Some response_data, Cache.count_hit c1).
Proof.
  intros c1 cache_key. unfold Cache.get. subst c1 cache_key.
  rewrite find_after_set. reflexivity.
Qed.

(** After the miss of an expired entry the key is gone. *)
Lemma expired_entry_is_removed (c : Cache.ResponseCache) (now : Z)
  (a b s : string) (e : Cache.Entry) :
  Cache.dict_find (Cache._cache c) (Cache._generate_key a b s) = Some e ->
  now > Cache.expires_at e ->
  Cache.dict_find (Cache._cache (snd (Cache.get c now a b s)))
                  (Cache._generate_key a b s) = None.
Proof.
  intros H Hexp. unfold Cache.get. rewrite H.
  destruct (now >? Cache.expires_at e) eqn:E; [|lia].
  simpl. apply dict_find_del_same.
Qed.

(** ** A request asked again *)






(** ** Requests that fail *)

Lemma nth_pad_chunks (n i : nat) (l : list string) :
  nth i (Engine.pad_chunks n l) "" = nth i l "".
Proof.
  unfold Engine.pad_chunks.
  destruct (Nat.lt_ge_cases i (List.length l)) as [H|H].
  - now rewrite app_nth1.
  - rewrite app_nth2 by exact H. rewrite (nth_overflow l) by exact H.
    destruct (Nat.lt_ge_cases (i - List.length l) (n - List.length l)) as [H'|H'].
    + now rewrite nth_repeat_lt.
    + apply nth_overflow. now rewrite repeat_length.
Qed.

Lemma enumerate_in {A : Type} (l : list A) (i : nat) (d : A) :
  (i < List.length l)%nat -> In (i, nth i l d) (Engine.enumerate l).
Proof.
  intros H. unfold Engine.enumerate.
  replace (i, nth i l d)
    with (nth i (combine (seq 0 (List.length l)) l) (0%nat, d)).
  - apply nth_In. rewrite length_combine, length_seq. lia.
  - rewrite combine_nth by apply length_seq. now rewrite seq_nth.
Qed.

(** The constructor of a chunk request refuses a pair of chunks of which
    one is empty. *)
Lemma make_tasks_one_sided (sensitivity : SensitivityLevel.t)
  (pairs : list (nat * (string * string))) (i : nat) (o g : string) :
  In (i, (o, g)) pairs -> Py.truthy o <> Py.truthy g ->
  Engine.make_tasks sensitivity pairs = Engine.Raise Engine.ValidationError.
Proof.
  intros Hin Hone.
  induction pairs as [|[j [o' g']] pairs IH]; simpl; [destruct Hin|].
  assert (Hnew : forall a b,
             match Engine.new_CompareRequest a b sensitivity with
             | Engine.Ok _ => Py.truthy a = true /\ Py.truthy b = true
             | Engine.Raise e => e = Engine.ValidationError
             end).
  { intros a b. unfold Engine.new_CompareRequest.
    destruct (1 <=? Py.len a) eqn:Ea; simpl; [|reflexivity].
    destruct (Py.len a <=? 50000); simpl; [|reflexivity].
    destruct (1 <=? Py.len b) eqn:Eb; simpl; [|reflexivity].
    destruct (Py.len b <=? 50000); simpl; [|reflexivity].
    split; apply truthy_iff; intros ->; discriminate. }
  destruct Hin as [[= -> -> ->]|Hin].
  - specialize (Hnew o g).
    destruct (Py.truthy o), (Py.truthy g); simpl; try congruence;
      destruct (Engine.new_CompareRequest o g sensitivity);
      try (now rewrite Hnew); destruct Hnew; discriminate.
  - specialize (IH Hin). rewrite IH.
    destruct (_ && _)%bool; [reflexivity|].
    specialize (Hnew o' g').
    destruct (Engine.new_CompareRequest o' g' sensitivity);
      [reflexivity | now rewrite Hnew].
Qed.

(** Chunk number [i] of a text, the empty string past the last chunk: what
    the padding of [_analyze_with_chunking] makes of it. *)
Definition chunk_at (text : string) (i : nat) : string :=
  nth i (Engine._split_into_chunks text 3000) "".

(** X12. A chunked request of which some chunk faces nothing fails. When a
    request goes through chunking and, at some position, one text has a
    chunk that is not empty where the other text has an empty chunk or no
    chunk at all, the constructor of the chunk request raises a
    [ValidationError]; it escapes [analyze_diff] before any invocation of
    the oracle, and the endpoint reports an internal error under status
    500. *)
Theorem one_sided_chunk_raises (cfg : Engine.Settings) (env : Engine.Env)
  (c : Cache.ResponseCache) (request : Models.CompareRequest) (i : nat) :
  fst (Engine.cache_get c (Engine.t_lookup env) request) = None ->
  Qle_bool (Engine.similarity_ratio env) (Engine.SHORT_CIRCUIT_THRESHOLD cfg) = true ->
  Py.len (Models.original_text request) > Engine.CHUNK_THRESHOLD
  \/ Py.len (Models.generated_text request) > Engine.CHUNK_THRESHOLD ->
  Py.truthy (chunk_at (Models.original_text request) i)
  <> Py.truthy (chunk_at (Models.generated_text request) i) ->
  Engine.analyze_diff cfg env c request
  = (Engine.Raise Engine.ValidationError,
     snd (Engine.cache_get c (Engine.t_lookup env) request), 0%nat)
  /\ Engine.error_type Engine.ValidationError = "internal_error"
  /\ Endpoint.status_code Engine.ValidationError = 500.
Proof.
  intros Hmiss Hratio Hlong Hone. split; [|split; reflexivity].
  unfold Engine.analyze_diff.
  destruct (Engine.cache_get c (Engine.t_lookup env) request) as [cached c1].
  simpl in Hmiss. subst cached. rewrite Hratio. cbn [negb snd].
  replace (_ || _)%bool with true.
  2:{ symmetry. apply orb_true_iff.
      destruct Hlong as [H|H]; [left | right]; apply Z.gtb_lt; lia. }
  unfold Engine._analyze_with_chunking.
  set (oc := Engine._split_into_chunks (Models.original_text request) 3000) in *.
  set (gc := Engine._split_into_chunks (Models.generated_text request) 3000) in *.
  set (m := Nat.max (List.length oc) (List.length gc)).
  unfold chunk_at in Hone. fold oc gc in Hone.
  assert (Hi : (i < m)%nat).
  { destruct (Nat.lt_ge_cases i m) as [H|H]; [exact H|].
    exfalso. apply Hone. rewrite !nth_overflow by lia. reflexivity. }
  rewrite (@make_tasks_one_sided (Models.sensitivity request) _ i
             (nth i oc "") (nth i gc "")); [reflexivity| |exact Hone].
  rewrite <- (nth_pad_chunks m i oc), <- (nth_pad_chunks m i gc).
  rewrite <- combine_nth
    by (unfold Engine.pad_chunks; rewrite !length_app, !repeat_length; lia).
  apply enumerate_in.
  rewrite length_combine. unfold Engine.pad_chunks.
  rewrite !length_app, !repeat_length. lia.
Qed.

(** A request of which the original has three chunks and the generated
    text one. *)
Definition lopsided_request : Models.CompareRequest :=
  Models.mkCompareRequest (three_paragraphs "a" "b" "c") (filler 1600 "x")
                          SensitivityLevel.MEDIUM false.

Lemma one_sided_chunk_raises_witness :
  Engine.analyze_diff Engine.settings
    (world (Engine.Replies (Engine.Json (reply true 0 "NONE" []))) (0 # 1) 0)
    Cache.global lopsided_request
  = (Engine.Raise Engine.ValidationError,
     snd (Engine.cache_get Cache.global 0 lopsided_request), 0%nat)
  /\ Engine.error_type Engine.ValidationError = "internal_error"
  /\ Endpoint.status_code Engine.ValidationError = 500.
Proof.
  apply (@one_sided_chunk_raises Engine.settings
           (world (Engine.Replies (Engine.Json (reply true 0 "NONE" []))) (0 # 1) 0)
           Cache.global lopsided_request 1%nat).
  - reflexivity.
  - reflexivity.
  - left. vm_compute. reflexivity.
  - vm_compute. discriminate.
Defined.

(** X13. A time-out that lasts. On the single-call path, when the three
    attempts of the call time out, [analyze_diff] has invoked the oracle
    three times, stores nothing, and raises [LLMAPIError] with the text
    of its time-out clause. That text holds no ["timeout"], so the
    endpoint answers 502, the status of its last branch, and not 504. *)
Theorem lasting_timeout_is_502 (cfg : Engine.Settings) (env : Engine.Env)
  (c : Cache.ResponseCache) (request : Models.CompareRequest) :
  single_call_path cfg env c request ->
  (forall k, (k < 3)%nat ->
     Engine.oracle env (Engine.call_of request (selected_model cfg request))
                   0%nat k
     = Engine.Fails Engine.APITimeoutError) ->
  Engine.analyze_diff cfg env c request
  = (Engine.Raise (Engine.LLMAPIError "Request timed out. Please try again."),
     snd (Engine.cache_get c (Engine.t_lookup env) request), 3%nat)
  /\ Endpoint.status_code
       (Engine.LLMAPIError "Request timed out. Please try again.") = 502.
Proof.
  intros (Hmiss & Hratio & Ho & Hg) Hfail. split; [|reflexivity].
  unfold Engine.analyze_diff. fold (selected_model cfg request).
  destruct (Engine.cache_get c (Engine.t_lookup env) request) as [cached c1].
  simpl in Hmiss. subst cached. rewrite Hratio. cbn [negb snd].
  replace (_ || _)%bool with false.
  2:{ symmetry. apply orb_false_iff. unfold Engine.CHUNK_THRESHOLD in *.
      split; rewrite Z.gtb_ltb; apply Z.ltb_ge; lia. }
  unfold Engine._call_llm_with_retry. cbn [Engine.retry_loop].
  rewrite !Hfail by lia. reflexivity.
Qed.

Lemma lasting_timeout_is_502_witness :
  Engine.analyze_diff Engine.settings
    (world (Engine.Fails Engine.APITimeoutError) (36 # 43) 0)
    Cache.global q1_request
  = (Engine.Raise (Engine.LLMAPIError "Request timed out. Please try again."),
     snd (Engine.cache_get Cache.global 0 q1_request), 3%nat)
  /\ Endpoint.status_code
       (Engine.LLMAPIError "Request timed out. Please try again.") = 502.
Proof.
  apply (@lasting_timeout_is_502 Engine.settings
           (world (Engine.Fails Engine.APITimeoutError) (36 # 43) 0)
           Cache.global q1_request).
  - repeat split; vm_compute; congruence.
  - intros k _. reflexivity.
Defined.

(** ** The merged risk score *)

(** The risk scores of the results that are responses. *)
Definition scores (chunk_results : list (Engine.result Models.DiffResponse))
  : list Z :=
  flat_map (fun res => match res with
                       | Engine.Ok r => [Models.risk_score (Models.summary r)]
                       | Engine.Raise _ => []
                       end) chunk_results.

Lemma merge_loop_total (offsets : list Z)
  (items : list (nat * Engine.result Models.DiffResponse))
  (st : Engine.merge_state) :
  Engine.total_risk_score (fold_left (Engine.merge_step offsets) items st)
  = Engine.total_risk_score st + fold_right Z.add 0 (scores (map snd items)).
Proof.
  revert st. induction items as [|[i r] items IH]; intros st; simpl; [lia|].
  rewrite IH. destruct r as [r|e]; simpl; lia.
Qed.

Lemma map_snd_enumerate {A : Type} (l : list A) :
  map snd (Engine.enumerate l) = l.
Proof.
  unfold Engine.enumerate. generalize 0%nat.
  induction l as [|x l IH]; intros s; simpl; [reflexivity|]. now rewrite IH.
Qed.

Lemma length_scores (chunk_results : list (Engine.result Models.DiffResponse)) :
  List.length (scores chunk_results)
  = List.length (filter Engine.is_ok chunk_results).
Proof.
  induction chunk_results as [|[r|e] l IH]; simpl; congruence.
Qed.

Lemma sum_between (lo hi : Z) (l : list Z) :
  Forall (fun x => lo <= x <= hi) l ->
  lo * Z.of_nat (List.length l) <= fold_right Z.add 0 l
  <= hi * Z.of_nat (List.length l).
Proof.
  induction 1 as [|x l Hx _ IH]; simpl List.length; simpl fold_right; [lia|].
  rewrite Nat2Z.inj_succ. lia.
Qed.

(** The merged risk score as a function of the scores. *)
Lemma merged_risk_score
  (chunk_results : list (Engine.result Models.DiffResponse))
  (original_chunks : list string) :
  Models.risk_score
    (Models.summary (Engine._merge_chunk_results chunk_results original_chunks))
  = let n := Z.of_nat (List.length (scores chunk_results)) in
    Z.min 100 (if n >? 0
               then fold_right Z.add 0 (scores chunk_results) / n else 0).
Proof.
  unfold Engine._merge_chunk_results. cbn [Models.risk_score Models.summary].
  rewrite merge_loop_total, map_snd_enumerate, length_scores. reflexivity.
Qed.

(** X14. The merged risk score lies between the scores of the chunks. When
    every chunk result that is a response has a risk score between [lo]
    and [hi], with [hi] at most 100, and at least one result is a
    response, the risk score of the merged response is between [lo] and
    [hi] too: it never exceeds the highest score of a chunk, and it is a
    score that [DiffSummary] accepts. *)
Theorem merged_risk_between (lo hi : Z)
  (chunk_results : list (Engine.result Models.DiffResponse))
  (original_chunks : list string) :
  existsb Engine.is_ok chunk_results = true ->
  Forall (fun x => lo <= x <= hi) (scores chunk_results) ->
  hi <= 100 ->
  lo <= Models.risk_score
          (Models.summary
             (Engine._merge_chunk_results chunk_results original_chunks))
     <= hi.
Proof.
  intros Hsome Hall Hhi. rewrite merged_risk_score. cbv zeta.
  pose proof (sum_between Hall) as Hsum.
  assert (Hn : 0 < Z.of_nat (List.length (scores chunk_results))).
  { rewrite length_scores. apply existsb_exists in Hsome.
    destruct Hsome as (x & Hin & Hx).
    assert (In x (filter Engine.is_ok chunk_results)) by (apply filter_In; tauto).
    destruct (filter Engine.is_ok chunk_results); [contradiction | simpl; lia]. }
  set (n := Z.of_nat (List.length (scores chunk_results))) in *.
  set (total := fold_right Z.add 0 (scores chunk_results)) in *.
  replace (n >? 0) with true by (symmetry; apply Z.gtb_lt; lia).
  assert (lo <= total / n) by (apply Z.div_le_lower_bound; lia).
  assert (total / n <= hi) by (apply Z.div_le_upper_bound; lia).
  lia.
Qed.

Lemma merged_risk_between_witness :
  20 <= Models.risk_score
          (Models.summary
             (Engine._merge_chunk_results
                [ Engine.Ok (Models.mkDiffResponse
                               (Models.mkDiffSummary false 90
                                  SemanticChangeLevel.CRITICAL) []);
                  Engine.Raise Engine.OtherException;
                  Engine.Ok (Models.mkDiffResponse
                               (Models.mkDiffSummary true 20
                                  SemanticChangeLevel.MINOR) []) ]
                ["a"; "b"; "c"]))
     <= 90.
Proof.
  apply merged_risk_between.
  - reflexivity.
  - repeat constructor; simpl; lia.
  - lia.
Defined.

(** ** The severity of a change *)

Lemma severity_map_values (k : string) :
  In (Models.dict_get Models.severity_map k "warning")
     ["info"; "warning"; "critical"].
Proof.
  unfold Models.severity_map. cbn [Models.dict_get].
  repeat match goal with
         | |- context [(?a =? k)%string] => destruct (a =? k)%string
         end; simpl; tauto.
Qed.

Lemma severity_map_default (k : string) :
  ~ In k (map fst Models.severity_map) ->
  Models.dict_get Models.severity_map k "warning" = "warning".
Proof.
  unfold Models.severity_map. cbn [Models.dict_get map fst In]. intros H.
  repeat match goal with
         | |- context [(?a =? k)%string] =>
             destruct (String.eqb_spec a k); [exfalso; apply H; tauto|]
         end.
  reflexivity.
Qed.

(** The check of the id of a change: the oracle's when it is well
    formed, a fresh one when there is none. *)
Definition id_of (fresh : string) (change : Raw.Change) : option string :=
  match Raw.id change with
  | None => Some fresh
  | Some (Raw.WellFormed u) => Some u
  | Some (Raw.Malformed _) => None
  end.

(** X15. A severity that is not empty is never what a change is refused
    for. When the other fields of a change are accepted (the id, the type
    once in upper case, the description, the two spans and the
    reasoning), the change is accepted whatever its severity is, provided
    it is not the empty string; the severity of the item is the member
    whose value [severity_map] gives for the severity in lower case and
    stripped, and that is [warning] for every word the map does not
    have. *)
Theorem nonempty_severity_is_accepted (fresh : string) (change : Raw.Change)
  (sv t upper_t i d r : string) (ty : ChangeType.t) (o g : Models.TextSpan) :
  Raw.severity change = Some sv -> sv <> "" ->
  id_of fresh change = Some i ->
  Raw.type change = Some t -> Py.upper t = Some upper_t ->
  Models.of_value ChangeType.members ChangeType.value upper_t = Some ty ->
  Models.min_length_1 (Raw.description change) = Some d ->
  Models.bind (Raw.original_span change) Models.validate_TextSpan = Some o ->
  Models.bind (Raw.generated_span change) Models.validate_TextSpan = Some g ->
  Models.min_length_1 (Raw.reasoning change) = Some r ->
  exists s,
    Models.of_value ChangeSeverity.members ChangeSeverity.value
      (Models.dict_get Models.severity_map (Py.strip (Py.lower sv)) "warning")
    = Some s
    /\ Models.validate_ChangeItem fresh change
       = Some (Models.mkChangeItem i ty s d o g r)
    /\ (~ In (Py.strip (Py.lower sv)) (map fst Models.severity_map) ->
        s = ChangeSeverity.WARNING).
Proof.
  intros Hsv Hne Hid Ht Hup Hty Hd Ho Hg Hr.
  assert (Hval : exists s,
             Models.of_value ChangeSeverity.members ChangeSeverity.value
               (Models.dict_get Models.severity_map (Py.strip (Py.lower sv))
                                "warning") = Some s).
  { destruct (severity_map_values (Py.strip (Py.lower sv)))
      as [<-|[<-|[<-|[]]]]; eexists; reflexivity. }
  destruct Hval as [s Hs]. exists s. split; [exact Hs|]. split.
  - assert (Htr : Py.truthy t = true).
    { apply truthy_iff. intros ->. simpl in Hup. injection Hup as <-.
      discriminate Hty. }
    unfold Models.validate_ChangeItem, Models.normalize_fields,
      Models.normalize_severity.
    rewrite Ht, Htr, Hup. cbn [Raw.severity Raw.set_type]. rewrite Hsv.
    apply truthy_iff in Hne. rewrite Hne.
    unfold id_of in Hid.
    cbn [Models.bind Raw.set_severity Raw.set_type Raw.id Raw.type
         Raw.severity Raw.description Raw.original_span Raw.generated_span
         Raw.reasoning].
    rewrite Hid. cbn [Models.bind]. rewrite Hty. cbn [Models.bind].
    rewrite Hs. cbn [Models.bind]. rewrite Hd. cbn [Models.bind].
    rewrite Ho. cbn [Models.bind]. rewrite Hg. cbn [Models.bind].
    rewrite Hr. reflexivity.
  - intros Hnot. rewrite (severity_map_default Hnot) in Hs.
    vm_compute in Hs. congruence.
Qed.

(** A severity and a type as an oracle may write them. *)
Definition loosely_written : Raw.Change :=
  Raw.mkChange None (Some "Factual") (Some " Severe ") (Some "d")
    (Some (Raw.mkSpan (Some "a") (Some 0) (Some 1) None None))
    (Some (Raw.mkSpan (Some "b") (Some 0) (Some 1) None None))
    (Some "r").

Lemma nonempty_severity_is_accepted_witness :
  exists s,
    Models.of_value ChangeSeverity.members ChangeSeverity.value
      (Models.dict_get Models.severity_map (Py.strip (Py.lower " Severe "))
                       "warning")
    = Some s
    /\ Models.validate_ChangeItem "id" loosely_written
       = Some (Models.mkChangeItem "id" ChangeType.FACTUAL s "d"
                 (Models.mkTextSpan "a" 0 1 "" "")
                 (Models.mkTextSpan "b" 0 1 "" "") "r")
    /\ (~ In (Py.strip (Py.lower " Severe ")) (map fst Models.severity_map) ->
        s = ChangeSeverity.WARNING).
Proof.
  apply (@nonempty_severity_is_accepted "id" loosely_written
           " Severe " "Factual" "FACTUAL").
  - reflexivity.
  - discriminate.
  - reflexivity.
  - reflexivity.
  - reflexivity.
  - reflexivity.
  - reflexivity.
  - reflexivity.
  - reflexivity.
  - reflexivity.
Defined.

(** The sharp s has a capital of two letters: this type is a member. *)
Example upper_sharp_s :
  Py.upper ("omi" ++ String (ascii_of_nat 223) "ion") = Some "OMISSION".
Proof. reflexivity. Qed.

(** ** The spans of a computed response *)

(** The span of a validated change is where it says: its text is empty,
    or it is the slice of the source at its offsets. *)
Definition located (span : Models.TextSpan) (source : string) : Prop :=
  Models.text span = ""
  \/ Py.slice source (Models.start span) (Models.end_ span) = Models.text span.

Definition located_in (original_text generated_text : string)
  (change : Models.ChangeItem) : Prop :=
  located (Models.original_span change) original_text
  /\ located (Models.generated_span change) generated_text.

Lemma validate_TextSpan_located (side : option Raw.Span) (source : string)
  (span : Models.TextSpan) :
  anchored side source ->
  Models.bind side Models.validate_TextSpan = Some span ->
  located span source.
Proof.
  intros Ha. destruct side as [sp|]; [|discriminate]. simpl.
  unfold Models.validate_TextSpan.
  destruct (Raw.text sp) as [t|] eqn:Ht; [|discriminate].
  destruct (Raw.start sp) as [s|] eqn:Hs; [|discriminate].
  destruct (Raw.end_ sp) as [e|] eqn:He; [|discriminate].
  destruct (_ && _)%bool; [|discriminate]. intros [= <-]. unfold located. simpl.
  destruct (string_dec t "") as [->|Hne]; [now left | right].
  apply (Ha sp t s e eq_refl). repeat split; assumption.
Qed.

Lemma normalize_fields_spans (change normalized : Raw.Change) :
  Models.normalize_fields change = Some normalized ->
  Raw.original_span normalized = Raw.original_span change
  /\ Raw.generated_span normalized = Raw.generated_span change.
Proof.
  unfold Models.normalize_fields, Models.normalize_severity.
  destruct (Raw.type change) as [t|];
    [destruct (Py.truthy t); [destruct (Py.upper t) as [u|]|]|];
    try discriminate; intros [= <-];
    cbn [Raw.severity Raw.set_type];
    (destruct (Raw.severity change) as [sv|]; [destruct (Py.truthy sv)|]);
    split; reflexivity.
Qed.

Lemma validate_ChangeItem_located (fresh : string)
  (original_text generated_text : string) (change : Raw.Change)
  (item : Models.ChangeItem) :
  anchored_in original_text generated_text change ->
  Models.validate_ChangeItem fresh change = Some item ->
  located_in original_text generated_text item.
Proof.
  intros [Ho Hg]. unfold Models.validate_ChangeItem.
  destruct (Models.normalize_fields change) as [normalized|] eqn:Hn;
    [|discriminate]. cbn [Models.bind].
  destruct (@normalize_fields_spans _ _ Hn) as [-> ->].
  destruct (match Raw.id _ with None => _ | Some _ => _ end); [|discriminate].
  cbn [Models.bind].
  destruct (Models.bind (Raw.type _) _); [|discriminate]. cbn [Models.bind].
  destruct (Models.bind (Raw.severity _) _); [|discriminate]. cbn [Models.bind].
  destruct (Models.min_length_1 (Raw.description _)); [|discriminate].
  cbn [Models.bind].
  destruct (Models.bind (Raw.original_span change) _) as [o|] eqn:Eo;
    [|discriminate]. cbn [Models.bind].
  destruct (Models.bind (Raw.generated_span change) _) as [g|] eqn:Eg;
    [|discriminate]. cbn [Models.bind].
  destruct (Models.min_length_1 (Raw.reasoning _)); [|discriminate].
  cbn [Models.bind]. intros [= <-]. split; simpl.
  - eapply validate_TextSpan_located; eassumption.
  - eapply validate_TextSpan_located; eassumption.
Qed.

Lemma validate_changes_located (uuid4 : nat -> string)
  (original_text generated_text : string) (l : list Raw.Change) :
  Forall (anchored_in original_text generated_text) l ->
  forall k items,
    Models.validate_changes uuid4 k l = Some items ->
    Forall (located_in original_text generated_text) items.
Proof.
  induction 1 as [|change l Hc _ IH]; intros k items; simpl.
  - intros [= <-]. constructor.
  - destruct (Models.validate_ChangeItem (uuid4 k) change) as [item|] eqn:Ei;
      [|discriminate]. cbn [Models.bind].
    destruct (Models.validate_changes uuid4 (S k) l) as [rest|] eqn:Er;
      [|discriminate]. cbn [Models.bind]. intros [= <-].
    constructor; [eapply validate_ChangeItem_located; eassumption | exact (IH _ _ Er)].
Qed.

Lemma assign_ids_anchored (uuid4 : nat -> string)
  (original_text generated_text : string) (l : list Raw.Change) :
  Forall (anchored_in original_text generated_text) l ->
  forall k,
    Forall (anchored_in original_text generated_text)
           (fst (Engine.assign_ids uuid4 k l)).
Proof.
  induction 1 as [|change l Hc _ IH]; intros k; simpl; [constructor|].
  destruct (match Raw.id change with None => _ | Some _ => _ end).
  - specialize (IH (S k)). destruct (Engine.assign_ids uuid4 (S k) l).
    simpl in *. constructor; [exact Hc | exact IH].
  - specialize (IH k). destruct (Engine.assign_ids uuid4 k l).
    simpl in *. constructor; [exact Hc | exact IH].
Qed.

Lemma build_response_located (uuid4 : nat -> string)
  (original_text generated_text : string) (response_data : Raw.Response)
  (r : Models.DiffResponse) :
  Forall (anchored_in original_text generated_text)
         (Models.from_option [] (Raw.changes response_data)) ->
  Engine._validate_and_build_response uuid4 response_data = Engine.Ok r ->
  Forall (located_in original_text generated_text) (Models.changes r).
Proof.
  intros Ha. unfold Engine._validate_and_build_response.
  set (d' := match Raw.changes response_data with Some l => _ | None => _ end).
  assert (Hd : Forall (anchored_in original_text generated_text)
                      (Models.from_option [] (Raw.changes (fst d')))).
  { subst d'. destruct (Raw.changes response_data) as [l|] eqn:El.
    - pose proof (@assign_ids_anchored uuid4 _ _ _ Ha 0%nat) as H.
      simpl in H. destruct (Engine.assign_ids uuid4 0 l). exact H.
    - simpl. rewrite El. constructor. }
  destruct d' as [d k]. simpl in Hd.
  destruct (Models.validate_DiffResponse uuid4 k d) as [r0|] eqn:Hv;
    [|discriminate].
  assert (H0 : Forall (located_in original_text generated_text)
                      (Models.changes r0)).
  { unfold Models.validate_DiffResponse in Hv.
    destruct (Models.bind (Raw.summary d) _); [|discriminate].
    cbn [Models.bind] in Hv.
    destruct (Models.validate_changes uuid4 k _) as [items|] eqn:Ei;
      [|discriminate].
    cbn [Models.bind] in Hv. injection Hv as <-. simpl.
    eapply validate_changes_located; eassumption. }
  destruct (_ || _)%bool; [destruct (Models.is_safe _)|];
    intros [= <-]; exact H0.
Qed.

Lemma fixed_changes_anchored (response_data : Raw.Response)
  (original_text generated_text : string) :
  Raw.changes response_data <> None ->
  Forall (anchored_in original_text generated_text)
         (Models.from_option []
            (Raw.changes (Engine._validate_and_fix_spans response_data
                            original_text generated_text))).
Proof.
  unfold Engine._validate_and_fix_spans.
  destruct (Raw.changes response_data) as [l|]; [|congruence]. intros _.
  simpl. fold (kept original_text generated_text l).
  rewrite kept_flat_map. apply Forall_flat_map. apply Forall_forall.
  intros c _. apply kept_of_anchored.
Qed.

(** X16. The spans of a computed response are where they say. When
    [analyze_diff] computes the response itself (the request is not in
    the cache and no text is long enough for chunking), every span of
    every change of the response has a text that is empty or that is
    exactly the slice of its source at the offsets of the span: the
    original text for the original span, the generated text for the
    generated span. *)
Theorem computed_spans_are_exact (cfg : Engine.Settings) (env : Engine.Env)
  (c : Cache.ResponseCache) (request : Models.CompareRequest)
  (r : Models.DiffResponse) :
  fst (Engine.cache_get c (Engine.t_lookup env) request) = None ->
  Py.len (Models.original_text request) <= Engine.CHUNK_THRESHOLD ->
  Py.len (Models.generated_text request) <= Engine.CHUNK_THRESHOLD ->
  fst (fst (Engine.analyze_diff cfg env c request)) = Engine.Ok r ->
  Forall (located_in (Models.original_text request)
                     (Models.generated_text request))
         (Models.changes r).
Proof.
  intros Hmiss Ho Hg. unfold Engine.analyze_diff.
  destruct (Engine.cache_get c (Engine.t_lookup env) request) as [cached c1].
  simpl in Hmiss. subst cached.
  destruct (negb _); [simpl; intros [= <-]; constructor|].
  replace (_ || _)%bool with false.
  2:{ symmetry. apply orb_false_iff. unfold Engine.CHUNK_THRESHOLD in *.
      split; rewrite Z.gtb_ltb; apply Z.ltb_ge; lia. }
  destruct (Engine._call_llm_with_retry _) as [outcome n].
  unfold Engine.process_reply.
  destruct outcome as [e|[| |response_data]]; try discriminate.
  destruct (Engine._validate_and_build_response _ _) as [r'|e] eqn:Hb;
    [|discriminate].
  simpl. intros [= <-].
  eapply build_response_located; [|exact Hb].
  destruct (Raw.changes response_data) as [l|] eqn:El.
  - apply fixed_changes_anchored. congruence.
  - unfold Engine._validate_and_fix_spans. rewrite El. simpl. rewrite El.
    constructor.
Qed.

(** An answer about the example request with offsets that are off. *)
Definition misplaced : Raw.Change :=
  Raw.mkChange None (Some "FACTUAL") (Some "warning")
    (Some "Certainty level changed")
    (Some (Raw.mkSpan (Some "will be") (Some 0) (Some 7) None None))
    (Some (Raw.mkSpan (Some "might be") (Some 30) (Some 38) None None))
    (Some "Modal verb changed").

Definition replaced : Models.ChangeItem :=
  Models.mkChangeItem "123e4567-e89b-42d3-a456-426614174000"
    ChangeType.FACTUAL ChangeSeverity.WARNING "Certainty level changed"
    (Models.mkTextSpan "will be" 12 19 "" "")
    (Models.mkTextSpan "might be" 12 20 "" "")
    "Modal verb changed".

Lemma computed_spans_are_exact_witness :
  Forall (located_in (Models.original_text q1_request)
                     (Models.generated_text q1_request))
         (Models.changes
            (Models.mkDiffResponse
               (Models.mkDiffSummary false 45 SemanticChangeLevel.MODERATE)
               [replaced])).
Proof.
  apply (@computed_spans_are_exact Engine.settings
           (world (Engine.Replies
                     (Engine.Json (reply false 45 "MODERATE" [misplaced])))
                  (36 # 43) 0)
           Cache.global q1_request).
  - reflexivity.
  - vm_compute. discriminate.
  - vm_compute. discriminate.
  - vm_compute. reflexivity.
Defined.

(** ** The context of a span *)

Lemma substring_add (s : string) (a n m : nat) :
  substring a (n + m) s = substring a n s ++ substring (a + n) m s.
Proof.
  revert a n. induction s as [|c s IH]; intros a n.
  - destruct a, n, m; reflexivity.
  - destruct a as [|a]; simpl.
    + destruct n as [|n]; simpl; [reflexivity|].
      f_equal. exact (IH 0%nat n).
    + apply IH.
Qed.

Lemma length_substring (s : string) (a n : nat) :
  (a + n <= String.length s)%nat -> String.length (substring a n s) = n.
Proof.
  revert a n. induction s as [|c s IH]; intros a n H; simpl in H.
  - assert (a = 0%nat) by lia. assert (n = 0%nat) by lia. subst. reflexivity.
  - destruct a as [|a]; simpl.
    + destruct n as [|n]; simpl; [reflexivity|]. f_equal. apply IH. simpl. lia.
    + apply IH. lia.
Qed.

Lemma slice_inside (s : string) (lo hi : Z) :
  0 <= lo <= hi -> hi <= Py.len s ->
  Py.slice s lo hi = substring (Z.to_nat lo) (Z.to_nat (hi - lo)) s.
Proof.
  intros H1 H2. unfold Py.slice.
  rewrite !clamp_inside by lia.
  destruct (Z.ltb_spec lo hi); [reflexivity|].
  replace (hi - lo) with 0 by lia. simpl. generalize (Z.to_nat lo).
  clear. induction s as [|c s IH]; intros [|n]; simpl; auto.
Qed.

(** X17. The contexts that [get_context] gives for a span inside the text
    are the characters that touch it: put around the text of the span
    they give one slice of the text, and each holds [context_chars]
    characters, or all there are on its side when there are fewer. *)
Theorem get_context_adjacent (text : string) (start end_ context_chars : Z) :
  0 <= start <= end_ -> end_ <= Py.len text -> 0 <= context_chars ->
  let context_before :=
    fst (TextSanitizer.get_context text start end_ context_chars) in
  let context_after :=
    snd (TextSanitizer.get_context text start end_ context_chars) in
  context_before ++ Py.slice text start end_ ++ context_after
  = Py.slice text (Z.max 0 (start - context_chars))
             (Z.min (Py.len text) (end_ + context_chars))
  /\ Py.len context_before = Z.min context_chars start
  /\ Py.len context_after = Z.min context_chars (Py.len text - end_).
Proof.
  intros Hse Hlen Hk. unfold TextSanitizer.get_context. cbn [fst snd].
  set (lo := Z.max 0 (start - context_chars)).
  set (hi := Z.min (Py.len text) (end_ + context_chars)).
  assert (Hlo : 0 <= lo <= start) by lia.
  assert (Hhi : end_ <= hi <= Py.len text) by lia.
  rewrite !slice_inside by lia.
  split; [|split].
  - replace (Z.to_nat (hi - lo))
      with (Z.to_nat (start - lo)
            + (Z.to_nat (end_ - start) + Z.to_nat (hi - end_)))%nat by lia.
    rewrite !substring_add. repeat f_equal; lia.
  - unfold Py.len in *. rewrite length_substring by lia. lia.
  - unfold Py.len in *. rewrite length_substring by lia. lia.
Qed.

Lemma get_context_adjacent_witness :
  let text := "The word is here in the text" in
  let context_before := fst (TextSanitizer.get_context text 12 16 5) in
  let context_after := snd (TextSanitizer.get_context text 12 16 5) in
  context_before ++ Py.slice text 12 16 ++ context_after
  = Py.slice text (Z.max 0 (12 - 5)) (Z.min (Py.len text) (16 + 5))
  /\ Py.len context_before = Z.min 5 12
  /\ Py.len context_after = Z.min 5 (Py.len text - 16).
Proof.
  apply (@get_context_adjacent "The word is here in the text" 12 16 5).
  - lia.
  - vm_compute. discriminate.
  - lia.
Defined.
